(** * TypeDoc application pipeline: a shallow embedding of
      [src/lib/application.ts] and of the conversion / serialization
      contracts it drives.

    The development has two parts.  Part I holds every definition: the data
    the application handles, the external collaborators it calls (file
    system, TypeScript compiler API, package-manifest helpers), the
    application's own functions translated from the TypeScript source, and
    the Converter / Serializer modelled from the specification.  Part II
    holds the theorems. *)

From stdpp Require Import base option list strings gmap pretty.
From Stdlib Require Import Bool Ascii Lia.

Set Warnings "-register-all".
Local Open Scope string_scope.
Local Open Scope list_scope.

(* ===================================================================== *)
(** * Part I — definitions                                                 *)
(* ===================================================================== *)

(** ** Strings as the source uses them *)

(** [String.prototype.endsWith]. *)
Definition endsWith (s suffix : string) : bool :=
  let n := String.length s in
  let m := String.length suffix in
  (m <=? n)%nat && String.eqb (String.substring (n - m) m s) suffix.

(** The two regular expressions of [expandInputFiles]:
    [/\.tsx?$/] and [/\.[tj]sx?$/], tested against a file name. *)
Definition test_ts_regex (file : string) : bool :=
  endsWith file ".ts" || endsWith file ".tsx".

Definition test_tjs_regex (file : string) : bool :=
  endsWith file ".ts" || endsWith file ".tsx" ||
  endsWith file ".js" || endsWith file ".jsx".

(** ** The reflection data model (spec, section 3) *)

Inductive ReflectionKind :=
| KProject | KModule | KNamespace | KClass | KInterface | KTypeAlias
| KEnum | KEnumMember | KVariable | KFunction | KMethod | KProperty
| KAccessor | KConstructor | KTypeParameter | KParameter | KSignature
| KReference.

Inductive ReflectionFlag :=
| FPrivate | FStatic | FAbstract | FOptional | FReadonly | FExternal.

#[global] Instance ReflectionKind_eq_dec : EqDecision ReflectionKind.
Proof. solve_decision. Defined.

#[global] Instance ReflectionFlag_eq_dec : EqDecision ReflectionFlag.
Proof. solve_decision. Defined.

Record SourceLocation := {
  src_file : string;
  src_line : nat;
  src_column : nat;
}.

(** A comment: summary prose blocks and the ordered tag list (duplicates
    kept in encounter order). *)
Record Comment := {
  cm_summary : list string;
  cm_tags : list (string * string);
}.

(** Modelled from the spec: the Reflection node of section 3.  Ownership
    edges ([children], [signatures]) nest the owned reflections; every
    other edge is a bare id. *)
Inductive Reflection := mkReflection {
  r_id : nat;
  r_name : string;
  r_kind : ReflectionKind;
  r_flags : list ReflectionFlag;
  r_comment : option Comment;
  r_sources : list SourceLocation;
  r_children : list Reflection;
  r_signatures : list Reflection;
  r_extendedBy : list nat;
  r_implementedBy : list nat;
  r_inheritedFrom : option nat;
  r_target : option nat;
}.

(** ** What the SemanticProvider supplies (spec, section 6) *)

(** Symbol identities are tokens that are stable for one run only. *)
Definition Symbol := positive.

(** Modelled from the spec: a declaration reachable from an entry point,
    with its symbol identity, visibility, documentation, location, the
    overload signature it contributes (callables), the symbol it re-exports
    (aliases) and its member declarations in source order. *)
Inductive Declaration := mkDeclaration {
  d_symbol : Symbol;
  d_name : string;
  d_kind : ReflectionKind;
  d_flags : list ReflectionFlag;
  d_excluded : bool;
  d_ignoreTag : bool;
  d_comment : option Comment;
  d_source : SourceLocation;
  d_signature : option string;
  d_reexportOf : option Symbol;
  d_members : list Declaration;
}.

Definition Diagnostic := string.

Record SourceFile := {
  sf_fileName : string;
  sf_declarations : list Declaration;
}.

Record CompilerOptions := {
  co_allowJs : option bool;
  co_checkJs : option bool;
  co_others : list string;
}.

(** [Object.keys(options).length]. *)
Definition Object_keys_length (co : CompilerOptions) : nat :=
  (if co_allowJs co is Some _ then 1 else 0)
  + (if co_checkJs co is Some _ then 1 else 0)
  + length (co_others co).

(** JavaScript truthiness of an optional boolean. *)
Definition truthy (b : option bool) : bool :=
  match b with Some true => true | _ => false end.

Record ProjectReference := { pr_path : string }.

Record ParsedCommandLine := {
  pcl_options : CompilerOptions;
  pcl_fileNames : list string;
  pcl_projectReferences : option (list ProjectReference);
  pcl_errors : list Diagnostic;
}.

Record ResolvedProjectReference := { rpr_commandLine : ParsedCommandLine }.

(** A [ts.Program], as far as the application observes it. *)
Record Program := {
  rootFileNames : list string;
  sourceFiles : gmap string SourceFile;
  preEmitDiagnostics : list Diagnostic;
  resolvedProjectReferences : option (list (option ResolvedProjectReference));
}.

Definition getSourceFile (p : Program) (file : string) : option SourceFile :=
  sourceFiles p !! file.

Record CreateProgramOptions := {
  cpo_rootNames : list string;
  cpo_options : CompilerOptions;
  cpo_projectReferences : option (list ProjectReference);
}.

Record DocumentationEntrypoint := {
  displayName : string;
  path : string;
  program : Program;
  sourceFile : SourceFile;
}.

(** The finished model handed to the renderer and the serializer. *)
Record ProjectReflection := {
  project_root : Reflection;
  project_symbols : gmap Symbol nat;
  project_nextId : nat;
}.

(** ** Effects *)

Inductive LogLevel := LVerbose | LWarn | LError | LSuccess | LWrite.

(** Everything the application does to the outside, in program order. *)
Inductive Effect :=
| Log (level : LogLevel) (message : string) (args : list string)
| LogDiagnostic (d : Diagnostic)
| LogDiagnostics (ds : list Diagnostic)
| LogResetErrors
| ClearScreen
| ProgramEmit (p : Program)
| ConverterConvert (entrypoints : list DocumentationEntrypoint)
| SuccessCallback (project : ProjectReflection)
| OrigAfterProgramCreate (p : Program)
| CreateWatchProgram (tsconfigFile : string) (noEmit : bool)
| EnsureDirectoriesExist (dir : string)
| WriteFile (file : string) (data : string).

(** A computation returns a value and the effects it performed. *)
Definition Eff (A : Type) : Type := A * list Effect.

Definition ret {A} (a : A) : Eff A := (a, []).

Definition bind {A B} (m : Eff A) (k : A → Eff B) : Eff B :=
  let r := k (fst m) in (fst r, snd m ++ snd r).

Definition effect (e : Effect) : Eff unit := (tt, [e]).

Notation "'let*' x ':=' m 'in' k" := (bind m (fun x => k))
  (at level 10, x name, m at level 100, k at level 200).
Notation "m ';;' k" := (bind m (fun _ => k))
  (at level 100, k at level 200, right associativity).

Definition when (b : bool) (m : Eff unit) : Eff unit :=
  if b then m else ret tt.

(** [for (const x of xs) body(x)], the results collected in order. *)
Fixpoint forEach {A B} (body : A → Eff (list B)) (xs : list A) : Eff (list B) :=
  match xs with
  | [] => ret []
  | x :: rest =>
      let* ys := body x in
      let* zs := forEach body rest in
      ret (ys ++ zs)
  end.

Definition logger_verbose (msg : string) (args : list string) : Eff unit :=
  effect (Log LVerbose msg args).
Definition logger_warn (msg : string) : Eff unit := effect (Log LWarn msg []).
Definition logger_error (msg : string) : Eff unit := effect (Log LError msg []).
Definition logger_success (msg : string) (args : list string) : Eff unit :=
  effect (Log LSuccess msg args).
Definition logger_write (msg : string) : Eff unit := effect (Log LWrite msg []).
Definition logger_diagnostic (d : Diagnostic) : Eff unit :=
  effect (LogDiagnostic d).
Definition logger_diagnostics (ds : list Diagnostic) : Eff unit :=
  effect (LogDiagnostics ds).

(** What a helper that is handed the logger returns: its result and the
    messages it logs. *)
Definition Logged (A : Type) : Type := A * list (LogLevel * string).

Definition logged {A} (m : Logged A) : Eff A :=
  (fst m, map (fun entry => Log (fst entry) (snd entry) []) (snd m)).

(** ** The file system *)

(** What [FS.statSync] and [FS.readdirSync] show of a path: a regular file,
    a directory with its entries, or a path whose [statSync] throws. *)
Inductive FsNode :=
| FsFile
| FsDir (entries : list (string * FsNode))
| FsNoStat.

(** ** JSON values *)

Inductive JSON :=
| JNull
| JBool (b : bool)
| JNumber (n : nat)
| JString (s : string)
| JArray (items : list JSON)
| JObject (fields : list (string * JSON)).

(** ** External collaborators

    Everything [application.ts] imports and calls but does not define: the
    [path] and [fs] modules, the TypeScript compiler API, the package
    manifest helpers, the converter, [JSON.stringify] and the values read
    from [package.json]. *)

Inductive TsEntryPoint :=
| EntryUndefined
| IgnorePackage
| EntryPath (file : string).

Record PackageManifest := { pm_name : string }.

Record World := {
  Path_resolve : list string → string;
  Path_relative : string → string → string;
  Path_dirname : string → string;
  Path_basename : string → string;
  Path_join : string → string → string;
  normalizePath : string → string;
  getCommonDirectory : list string → string;
  (** [String.replace] with the regular expression of [getModuleName]. *)
  replaceModuleSuffix : string → string;
  (** The node found at an absolute path; [None]: nothing exists there. *)
  FS_lookup : string → option FsNode;
  (** [mm.match(fileName)] for the matcher built from one pattern. *)
  minimatch_match : string → string → bool;
  ts_version : string;
  ts_versionMajorMinor : string;
  typeScriptPath : string;
  supportedVersionMajorMinor : list string;
  ts_createProgram : CreateProgramOptions → Program;
  ts_findConfigFile : string → option string → option string;
  (** The parsed command line, and the diagnostics handed to
      [onUnRecoverableConfigFileDiagnostic] while parsing. *)
  ts_getParsedCommandLineOfConfigFile :
    string → option ParsedCommandLine * list Diagnostic;
  expandPackages : string → list string → Logged (list string);
  loadPackageManifest : string → Logged (option PackageManifest);
  getTsEntryPointForPackage : string → PackageManifest → Logged TsEntryPoint;
  converter_convert : list DocumentationEntrypoint → ProjectReflection;
  JSON_stringify : JSON → string → string;
}.

(** ** The application object *)

Record SerializeEventData := {
  outputDirectory : string;
  outputFile : string;
}.

(** Modelled from the spec: a serializer hook injects extra fields into the
    object emitted for a reflection; hooks are kept in registration order. *)
Record SerializerHook := {
  hook_kind : ReflectionKind;
  hook_fields : Reflection → list (string * JSON);
}.

Record Serializer := {
  preHooks : list SerializerHook;
  postHooks : list SerializerHook;
}.

Record Options := {
  opt_packages : list string;
  opt_emit : bool;
  opt_pretty : bool;
  opt_preserveWatchOutput : bool;
  opt_tsconfig : string;
  opt_compilerOptions : CompilerOptions;
  opt_fileNames : list string;
  opt_projectReferences : option (list ProjectReference);
}.

Record Application := {
  options : Options;
  exclude : list string;
  entryPoints : list string;
  loggerIsConsoleLogger : bool;
  serializer : Serializer;
}.

(** [flatMap] of [utils/array]. *)
Definition flatMap {A B} (arr : list A) (fn : A → list B) : list B :=
  flat_map fn arr.

(** [String.prototype.toLowerCase] on ASCII letters. *)
Definition toLowerCase_ascii (c : ascii) : ascii :=
  let n := nat_of_ascii c in
  if (65 <=? n)%nat && (n <=? 90)%nat then ascii_of_nat (n + 32) else c.

Fixpoint toLowerCase (s : string) : string :=
  match s with
  | EmptyString => EmptyString
  | String c rest => String (toLowerCase_ascii c) (toLowerCase rest)
  end.

(** The double-quote character of the message templates. *)
Definition dquote : string := String (ascii_of_nat 34) EmptyString.

Definition join_comma (l : list string) : string :=
  String.concat ", " l.

(** ** [application.ts] *)

Section Application.

Variable w : World.
Variable app : Application.

Definition options_getValue_packages : list string := opt_packages (options app).
Definition options_getCompilerOptions : CompilerOptions :=
  opt_compilerOptions (options app).
Definition options_getFileNames : list string := opt_fileNames (options app).
Definition options_getProjectReferences : option (list ProjectReference) :=
  opt_projectReferences (options app).

(** The log line both [convert] and [convertAndWatch] start with, and the
    version check that follows it. *)
Definition logVersion : Eff unit :=
  logger_verbose "Using TypeScript %s from %s"
    [ts_version w; typeScriptPath w] ;;
  when (negb (existsb (fun version => String.eqb version (ts_versionMajorMinor w))
                (supportedVersionMajorMinor w)))
    (logger_warn
       ("You are running with an unsupported TypeScript version! TypeDoc supports "
        +:+ join_comma (supportedVersionMajorMinor w))).

Definition noCompilerOptionsMessage : string :=
  "No compiler options set. This likely means that TypeDoc did not find your tsconfig.json. Generated documentation will probably be empty.".

(** The body of the [for] loop of [getEntrypointsForPackages]; [None] is
    the early [return;] of the source. *)
Fixpoint getEntrypointsForPackages_loop
    (expandedPackages : list string) (results : list DocumentationEntrypoint)
    : Eff (option (list DocumentationEntrypoint)) :=
  match expandedPackages with
  | [] => ret (Some results)
  | packagePath :: rest =>
      let packageJsonPath := Path_resolve w [packagePath; "package.json"] in
      let* packageJson := logged (loadPackageManifest w packageJsonPath) in
      match packageJson with
      | None =>
          logger_error ("Could not load package manifest " +:+ packageJsonPath) ;;
          ret None
      | Some packageJson =>
          let* packageEntryPoint :=
            logged (getTsEntryPointForPackage w packageJsonPath packageJson) in
          match packageEntryPoint with
          | EntryUndefined =>
              logger_error
                ("Could not determine TS entry point for package "
                 +:+ packageJsonPath) ;;
              ret None
          | IgnorePackage => getEntrypointsForPackages_loop rest results
          | EntryPath packageEntryPoint =>
              match ts_findConfigFile w packageEntryPoint None with
              | None =>
                  logger_error
                    ("Could not determine tsconfig.json for source file "
                     +:+ packageEntryPoint
                     +:+ " (it must be on an ancestor path)") ;;
                  ret None
              | Some tsconfigFile =>
                  let parsed := ts_getParsedCommandLineOfConfigFile w tsconfigFile in
                  let unrecoverable := snd parsed in
                  forEach (fun error => logger_diagnostic error ;; ret (@nil unit))
                    unrecoverable ;;
                  let fatalError := negb (length unrecoverable =? 0)%nat in
                  match fst parsed with
                  | None => ret None
                  | Some parsedCommandLine =>
                      logger_diagnostics (pcl_errors parsedCommandLine) ;;
                      if fatalError then ret None
                      else
                        let program := ts_createProgram w
                          {| cpo_rootNames := pcl_fileNames parsedCommandLine;
                             cpo_options := pcl_options parsedCommandLine;
                             cpo_projectReferences := None |} in
                        match getSourceFile program packageEntryPoint with
                        | None =>
                            logger_error
                              ("Entrypoint " +:+ dquote +:+ packageEntryPoint +:+ dquote
                               +:+ " does not appear to be built by the tsconfig found at "
                               +:+ dquote +:+ tsconfigFile +:+ dquote) ;;
                            ret None
                        | Some sourceFile =>
                            getEntrypointsForPackages_loop rest
                              (results ++
                               [ {| displayName := pm_name packageJson;
                                    path := packageEntryPoint;
                                    program := program;
                                    sourceFile := sourceFile |} ])
                        end
                  end
              end
          end
      end
  end.

Definition getEntrypointsForPackages (packageGlobPaths : list string)
    : Eff (option (list DocumentationEntrypoint)) :=
  let* expandedPackages := logged (expandPackages w "." packageGlobPaths) in
  getEntrypointsForPackages_loop expandedPackages [].

Definition getModuleName (fileName baseDir : string) : string :=
  replaceModuleSuffix w (normalizePath w (Path_relative w baseDir fileName)).

(** *** [expandInputFiles] *)

Definition isExcluded (fileName : string) : bool :=
  existsb (fun mm => minimatch_match w mm fileName) (exclude app).

Definition supportedFileRegex_test (file : string) : bool :=
  if truthy (co_allowJs options_getCompilerOptions)
     || truthy (co_checkJs options_getCompilerOptions)
  then test_tjs_regex file
  else test_ts_regex file.

Definition fileIsDir (stats : FsNode) : bool :=
  match stats with FsDir _ => true | _ => false end.

(** The inner function [add]; [stats] is what [FS.statSync(file)] finds and
    the result lists the pushes onto [files], in order. *)
Fixpoint add (stats : FsNode) (file : string) (entryPoint : bool) : list string :=
  match stats with
  | FsNoStat => []
  | _ =>
      let file :=
        if fileIsDir stats && negb (endsWith file "/") then file +:+ "/"
        else file in
      if negb entryPoint && isExcluded (normalizePath w file) then []
      else
        match stats with
        | FsDir entries =>
            flat_map
              (fun entry => add (snd entry) (Path_join w file (fst entry)) false)
              entries
        | _ =>
            if supportedFileRegex_test file then [normalizePath w file] else []
        end
  end.

Definition expandInputFiles (inputFiles : list string) : Eff (list string) :=
  forEach
    (fun file =>
       let resolved := Path_resolve w [file] in
       match FS_lookup w resolved with
       | None =>
           logger_warn
             ("Provided entry point " +:+ file
              +:+ " does not exist and will not be included in the docs.") ;;
           ret []
       | Some stats => ret (add stats resolved true)
       end)
    inputFiles.

(** *** [getEntrypointsForPaths] *)

(** The programs searched for an entry file: the root program and, for a
    solution-style tsconfig, one program per resolved project reference. *)
Definition referencePrograms (rootProgram : Program) : list Program :=
  flat_map
    (fun ref : option ResolvedProjectReference =>
       match ref with
       | None => []
       | Some ref =>
           [ ts_createProgram w
               {| cpo_options := pcl_options (rpr_commandLine ref);
                  cpo_rootNames := pcl_fileNames (rpr_commandLine ref);
                  cpo_projectReferences :=
                    pcl_projectReferences (rpr_commandLine ref) |} ]
       end)
    (default [] (resolvedProjectReferences rootProgram)).

Definition rootProgram : Program :=
  ts_createProgram w
    {| cpo_rootNames := options_getFileNames;
       cpo_options := options_getCompilerOptions;
       cpo_projectReferences := options_getProjectReferences |}.

Definition createPrograms : Eff (list Program) :=
  if (length (rootFileNames rootProgram) =? 0)%nat then
    logger_verbose
      "tsconfig appears to be a solution style tsconfig - creating programs for references"
      [] ;;
    ret (rootProgram :: referencePrograms rootProgram)
  else ret [rootProgram].

(** The inner loop over [programs], left by [continue entryLoop] at the
    first program that has the file. *)
Fixpoint entryLoop_programs (baseDir file : string) (programs : list Program)
    : Eff (list DocumentationEntrypoint) :=
  match programs with
  | [] => logger_warn ("Unable to locate entry point: " +:+ file) ;; ret []
  | program :: rest =>
      match getSourceFile program file with
      | Some sourceFile =>
          ret [ {| displayName := getModuleName (Path_resolve w [file]) baseDir;
                   path := file;
                   sourceFile := sourceFile;
                   program := program |} ]
      | None => entryLoop_programs baseDir file rest
      end
  end.

Definition getEntrypointsForPaths (entryPointPaths : list string)
    : Eff (list DocumentationEntrypoint) :=
  let* programs := createPrograms in
  let* inputFiles := expandInputFiles entryPointPaths in
  let baseDir := getCommonDirectory w inputFiles in
  forEach (fun file => entryLoop_programs baseDir file programs)
    (map (normalizePath w) inputFiles).

(** *** [convert] *)

Definition convert : Eff (option ProjectReflection) :=
  logVersion ;;
  when ((Object_keys_length options_getCompilerOptions =? 0)%nat
        && (length options_getValue_packages =? 0)%nat)
    (logger_warn noCompilerOptionsMessage) ;;
  let packages := map (normalizePath w) options_getValue_packages in
  let* entrypoints := getEntrypointsForPackages packages in
  match entrypoints with
  | None => ret None
  | Some entrypoints =>
      let* entrypoints :=
        (if (length entrypoints =? 0)%nat then
           let* more := getEntrypointsForPaths (entryPoints app) in
           ret (entrypoints ++ more)
         else ret entrypoints) in
      let programs := map program entrypoints in
      logger_verbose
        ("Converting with " +:+ pretty (length programs) +:+ " programs") [] ;;
      let errors := flatMap programs preEmitDiagnostics in
      if negb (length errors =? 0)%nat then
        logger_diagnostics errors ;;
        ret None
      else
        when (opt_emit (options app))
          (forEach (fun program => effect (ProgramEmit program) ;; ret (@nil unit))
             programs ;; ret tt) ;;
        effect (ConverterConvert entrypoints) ;;
        ret (Some (converter_convert w entrypoints))
  end.

(** *** [convertAndWatch]

    The closure variables of [convertAndWatch] form the watch state; the
    callbacks the TypeScript watch host invokes, and the settling of the
    promise returned by [success], are the events that step it. *)

Record WatchState := {
  successFinished : bool;
  currentProgram : option Program;
  firstStatusReport : bool;
}.

Definition runSuccess (tsconfigFile : string) (st : WatchState) : Eff WatchState :=
  match currentProgram st with
  | None => ret st
  | Some current =>
      if successFinished st then
        effect LogResetErrors ;;
        let* inputFiles := expandInputFiles (entryPoints app) in
        let baseDir := getCommonDirectory w inputFiles in
        let* entrypoints :=
          forEach
            (fun file =>
               match getSourceFile current file with
               | Some sourceFile =>
                   ret [ {| displayName :=
                              getModuleName (Path_resolve w [file]) baseDir;
                            path := file;
                            sourceFile := sourceFile;
                            program := current |} ]
               | None =>
                   logger_warn
                     ("Unable to locate entry point: " +:+ file
                      +:+ " within the program defined by " +:+ tsconfigFile) ;;
                   ret []
               end)
            (map (normalizePath w) inputFiles) in
        effect (ConverterConvert entrypoints) ;;
        let project := converter_convert w entrypoints in
        effect (SuccessCallback project) ;;
        ret {| successFinished := false;
               currentProgram := None;
               firstStatusReport := firstStatusReport st |}
      else ret st
  end.

(** [host.afterProgramCreate]. *)
Definition afterProgramCreate (tsconfigFile : string) (st : WatchState)
    (program : Program) : Eff WatchState :=
  let* st :=
    (if (length (preEmitDiagnostics program) =? 0)%nat then
       runSuccess tsconfigFile
         {| successFinished := successFinished st;
            currentProgram := Some program;
            firstStatusReport := firstStatusReport st |}
     else ret st) in
  effect (OrigAfterProgramCreate program) ;;
  ret st.

(** The continuation passed to [success(project).then]. *)
Definition successThen (tsconfigFile : string) (st : WatchState) : Eff WatchState :=
  runSuccess tsconfigFile
    {| successFinished := true;
       currentProgram := currentProgram st;
       firstStatusReport := firstStatusReport st |}.

(** The watch status reporter given to [ts.createWatchCompilerHost]. *)
Definition reportWatchStatus (st : WatchState) (statusText : string)
    (errorCount : option nat) : Eff WatchState :=
  when (negb (firstStatusReport st)
        && (if errorCount is None then true else false)
        && negb (opt_preserveWatchOutput (options app))
        && loggerIsConsoleLogger app)
    (effect ClearScreen) ;;
  logger_write statusText ;;
  ret {| successFinished := successFinished st;
         currentProgram := currentProgram st;
         firstStatusReport := false |}.

Inductive WatchEvent :=
| ProgramCreated (program : Program)
| SuccessSettled
| WatchStatus (statusText : string) (errorCount : option nat).

Definition watchStep (tsconfigFile : string) (st : WatchState) (ev : WatchEvent)
    : Eff WatchState :=
  match ev with
  | ProgramCreated program => afterProgramCreate tsconfigFile st program
  | SuccessSettled => successThen tsconfigFile st
  | WatchStatus statusText errorCount => reportWatchStatus st statusText errorCount
  end.

(** [convertAndWatch] up to and including [ts.createWatchProgram(host)]:
    [None] when it returns without creating the watch program, otherwise
    the tsconfig file watched and the initial closure state. *)
Definition convertAndWatch : Eff (option (string * WatchState)) :=
  when (negb (opt_preserveWatchOutput (options app)) && loggerIsConsoleLogger app)
    (effect ClearScreen) ;;
  logVersion ;;
  when (Object_keys_length options_getCompilerOptions =? 0)%nat
    (logger_warn noCompilerOptionsMessage) ;;
  if (length options_getFileNames =? 0)%nat then
    logger_error
      "The provided tsconfig file looks like a solution style tsconfig, which is not supported in watch mode." ;;
    ret None
  else if negb (length options_getValue_packages =? 0)%nat then
    logger_error
      ("Running with " +:+ dquote +:+ "--packages" +:+ dquote
       +:+ " is not supported in watch mode.") ;;
    ret None
  else
    let tsconfigFile := opt_tsconfig (options app) in
    let tsconfigFile :=
      default "tsconfig.json"
        (ts_findConfigFile w tsconfigFile
           (if endsWith (toLowerCase tsconfigFile) ".json"
            then Some (Path_basename w tsconfigFile) else None)) in
    effect (CreateWatchProgram tsconfigFile (negb (opt_emit (options app)))) ;;
    ret (Some (tsconfigFile,
               {| successFinished := true;
                  currentProgram := None;
                  firstStatusReport := true |})).

End Application.

(** The events a watch host delivers, each in the world as it is when the
    event is handled (the file system may have changed in between). *)
Fixpoint watchRun (app : Application) (tsconfigFile : string) (st : WatchState)
    (events : list (World * WatchEvent)) : Eff WatchState :=
  match events with
  | [] => ret st
  | (w, ev) :: rest =>
      let* st := watchStep w app tsconfigFile st ev in
      watchRun app tsconfigFile st rest
  end.

(** A whole watch session: [convertAndWatch] in world [w0], then the events
    of the host if the watch program was created. *)
Definition watchSession (w0 : World) (app : Application)
    (events : list (World * WatchEvent)) : Eff (option WatchState) :=
  let* started := convertAndWatch w0 app in
  match started with
  | None => ret None
  | Some (tsconfigFile, st) =>
      let* st := watchRun app tsconfigFile st events in
      ret (Some st)
  end.

(** The entry points handed to the converter during a computation, one
    list per call of [converter.convert]. *)
Definition conversions (trace : list Effect) : list (list DocumentationEntrypoint) :=
  flat_map (fun e => if e is ConverterConvert eps then [eps] else []) trace.

(** The projects handed to the [success] callback. *)
Definition successCalls (trace : list Effect) : list ProjectReflection :=
  flat_map (fun e => if e is SuccessCallback p then [p] else []) trace.

(** The warnings logged. *)
Definition warnings (trace : list Effect) : list string :=
  flat_map (fun e => if e is Log LWarn msg _ then [msg] else []) trace.

(** ** The Converter (spec, sections 4.1 and 4.2) *)

Module ConverterModel.

(** Field updates on a reflection. *)
Definition withOwned (children signatures : list Reflection) (r : Reflection)
    : Reflection :=
  {| r_id := r_id r; r_name := r_name r; r_kind := r_kind r;
     r_flags := r_flags r; r_comment := r_comment r; r_sources := r_sources r;
     r_children := children; r_signatures := signatures;
     r_extendedBy := r_extendedBy r; r_implementedBy := r_implementedBy r;
     r_inheritedFrom := r_inheritedFrom r; r_target := r_target r |}.

Definition withDocs (flags : list ReflectionFlag) (comment : option Comment)
    (sources : list SourceLocation) (r : Reflection) : Reflection :=
  {| r_id := r_id r; r_name := r_name r; r_kind := r_kind r;
     r_flags := flags; r_comment := comment; r_sources := sources;
     r_children := r_children r; r_signatures := r_signatures r;
     r_extendedBy := r_extendedBy r; r_implementedBy := r_implementedBy r;
     r_inheritedFrom := r_inheritedFrom r; r_target := r_target r |}.

Definition newReflection (id : nat) (name : string) (kind : ReflectionKind)
    (flags : list ReflectionFlag) (comment : option Comment)
    (sources : list SourceLocation) (target : option nat) : Reflection :=
  {| r_id := id; r_name := name; r_kind := kind;
     r_flags := flags; r_comment := comment; r_sources := sources;
     r_children := []; r_signatures := [];
     r_extendedBy := []; r_implementedBy := [];
     r_inheritedFrom := None; r_target := target |}.

(** Modelled from the spec: the reflection with id [target] is replaced by
    [f] of it, wherever the ownership tree holds it. *)
Fixpoint updateReflection (target : nat) (f : Reflection → Reflection)
    (r : Reflection) : Reflection :=
  let r' :=
    withOwned (map (updateReflection target f) (r_children r))
              (map (updateReflection target f) (r_signatures r)) r in
  if (r_id r =? target)%nat then f r' else r'.

Definition appendChild (child : Reflection) (r : Reflection) : Reflection :=
  withOwned (r_children r ++ [child]) (r_signatures r) r.

Definition appendSignature (sig : Reflection) (r : Reflection) : Reflection :=
  withOwned (r_children r) (r_signatures r ++ [sig]) r.

(** Modelled from the spec: the traversal scope (section 4.1), as far as
    the traversal reads it: the active containing reflection and the active
    module.  [withScope] derives a new value. *)
Record Context := {
  ctx_scope : nat;
  ctx_module : nat;
}.

Definition withScope (scope : nat) (ctx : Context) : Context :=
  {| ctx_scope := scope; ctx_module := ctx_module ctx |}.

(** Modelled from the spec: allocation takes the next id of the project's
    monotonic counter and places the new reflection with [place] at the
    reflection [owner]. *)
Definition allocate (owner : nat) (place : Reflection → Reflection → Reflection)
    (make : nat → Reflection) (p : ProjectReflection) : nat * ProjectReflection :=
  let id := project_nextId p in
  (id,
   {| project_root := updateReflection owner (place (make id)) (project_root p);
      project_symbols := project_symbols p;
      project_nextId := S id |}).

Definition registerSymbol (s : Symbol) (id : nat) (p : ProjectReflection)
    : ProjectReflection :=
  {| project_root := project_root p;
     project_symbols := <[s := id]> (project_symbols p);
     project_nextId := project_nextId p |}.

(** Modelled from the spec: a callable declaration contributes one
    SignatureReflection, owned by the declaration's reflection. *)
Definition addSignature (owner : nat) (d : Declaration) (p : ProjectReflection)
    : ProjectReflection :=
  match d_signature d with
  | None => p
  | Some text =>
      snd (allocate owner appendSignature
             (fun id => newReflection id text KSignature [] None [d_source d] None)
             p)
  end.

Definition mergeComment (old new : option Comment) : option Comment :=
  match old, new with
  | Some a, Some b =>
      Some {| cm_summary := cm_summary a ++ cm_summary b;
              cm_tags := cm_tags a ++ cm_tags b |}
  | Some a, None => Some a
  | None, c => c
  end.

Definition mergeFlags (old new : list ReflectionFlag) : list ReflectionFlag :=
  old ++ List.filter (fun f => negb (bool_decide (f ∈ old))) new.

(** Modelled from the spec: a further declaration of a symbol that already
    has a reflection grows that reflection (comment, flags, location and one
    more signature) and allocates no duplicate. *)
Definition grow (existing : nat) (d : Declaration) (p : ProjectReflection)
    : ProjectReflection :=
  addSignature existing d
    {| project_root :=
         updateReflection existing
           (fun r => withDocs (mergeFlags (r_flags r) (d_flags d))
                       (mergeComment (r_comment r) (d_comment d))
                       (r_sources r ++ [d_source d]) r)
           (project_root p);
       project_symbols := project_symbols p;
       project_nextId := project_nextId p |}.

(** Modelled from the spec: conversion of one declaration, depth first.
    Excluded and ignored declarations are skipped; a re-export becomes a
    Reference reflection pointing at the original's id and is not descended
    into; a symbol seen before grows its reflection; any other declaration
    is allocated a fresh id, appended to the children of the current scope,
    and its members are converted in source order in a derived scope. *)
Fixpoint convertDeclaration (ctx : Context) (d : Declaration)
    (p : ProjectReflection) : ProjectReflection :=
  if d_excluded d || d_ignoreTag d then p
  else
    match d_reexportOf d with
    | Some original =>
        snd (allocate (ctx_scope ctx) appendChild
               (fun id => newReflection id (d_name d) KReference (d_flags d)
                            (d_comment d) [d_source d]
                            (project_symbols p !! original))
               p)
    | None =>
        match project_symbols p !! d_symbol d with
        | Some existing =>
            fold_left
              (fun p member => convertDeclaration (withScope existing ctx) member p)
              (d_members d) (grow existing d p)
        | None =>
            let allocated :=
              allocate (ctx_scope ctx) appendChild
                (fun id => newReflection id (d_name d) (d_kind d) (d_flags d)
                             (d_comment d) [d_source d] None)
                p in
            let id := fst allocated in
            fold_left
              (fun p member => convertDeclaration (withScope id ctx) member p)
              (d_members d)
              (addSignature id d (registerSymbol (d_symbol d) id (snd allocated)))
        end
    end.

Definition emptyProject : ProjectReflection :=
  {| project_root := newReflection 0 "project" KProject [] None [] None;
     project_symbols := ∅;
     project_nextId := 1 |}.

(** Modelled from the spec: one entry point at a time; each gets a Module
    reflection named by its display name, under which its declarations are
    converted. *)
Definition convertEntrypoint (p : ProjectReflection) (ep : DocumentationEntrypoint)
    : ProjectReflection :=
  let allocated :=
    allocate (r_id (project_root p)) appendChild
      (fun id => newReflection id (displayName ep) KModule [] None [] None) p in
  let moduleId := fst allocated in
  fold_left
    (fun p d =>
       convertDeclaration {| ctx_scope := moduleId; ctx_module := moduleId |} d p)
    (sf_declarations (sourceFile ep)) (snd allocated).

(** Modelled from the spec: [Converter.convert], which populates a new
    ProjectReflection from the entry points.  The resolution post-pass and
    the notifications to subscribers are not part of this model. *)
Definition convert (entrypoints : list DocumentationEntrypoint) : ProjectReflection :=
  fold_left convertEntrypoint entrypoints emptyProject.

(** Run-local symbol identities replaced along [rho]. *)
Fixpoint renameDeclaration (rho : Symbol → Symbol) (d : Declaration) : Declaration :=
  {| d_symbol := rho (d_symbol d); d_name := d_name d; d_kind := d_kind d;
     d_flags := d_flags d; d_excluded := d_excluded d;
     d_ignoreTag := d_ignoreTag d; d_comment := d_comment d;
     d_source := d_source d; d_signature := d_signature d;
     d_reexportOf := rho <$> d_reexportOf d;
     d_members := map (renameDeclaration rho) (d_members d) |}.

(** Two entry points carry the same provider input when they have the same
    display name and the same declarations, symbol identities apart. *)
Definition sameInput (rho : Symbol → Symbol) (a b : DocumentationEntrypoint) : Prop :=
  displayName b = displayName a ∧
  sf_declarations (sourceFile b)
  = map (renameDeclaration rho) (sf_declarations (sourceFile a)).

(** The ids of a graph in depth-first order, children before signatures. *)
Fixpoint reflectionIds (r : Reflection) : list nat :=
  r_id r :: flat_map reflectionIds (r_children r)
         ++ flat_map reflectionIds (r_signatures r).

End ConverterModel.

(** ** The Serializer (spec, sections 4.6 and 6) *)

Module SerializerModel.

Definition kindName (k : ReflectionKind) : string :=
  match k with
  | KProject => "Project" | KModule => "Module" | KNamespace => "Namespace"
  | KClass => "Class" | KInterface => "Interface" | KTypeAlias => "TypeAlias"
  | KEnum => "Enum" | KEnumMember => "EnumMember" | KVariable => "Variable"
  | KFunction => "Function" | KMethod => "Method" | KProperty => "Property"
  | KAccessor => "Accessor" | KConstructor => "Constructor"
  | KTypeParameter => "TypeParameter" | KParameter => "Parameter"
  | KSignature => "Signature" | KReference => "Reference"
  end.

Definition flagName (f : ReflectionFlag) : string :=
  match f with
  | FPrivate => "private" | FStatic => "static" | FAbstract => "abstract"
  | FOptional => "optional" | FReadonly => "readonly" | FExternal => "external"
  end.

Definition commentToObject (c : Comment) : JSON :=
  JObject
    [ ("summary", JArray (map JString (cm_summary c)));
      ("tags",
       JArray (map (fun tag => JObject [ ("tag", JString (fst tag));
                                         ("content", JString (snd tag)) ])
                 (cm_tags c))) ].

Definition sourceToObject (s : SourceLocation) : JSON :=
  JObject [ ("file", JString (src_file s));
            ("line", JNumber (src_line s));
            ("column", JNumber (src_column s)) ].

(** A field that is present only when its list is not empty. *)
Definition optionalList (name : string) (items : list JSON) : list (string * JSON) :=
  match items with
  | [] => []
  | _ => [ (name, JArray items) ]
  end.

Definition optionalId (name : string) (id : option nat) : list (string * JSON) :=
  match id with
  | None => []
  | Some id => [ (name, JNumber id) ]
  end.

(** The fields the hooks registered for the reflection's kind inject, in
    registration order. *)
Definition hookFields (hooks : list SerializerHook) (r : Reflection)
    : list (string * JSON) :=
  flat_map
    (fun h => if bool_decide (hook_kind h = r_kind r) then hook_fields h r else [])
    hooks.

(** Modelled from the spec: the object emitted for a reflection.  Owned
    relations nest the objects of the owned reflections; non-owning
    relations are bare numeric ids and are not descended into. *)
Fixpoint toObject (s : Serializer) (r : Reflection) : JSON :=
  JObject
    (hookFields (preHooks s) r
     ++ [ ("id", JNumber (r_id r));
          ("name", JString (r_name r));
          ("kind", JString (kindName (r_kind r)));
          ("flags", JObject (map (fun f => (flagName f, JBool true)) (r_flags r))) ]
     ++ (if r_comment r is Some c then [ ("comment", commentToObject c) ] else [])
     ++ optionalList "sources" (map sourceToObject (r_sources r))
     ++ [ ("children", JArray (map (toObject s) (r_children r))) ]
     ++ optionalList "signatures" (map (toObject s) (r_signatures r))
     ++ optionalList "extendedBy" (map JNumber (r_extendedBy r))
     ++ optionalList "implementedBy" (map JNumber (r_implementedBy r))
     ++ optionalId "inheritedFrom" (r_inheritedFrom r)
     ++ optionalId "target" (r_target r)
     ++ hookFields (postHooks s) r).

End SerializerModel.

Inductive SerializerEvent :=
| SerializeBegin (data : SerializeEventData)
| SerializeEnd (data : SerializeEventData).

(** Modelled from the spec: [Serializer.projectToObject], which emits the
    object of the project's root reflection; the begin and end data are
    what it announces before and after. *)
Definition projectToObject (s : Serializer) (project : ProjectReflection)
    (begin_ end_ : SerializeEventData) : JSON * list SerializerEvent :=
  (SerializerModel.toObject s (project_root project),
   [SerializeBegin begin_; SerializeEnd end_]).

(** ** [generateJson] *)

Definition tab : string := String (ascii_of_nat 9) EmptyString.

Definition generateJson (w : World) (app : Application)
    (project : ProjectReflection) (out : string) : Eff unit :=
  let out := Path_resolve w [out] in
  let eventData :=
    {| outputDirectory := Path_dirname w out;
       outputFile := Path_basename w out |} in
  let ser := fst (projectToObject (serializer app) project eventData eventData) in
  let space := if opt_pretty (options app) then tab else EmptyString in
  effect (EnsureDirectoriesExist (Path_dirname w out)) ;;
  effect (WriteFile out (JSON_stringify w ser space)) ;;
  logger_success "JSON written to %s" [out].

(** The texts written to files during a computation. *)
Definition writtenData (trace : list Effect) : list string :=
  flat_map (fun e => if e is WriteFile _ data then [data] else []) trace.

(** ** Auxiliary definitions used in the statements *)

(** The entry points [convert] collects before it looks at diagnostics:
    those of the packages, or, when there are none, those of the
    file-oriented entry points. *)
Definition collectEntrypoints (w : World) (app : Application)
    : Eff (option (list DocumentationEntrypoint)) :=
  let* entrypoints :=
    getEntrypointsForPackages w
      (map (normalizePath w) (options_getValue_packages app)) in
  match entrypoints with
  | None => ret None
  | Some entrypoints =>
      if (length entrypoints =? 0)%nat then
        let* more := getEntrypointsForPaths w app (entryPoints app) in
        ret (Some (entrypoints ++ more))
      else ret (Some entrypoints)
  end.

(** What [convert] does once the entry points are collected. *)
Definition convertFrom (w : World) (app : Application)
    (entrypoints : list DocumentationEntrypoint) : Eff (option ProjectReflection) :=
  let programs := map program entrypoints in
  logger_verbose
    ("Converting with " +:+ pretty (length programs) +:+ " programs") [] ;;
  let errors := flatMap programs preEmitDiagnostics in
  if negb (length errors =? 0)%nat then
    logger_diagnostics errors ;;
    ret None
  else
    when (opt_emit (options app))
      (forEach (fun program => effect (ProgramEmit program) ;; ret (@nil unit))
         programs ;; ret tt) ;;
    effect (ConverterConvert entrypoints) ;;
    ret (Some (converter_convert w entrypoints)).

(** The entry points [runSuccess] computes for the program [current]. *)
Definition watchEntrypoints (w : World) (app : Application) (tsconfigFile : string)
    (current : Program) : Eff (list DocumentationEntrypoint) :=
  let* inputFiles := expandInputFiles w app (entryPoints app) in
  let baseDir := getCommonDirectory w inputFiles in
  forEach
    (fun file =>
       match getSourceFile current file with
       | Some sourceFile =>
           ret [ {| displayName := getModuleName w (Path_resolve w [file]) baseDir;
                    path := file;
                    sourceFile := sourceFile;
                    program := current |} ]
       | None =>
           logger_warn
             ("Unable to locate entry point: " +:+ file
              +:+ " within the program defined by " +:+ tsconfigFile) ;;
           ret []
       end)
    (map (normalizePath w) inputFiles).

Definition hasDiagnostics (p : Program) : bool :=
  negb (length (preEmitDiagnostics p) =? 0)%nat.

(** The program stored in [currentProgram] after the host has created the
    programs of [events] while no conversion could start. *)
Fixpoint latestProgram (stored : option Program) (events : list (World * WatchEvent))
    : option Program :=
  match events with
  | [] => stored
  | (_, ProgramCreated p) :: rest =>
      latestProgram (if hasDiagnostics p then stored else Some p) rest
  | _ :: rest => latestProgram stored rest
  end.

Definition isSuccessSettled (ev : WatchEvent) : bool :=
  if ev is SuccessSettled then true else false.

(** Whether an input path exists, what it expands to, and whether some
    program of a list contains a file. *)
Definition pathExists (w : World) (file : string) : bool :=
  if FS_lookup w (Path_resolve w [file]) is Some _ then true else false.

Definition expansionOf (w : World) (app : Application) (file : string) : list string :=
  match FS_lookup w (Path_resolve w [file]) with
  | Some stats => add w app stats (Path_resolve w [file]) true
  | None => []
  end.

Definition containsFile (file : string) (p : Program) : bool :=
  if getSourceFile p file is Some _ then true else false.

Definition locatedIn (programs : list Program) (file : string) : bool :=
  existsb (containsFile file) programs.

Definition notExistWarning (file : string) : string :=
  "Provided entry point " +:+ file
  +:+ " does not exist and will not be included in the docs.".

Definition unableToLocateWarning (file : string) : string :=
  "Unable to locate entry point: " +:+ file.

(** Whether [getEntrypointsForPackages] can locate the entry point of the
    package at [packagePath] (an ignored package has none to locate). *)
Definition packageLocatable (w : World) (packagePath : string) : bool :=
  let packageJsonPath := Path_resolve w [packagePath; "package.json"] in
  match fst (loadPackageManifest w packageJsonPath) with
  | None => false
  | Some packageJson =>
      match fst (getTsEntryPointForPackage w packageJsonPath packageJson) with
      | EntryUndefined => false
      | IgnorePackage => true
      | EntryPath packageEntryPoint =>
          match ts_findConfigFile w packageEntryPoint None with
          | None => false
          | Some tsconfigFile =>
              match ts_getParsedCommandLineOfConfigFile w tsconfigFile with
              | (Some parsedCommandLine, []) =>
                  containsFile packageEntryPoint
                    (ts_createProgram w
                       {| cpo_rootNames := pcl_fileNames parsedCommandLine;
                          cpo_options := pcl_options parsedCommandLine;
                          cpo_projectReferences := None |})
              | _ => false
              end
          end
      end
  end.

(** An effect that is a log entry. *)
Definition isLog (e : Effect) : Prop :=
  match e with
  | Log _ _ _ | LogDiagnostic _ | LogDiagnostics _ => True
  | _ => False
  end.

(** A computation that does nothing but log. *)
Definition onlyLogs {A} (m : Eff A) : Prop := Forall isLog (snd m).

(** The stored current program, if any, has no pre-emit diagnostics. *)
Definition cleanState (st : WatchState) : Prop :=
  ∀ p, currentProgram st = Some p → preEmitDiagnostics p = [].

(** Every entry point converted during a computation belongs to a program
    without pre-emit diagnostics. *)
Definition cleanConversions (trace : list Effect) : Prop :=
  Forall (Forall (fun ep => preEmitDiagnostics (program ep) = [])) (conversions trace).

(** What [convert] logs before it collects the entry points. *)
Definition convertPrefix (w : World) (app : Application) : Eff unit :=
  logVersion w ;;
  when ((Object_keys_length (options_getCompilerOptions app) =? 0)%nat
        && (length (options_getValue_packages app) =? 0)%nat)
    (logger_warn noCompilerOptionsMessage).

(** The closure state [runSuccess] leaves after it has started a conversion. *)
Definition rebuilt (st : WatchState) : WatchState :=
  {| successFinished := false;
     currentProgram := None;
     firstStatusReport := firstStatusReport st |}.

(** The effects of one conversion started by [runSuccess] for [current]. *)
Definition rebuildTrace (w : World) (app : Application) (tsconfigFile : string)
    (current : Program) : list Effect :=
  [LogResetErrors]
  ++ snd (watchEntrypoints w app tsconfigFile current)
  ++ [ ConverterConvert (fst (watchEntrypoints w app tsconfigFile current));
       SuccessCallback
         (converter_convert w (fst (watchEntrypoints w app tsconfigFile current))) ].

(** The tsconfig files of the watch programs created during a computation. *)
Definition watchProgramsCreated (trace : list Effect) : list string :=
  flat_map (fun e => if e is CreateWatchProgram file _ then [file] else []) trace.

(** The effect, if any, is an error message. *)
Definition isErrorLog (e : option Effect) : bool :=
  if e is Some (Log LError _ []) then true else false.

(** Two projects with the same graph and id counter whose symbol indexes
    agree along [rho]. *)
Definition related (rho : Symbol → Symbol) (p1 p2 : ProjectReflection) : Prop :=
  project_root p2 = project_root p1
  ∧ project_nextId p2 = project_nextId p1
  ∧ project_symbols p2 = kmap rho (project_symbols p1).

(** ** A concrete project, used to instantiate the statements *)

Module Sample.

(** A JSON printer in the manner of [JSON.stringify(value, null, space)].
    A string is quoted as [JSON.stringify] quotes it: the double quote and
    the backslash are escaped with a backslash, the control characters
    below the space are written as their two-character escapes or as
    [\u00xx], and every other character stands for itself. *)
Definition backslash : string := String (ascii_of_nat 92) EmptyString.

Definition hexDigit (n : nat) : string :=
  String.substring n 1 "0123456789abcdef".

Definition escapeChar (c : ascii) : string :=
  let code := nat_of_ascii c in
  if (code =? 34)%nat then backslash +:+ dquote
  else if (code =? 92)%nat then backslash +:+ backslash
  else if (code =? 8)%nat then backslash +:+ "b"
  else if (code =? 12)%nat then backslash +:+ "f"
  else if (code =? 10)%nat then backslash +:+ "n"
  else if (code =? 13)%nat then backslash +:+ "r"
  else if (code =? 9)%nat then backslash +:+ "t"
  else if (code <? 32)%nat
       then backslash +:+ "u00" +:+ hexDigit (code / 16) +:+ hexDigit (code mod 16)
  else String c EmptyString.

Fixpoint escapeString (s : string) : string :=
  match s with
  | EmptyString => EmptyString
  | String c rest => escapeChar c +:+ escapeString rest
  end.

Definition quoteString (s : string) : string :=
  dquote +:+ escapeString s +:+ dquote.

Definition newline : string := String (ascii_of_nat 10) EmptyString.

Fixpoint stringify (indent space : string) (v : JSON) : string :=
  let inner := indent +:+ space in
  let separator :=
    if String.eqb space EmptyString then "," else "," +:+ newline +:+ inner in
  let wrap (opening closing : string) (items : list string) : string :=
    match items with
    | [] => opening +:+ closing
    | _ =>
        if String.eqb space EmptyString
        then opening +:+ String.concat separator items +:+ closing
        else opening +:+ newline +:+ inner +:+ String.concat separator items
             +:+ newline +:+ indent +:+ closing
    end in
  match v with
  | JNull => "null"
  | JBool true => "true"
  | JBool false => "false"
  | JNumber n => pretty n
  | JString s => quoteString s
  | JArray items => wrap "[" "]" (map (stringify inner space) items)
  | JObject fields =>
      wrap "{" "}"
        (map (fun field =>
                quoteString (fst field)
                +:+ (if String.eqb space EmptyString then ":" else ": ")
                +:+ stringify inner space (snd field))
           fields)
  end.

Definition startsWith (s prefix_ : string) : bool :=
  String.eqb (String.substring 0 (String.length prefix_) s) prefix_.

Definition resolve1 (file : string) : string :=
  if startsWith file "/" then file else "/proj/" +:+ file.

Definition srcDir : FsNode :=
  FsDir [ ("a.ts", FsFile); ("b.ts", FsFile); ("notes.md", FsFile);
          ("gen", FsDir [ ("c.ts", FsFile) ]) ].

Definition lookup (file : string) : option FsNode :=
  if String.eqb file "/proj/src" then Some srcDir
  else if String.eqb file "/proj/src/a.ts" then Some FsFile
  else if String.eqb file "/proj/src/b.ts" then Some FsFile
  else if String.eqb file "/proj/gen.ts" then Some FsFile
  else if String.eqb file "/proj/broken.ts" then Some FsFile
  else None.

Definition here : SourceLocation :=
  {| src_file := "a.ts"; src_line := 1; src_column := 0 |}.

Definition declaration (symbol : Symbol) (name : string) (kind : ReflectionKind)
    (signature : option string) (members : list Declaration) : Declaration :=
  {| d_symbol := symbol; d_name := name; d_kind := kind; d_flags := [];
     d_excluded := false; d_ignoreTag := false; d_comment := None;
     d_source := here; d_signature := signature; d_reexportOf := None;
     d_members := members |}.

(** [interface Shape { area(): number }], two overloads of [scale], and a
    re-export of [Shape]. *)
Definition declarations : list Declaration :=
  [ declaration 1%positive "Shape" KInterface None
      [ declaration 2%positive "area" KMethod (Some "area(): number") [] ];
    declaration 3%positive "scale" KFunction (Some "scale(x: number): number") [];
    declaration 3%positive "scale" KFunction (Some "scale(x: string): string") [];
    {| d_symbol := 4%positive; d_name := "Figure"; d_kind := KReference; d_flags := [];
       d_excluded := false; d_ignoreTag := false; d_comment := None;
       d_source := here; d_signature := None; d_reexportOf := Some 1%positive;
       d_members := [] |} ].

Definition sourceFileOf (file : string) : SourceFile :=
  {| sf_fileName := file; sf_declarations := declarations |}.

Definition createProgram (o : CreateProgramOptions) : Program :=
  {| rootFileNames := cpo_rootNames o;
     sourceFiles :=
       list_to_map (map (fun f => (f, sourceFileOf f)) (cpo_rootNames o));
     preEmitDiagnostics :=
       if existsb (String.eqb "/proj/broken.ts") (cpo_rootNames o)
       then ["TS2322: Type 'string' is not assignable to type 'number'."]
       else [];
     resolvedProjectReferences := None |}.

Definition noOptions : CompilerOptions :=
  {| co_allowJs := None; co_checkJs := None; co_others := ["target"] |}.

Definition world : World :=
  {| Path_resolve := fun parts =>
       match parts with
       | [file] => resolve1 file
       | [dir; file] => resolve1 dir +:+ "/" +:+ file
       | _ => "/proj"
       end;
     Path_relative := fun _ file => file;
     Path_dirname := fun _ => "/proj/docs";
     Path_basename := fun _ => "out.json";
     Path_join := fun dir file => dir +:+ file;
     normalizePath := fun file => file;
     getCommonDirectory := fun _ => "/proj";
     replaceModuleSuffix := fun name => name;
     FS_lookup := lookup;
     minimatch_match := fun pattern file => endsWith file pattern;
     ts_version := "4.2.3";
     ts_versionMajorMinor := "4.2";
     typeScriptPath := "/proj/node_modules/typescript/lib";
     supportedVersionMajorMinor := ["4.0"; "4.1"; "4.2"];
     ts_createProgram := createProgram;
     ts_findConfigFile := fun _ _ => Some "/proj/tsconfig.json";
     ts_getParsedCommandLineOfConfigFile := fun _ =>
       (Some {| pcl_options := noOptions; pcl_fileNames := ["/proj/src/a.ts"];
                pcl_projectReferences := None; pcl_errors := [] |}, []);
     expandPackages := fun _ globs => (globs, []);
     loadPackageManifest := fun _ => (Some {| pm_name := "pkg" |}, []);
     getTsEntryPointForPackage := fun _ _ => (EntryPath "/proj/pkg/index.ts", []);
     converter_convert := ConverterModel.convert;
     JSON_stringify := fun value space => stringify EmptyString space value |}.

Definition appWith (packages fileNames entries excludes : list string) : Application :=
  {| options :=
       {| opt_packages := packages; opt_emit := false; opt_pretty := false;
          opt_preserveWatchOutput := false; opt_tsconfig := "tsconfig.json";
          opt_compilerOptions := noOptions; opt_fileNames := fileNames;
          opt_projectReferences := None |};
     exclude := excludes;
     entryPoints := entries;
     loggerIsConsoleLogger := true;
     serializer := {| preHooks := []; postHooks := [] |} |}.

Definition files : list string := ["/proj/src/a.ts"; "/proj/src/b.ts"].

(** Entry points [missing.ts] (does not exist), [src/a.ts] and [src/b.ts]. *)
Definition app : Application :=
  appWith [] files ["missing.ts"; "src/a.ts"; "src/b.ts"] [].

(** The only entry point does not exist. *)
Definition appMissing : Application := appWith [] files ["missing.ts"] [].

(** The program has a semantic error. *)
Definition appBroken : Application :=
  appWith [] ["/proj/src/a.ts"; "/proj/broken.ts"] ["src/a.ts"] [].

(** A package whose entry point the program of its tsconfig does not build. *)
Definition appPackages : Application := appWith ["pkg"] files [] [].

(** The entry point is a directory that matches an exclude pattern. *)
Definition appExcluded : Application :=
  appWith [] files ["src"] ["src/"; "gen/"; "b.ts"].

Definition goodProgram : Program :=
  createProgram {| cpo_rootNames := files; cpo_options := noOptions;
                   cpo_projectReferences := None |}.

Definition brokenProgram : Program :=
  createProgram {| cpo_rootNames := ["/proj/broken.ts"]; cpo_options := noOptions;
                   cpo_projectReferences := None |}.

(** The symbol identities of another run. *)
Definition otherRun (s : Symbol) : Symbol := (s + 100)%positive.

Definition entrypoint : DocumentationEntrypoint :=
  {| displayName := "a"; path := "/proj/src/a.ts"; program := goodProgram;
     sourceFile := sourceFileOf "/proj/src/a.ts" |}.

Definition entrypointOtherRun : DocumentationEntrypoint :=
  {| displayName := "a"; path := "/proj/src/a.ts"; program := goodProgram;
     sourceFile :=
       {| sf_fileName := "/proj/src/a.ts";
          sf_declarations :=
            map (ConverterModel.renameDeclaration otherRun) declarations |} |}.

End Sample.


(** The entry point [getEntrypointsForPaths] is expected to build for
    [file]: at most one, in the first program that contains the file. *)
Definition entrypointFor (w : World) (baseDir : string) (programs : list Program)
    (file : string) : list DocumentationEntrypoint :=
  match List.find (containsFile file) programs with
  | Some p =>
      match getSourceFile p file with
      | Some sf =>
          [ {| displayName := getModuleName w (Path_resolve w [file]) baseDir;
               path := file;
               sourceFile := sf;
               program := p |} ]
      | None => []
      end
  | None => []
  end.

(** The path an entry or a discovered file has when the exclude patterns
    are consulted: directories get a trailing slash. *)
Definition withTrailingSlash (stats : FsNode) (file : string) : string :=
  if fileIsDir stats && negb (endsWith file "/") then file +:+ "/" else file.

(** ** Auxiliary definitions for the further properties *)

(** What one package contributes to [getEntrypointsForPackages]: [None]
    when the loop returns early at it, no entry point when the package is
    ignored, and otherwise the entry point pushed onto [results]. *)
Definition packageEntrypoints (w : World) (packagePath : string)
    : option (list DocumentationEntrypoint) :=
  let packageJsonPath := Path_resolve w [packagePath; "package.json"] in
  match fst (loadPackageManifest w packageJsonPath) with
  | None => None
  | Some packageJson =>
      match fst (getTsEntryPointForPackage w packageJsonPath packageJson) with
      | EntryUndefined => None
      | IgnorePackage => Some []
      | EntryPath packageEntryPoint =>
          match ts_findConfigFile w packageEntryPoint None with
          | None => None
          | Some tsconfigFile =>
              match ts_getParsedCommandLineOfConfigFile w tsconfigFile with
              | (Some parsedCommandLine, []) =>
                  let program :=
                    ts_createProgram w
                      {| cpo_rootNames := pcl_fileNames parsedCommandLine;
                         cpo_options := pcl_options parsedCommandLine;
                         cpo_projectReferences := None |} in
                  match getSourceFile program packageEntryPoint with
                  | Some sourceFile =>
                      Some [ {| displayName := pm_name packageJson;
                                path := packageEntryPoint;
                                program := program;
                                sourceFile := sourceFile |} ]
                  | None => None
                  end
              | _ => None
              end
          end
      end
  end.

(** The entry points of a list of packages: all of them, in order, or
    nothing as soon as one package fails. *)
Fixpoint packagesEntrypoints (w : World) (expandedPackages : list string)
    : option (list DocumentationEntrypoint) :=
  match expandedPackages with
  | [] => Some []
  | packagePath :: rest =>
      match packageEntrypoints w packagePath with
      | None => None
      | Some eps =>
          match packagesEntrypoints w rest with
          | None => None
          | Some more => Some (eps ++ more)
          end
      end
  end.

(** The programs emitted during a computation, one per call of
    [program.emit]. *)
Definition programEmits (trace : list Effect) : list Program :=
  flat_map (fun e => if e is ProgramEmit p then [p] else []) trace.

(** The calls of [ts.sys.clearScreen] and of [logger.resetErrors] during a
    computation. *)
Definition clearScreens (trace : list Effect) : nat :=
  length (List.filter (fun e => if e is ClearScreen then true else false) trace).

Definition errorResets (trace : list Effect) : nat :=
  length (List.filter (fun e => if e is LogResetErrors then true else false) trace).

(** The status texts written with [logger.write]. *)
Definition statusWrites (trace : list Effect) : list string :=
  flat_map (fun e => if e is Log LWrite msg _ then [msg] else []) trace.

(** How many of the events are the settling of a [success] callback. *)
Definition settles (events : list (World * WatchEvent)) : nat :=
  length (List.filter (fun e => isSuccessSettled (snd e)) events).

(** An entry point whose source file is the one its program holds at its
    path. *)
Definition consistentEntrypoint (ep : DocumentationEntrypoint) : Prop :=
  getSourceFile (program ep) (path ep) = Some (sourceFile ep).

(** The closure state [convertAndWatch] starts the watch with. *)
Definition initialWatchState : WatchState :=
  {| successFinished := true; currentProgram := None; firstStatusReport := true |}.

(** The tsconfig file [convertAndWatch] watches. *)
Definition watchedTsconfig (w : World) (app : Application) : string :=
  default "tsconfig.json"
    (ts_findConfigFile w (opt_tsconfig (options app))
       (if endsWith (toLowerCase (opt_tsconfig (options app))) ".json"
        then Some (Path_basename w (opt_tsconfig (options app))) else None)).

(** A state in which a stored program always waits for a pending callback. *)
Definition storedOnlyWhilePending (st : WatchState) : Prop :=
  successFinished st = true → currentProgram st = None.

(** The world with another TypeScript version and another list of supported
    versions. *)
Definition withVersions (w : World) (versionMajorMinor : string)
    (supported : list string) : World :=
  {| Path_resolve := Path_resolve w;
     Path_relative := Path_relative w;
     Path_dirname := Path_dirname w;
     Path_basename := Path_basename w;
     Path_join := Path_join w;
     normalizePath := normalizePath w;
     getCommonDirectory := getCommonDirectory w;
     replaceModuleSuffix := replaceModuleSuffix w;
     FS_lookup := FS_lookup w;
     minimatch_match := minimatch_match w;
     ts_version := ts_version w;
     ts_versionMajorMinor := versionMajorMinor;
     typeScriptPath := typeScriptPath w;
     supportedVersionMajorMinor := supported;
     ts_createProgram := ts_createProgram w;
     ts_findConfigFile := ts_findConfigFile w;
     ts_getParsedCommandLineOfConfigFile := ts_getParsedCommandLineOfConfigFile w;
     expandPackages := expandPackages w;
     loadPackageManifest := loadPackageManifest w;
     getTsEntryPointForPackage := getTsEntryPointForPackage w;
     converter_convert := converter_convert w;
     JSON_stringify := JSON_stringify w |}.

Definition unsupportedVersionWarning (w : World) : string :=
  "You are running with an unsupported TypeScript version! TypeDoc supports "
  +:+ join_comma (supportedVersionMajorMinor w).

Definition versionSupported (w : World) : bool :=
  existsb (fun version => String.eqb version (ts_versionMajorMinor w))
    (supportedVersionMajorMinor w).

(** A path [expandInputFiles] may return: the normalized form of a path
    that passes the regular expression chosen by [allowJs] and [checkJs]. *)
Definition supportedPath (w : World) (app : Application) (file : string) : Prop :=
  ∃ raw, file = normalizePath w raw
         ∧ (if truthy (co_allowJs (options_getCompilerOptions app))
               || truthy (co_checkJs (options_getCompilerOptions app))
            then test_tjs_regex raw else test_ts_regex raw) = true.

(** The condition under which the status reporter clears the screen. *)
Definition shouldClear (app : Application) (st : WatchState)
    (errorCount : option nat) : bool :=
  negb (firstStatusReport st)
  && (if errorCount is None then true else false)
  && negb (opt_preserveWatchOutput (options app))
  && loggerIsConsoleLogger app.

(** The status texts the host reports during the events. *)
Definition statusTexts (events : list (World * WatchEvent)) : list string :=
  flat_map (fun e => if snd e is WatchStatus statusText _ then [statusText] else [])
    events.

(** The replacement [getModuleName] makes: the match of the regular
    expression [/(\/index)?(\.d)?\.[tj]sx?$/] is replaced by the empty
    string.  The expression is anchored at the end, so the match replaced is
    the longest suffix of one of the sixteen forms [(/index)(.d).(t|j)s(x)];
    the forms are tried from the longest stem to the shortest. *)
Definition dropSuffix (s suffix : string) : option string :=
  if endsWith s suffix
  then Some (String.substring 0 (String.length s - String.length suffix) s)
  else None.

Definition moduleSuffixes : list string :=
  flat_map
    (fun stem => map (fun extension => stem +:+ extension) [".ts"; ".tsx"; ".js"; ".jsx"])
    ["/index.d"; "/index"; ".d"; EmptyString].

Fixpoint dropFirstSuffix (s : string) (suffixes : list string) : string :=
  match suffixes with
  | [] => s
  | suffix :: rest =>
      match dropSuffix s suffix with
      | Some stripped => stripped
      | None => dropFirstSuffix s rest
      end
  end.

Definition replaceModuleSuffix_regex (s : string) : string :=
  dropFirstSuffix s moduleSuffixes.

(** What locates an entry point: its path, program and source file (its
    display name apart). *)
Definition located (ep : DocumentationEntrypoint) : string * Program * SourceFile :=
  (path ep, program ep, sourceFile ep).

(** ** Further concrete projects *)

Module SampleMore.

(** Packages [good] (entry point [src/a.ts], built by its tsconfig) and
    [ignored]; a directory [lib] with a TypeScript and a JavaScript file; the
    display names are computed with the regular expression. *)
Definition relativeTo (baseDir file : string) : string :=
  if Sample.startsWith file (baseDir +:+ "/")
  then String.substring (String.length baseDir + 1)
         (String.length file - String.length baseDir - 1) file
  else file.

Definition world : World :=
  {| Path_resolve := Path_resolve Sample.world;
     Path_relative := relativeTo;
     Path_dirname := Path_dirname Sample.world;
     Path_basename := Path_basename Sample.world;
     Path_join := Path_join Sample.world;
     normalizePath := normalizePath Sample.world;
     getCommonDirectory := getCommonDirectory Sample.world;
     replaceModuleSuffix := replaceModuleSuffix_regex;
     FS_lookup := fun file =>
       if String.eqb file "/proj/lib"
       then Some (FsDir [ ("main.ts", FsFile); ("util.js", FsFile) ])
       else FS_lookup Sample.world file;
     minimatch_match := minimatch_match Sample.world;
     ts_version := ts_version Sample.world;
     ts_versionMajorMinor := ts_versionMajorMinor Sample.world;
     typeScriptPath := typeScriptPath Sample.world;
     supportedVersionMajorMinor := supportedVersionMajorMinor Sample.world;
     ts_createProgram := ts_createProgram Sample.world;
     ts_findConfigFile := ts_findConfigFile Sample.world;
     ts_getParsedCommandLineOfConfigFile :=
       ts_getParsedCommandLineOfConfigFile Sample.world;
     expandPackages := expandPackages Sample.world;
     loadPackageManifest := loadPackageManifest Sample.world;
     getTsEntryPointForPackage := fun packageJsonPath _ =>
       if String.eqb packageJsonPath "/proj/ignored/package.json"
       then (IgnorePackage, [])
       else (EntryPath "/proj/src/a.ts", []);
     converter_convert := converter_convert Sample.world;
     JSON_stringify := JSON_stringify Sample.world |}.

Definition appOptions (packages : list string) (emit preserve : bool)
    (compilerOptions : CompilerOptions) (entries excludes : list string)
    : Application :=
  {| options :=
       {| opt_packages := packages; opt_emit := emit; opt_pretty := false;
          opt_preserveWatchOutput := preserve; opt_tsconfig := "tsconfig.json";
          opt_compilerOptions := compilerOptions; opt_fileNames := Sample.files;
          opt_projectReferences := None |};
     exclude := excludes;
     entryPoints := entries;
     loggerIsConsoleLogger := true;
     serializer := {| preHooks := []; postHooks := [] |} |}.

(** Two packages, and a file entry point that does not exist. *)
Definition appPackages : Application :=
  appOptions ["good"; "ignored"] false false Sample.noOptions ["missing.ts"] [].

(** The [emit] option set, two entry points in one program. *)
Definition appEmit : Application :=
  appOptions [] true false Sample.noOptions ["src/a.ts"; "src/b.ts"] [].

(** [preserveWatchOutput] set. *)
Definition appPreserve : Application :=
  appOptions [] false true Sample.noOptions ["src/a.ts"] [].

(** The directory [lib] as entry point, without and with [allowJs]. *)
Definition appLib : Application :=
  appOptions [] false false Sample.noOptions ["lib"] [].

Definition appAllowJs : Application :=
  appOptions [] false false
    {| co_allowJs := Some true; co_checkJs := None; co_others := [] |}
    ["lib"] [].

(** One exclude pattern, and the same with one more. *)
Definition appOnePattern : Application :=
  appOptions [] false false Sample.noOptions ["src"] ["b.ts"].

Definition appTwoPatterns : Application :=
  appOptions [] false false Sample.noOptions ["src"] ["gen/"; "b.ts"].

Definition session : list (World * WatchEvent) :=
  [ (Sample.world, WatchStatus "Starting compilation in watch mode..." None);
    (Sample.world, ProgramCreated Sample.goodProgram);
    (Sample.world, WatchStatus "Found 0 errors. Watching for file changes." (Some 0));
    (Sample.world, ProgramCreated Sample.goodProgram);
    (Sample.world, WatchStatus "File change detected. Starting incremental compilation..." None);
    (Sample.world, SuccessSettled);
    (Sample.world, SuccessSettled) ].

End SampleMore.

(** ** The programs searched and the failures of a package, written out *)

(** The programs [getEntrypointsForPaths] searches for an entry file, in the
    order of the [programs] array: the root program, created from the file
    names, compiler options and project references of the options, and
    then, only when the root program has no root file names, one program
    per resolved project reference that is not undefined, in the order of
    the references. *)
Definition searchedPrograms (w : World) (app : Application) : list Program :=
  let root :=
    ts_createProgram w
      {| cpo_rootNames := opt_fileNames (options app);
         cpo_options := opt_compilerOptions (options app);
         cpo_projectReferences := opt_projectReferences (options app) |} in
  root ::
  (if (length (rootFileNames root) =? 0)%nat
   then
     flat_map
       (fun ref : option ResolvedProjectReference =>
          match ref with
          | Some ref =>
              [ ts_createProgram w
                  {| cpo_rootNames := pcl_fileNames (rpr_commandLine ref);
                     cpo_options := pcl_options (rpr_commandLine ref);
                     cpo_projectReferences :=
                       pcl_projectReferences (rpr_commandLine ref) |} ]
          | None => []
          end)
       (default [] (resolvedProjectReferences root))
   else []).

(** The root program followed by the programs of all its resolved project
    references, whatever the root program holds. *)
Definition rootThenReferences (w : World) (app : Application) : list Program :=
  let root :=
    ts_createProgram w
      {| cpo_rootNames := opt_fileNames (options app);
         cpo_options := opt_compilerOptions (options app);
         cpo_projectReferences := opt_projectReferences (options app) |} in
  root ::
  flat_map
    (fun ref : option ResolvedProjectReference =>
       match ref with
       | Some ref =>
           [ ts_createProgram w
               {| cpo_rootNames := pcl_fileNames (rpr_commandLine ref);
                  cpo_options := pcl_options (rpr_commandLine ref);
                  cpo_projectReferences :=
                    pcl_projectReferences (rpr_commandLine ref) |} ]
       | None => []
       end)
    (default [] (resolvedProjectReferences root)).

(** The ways in which [getEntrypointsForPackages] fails to locate the entry
    point of a package, one per [return] of its loop. *)
Inductive PackageFailure :=
| ManifestNotLoaded
| EntryPointUndetermined
| TsconfigNotFound
| TsconfigNotParsed
| TsconfigUnrecoverable
| EntryPointNotBuilt.

(** The failure, if any, of the package at [packagePath]; a package that is
    to be ignored does not fail. *)
Definition packageFailure (w : World) (packagePath : string) : option PackageFailure :=
  let packageJsonPath := Path_resolve w [packagePath; "package.json"] in
  match fst (loadPackageManifest w packageJsonPath) with
  | None => Some ManifestNotLoaded
  | Some packageJson =>
      match fst (getTsEntryPointForPackage w packageJsonPath packageJson) with
      | EntryUndefined => Some EntryPointUndetermined
      | IgnorePackage => None
      | EntryPath packageEntryPoint =>
          match ts_findConfigFile w packageEntryPoint None with
          | None => Some TsconfigNotFound
          | Some tsconfigFile =>
              match ts_getParsedCommandLineOfConfigFile w tsconfigFile with
              | (None, _) => Some TsconfigNotParsed
              | (Some _, _ :: _) => Some TsconfigUnrecoverable
              | (Some parsedCommandLine, []) =>
                  if containsFile packageEntryPoint
                       (ts_createProgram w
                          {| cpo_rootNames := pcl_fileNames parsedCommandLine;
                             cpo_options := pcl_options parsedCommandLine;
                             cpo_projectReferences := None |})
                  then None else Some EntryPointNotBuilt
              end
          end
      end
  end.

(** ** A project with references *)

Module SampleSolution.

(** The tsconfig refers to the projects [pkgA], [missing] (which does not
    resolve) and [pkgB]; [shared.ts] belongs to both packages, [orphan.ts]
    to none.  [README.md] is a file that is not a source file, the stat of
    [locked.ts] fails, and the directory [empty] holds nothing. *)
Definition commandLine (fileNames : list string) : ParsedCommandLine :=
  {| pcl_options := Sample.noOptions; pcl_fileNames := fileNames;
     pcl_projectReferences := None; pcl_errors := [] |}.

Definition pkgA : ResolvedProjectReference :=
  {| rpr_commandLine := commandLine ["/proj/pkgA/a.ts"; "/proj/shared.ts"] |}.

Definition pkgB : ResolvedProjectReference :=
  {| rpr_commandLine := commandLine ["/proj/pkgB/b.ts"; "/proj/shared.ts"] |}.

Definition references : list ProjectReference :=
  [ {| pr_path := "pkgA" |}; {| pr_path := "missing" |}; {| pr_path := "pkgB" |} ].

Definition createProgram (o : CreateProgramOptions) : Program :=
  {| rootFileNames := cpo_rootNames o;
     sourceFiles :=
       list_to_map (map (fun f => (f, Sample.sourceFileOf f)) (cpo_rootNames o));
     preEmitDiagnostics := [];
     resolvedProjectReferences :=
       if cpo_projectReferences o is Some (_ :: _)
       then Some [Some pkgA; None; Some pkgB] else None |}.

Definition lookup (file : string) : option FsNode :=
  if String.eqb file "/proj/README.md" then Some FsFile
  else if String.eqb file "/proj/locked.ts" then Some FsNoStat
  else if String.eqb file "/proj/empty" then Some (FsDir [])
  else if String.eqb file "/proj/main.ts" then Some FsFile
  else if String.eqb file "/proj/shared.ts" then Some FsFile
  else if String.eqb file "/proj/orphan.ts" then Some FsFile
  else if String.eqb file "/proj/pkgA/a.ts" then Some FsFile
  else if String.eqb file "/proj/pkgB/b.ts" then Some FsFile
  else None.

Definition world : World :=
  {| Path_resolve := Path_resolve Sample.world;
     Path_relative := SampleMore.relativeTo;
     Path_dirname := Path_dirname Sample.world;
     Path_basename := Path_basename Sample.world;
     Path_join := Path_join Sample.world;
     normalizePath := normalizePath Sample.world;
     getCommonDirectory := getCommonDirectory Sample.world;
     replaceModuleSuffix := replaceModuleSuffix_regex;
     FS_lookup := lookup;
     minimatch_match := minimatch_match Sample.world;
     ts_version := ts_version Sample.world;
     ts_versionMajorMinor := ts_versionMajorMinor Sample.world;
     typeScriptPath := typeScriptPath Sample.world;
     supportedVersionMajorMinor := supportedVersionMajorMinor Sample.world;
     ts_createProgram := createProgram;
     ts_findConfigFile := ts_findConfigFile Sample.world;
     ts_getParsedCommandLineOfConfigFile :=
       ts_getParsedCommandLineOfConfigFile Sample.world;
     expandPackages := expandPackages Sample.world;
     loadPackageManifest := loadPackageManifest Sample.world;
     getTsEntryPointForPackage := getTsEntryPointForPackage Sample.world;
     converter_convert := converter_convert Sample.world;
     JSON_stringify := JSON_stringify Sample.world |}.

Definition appWith (fileNames entries : list string) : Application :=
  {| options :=
       {| opt_packages := []; opt_emit := false; opt_pretty := false;
          opt_preserveWatchOutput := false; opt_tsconfig := "tsconfig.json";
          opt_compilerOptions := Sample.noOptions; opt_fileNames := fileNames;
          opt_projectReferences := Some references |};
     exclude := [];
     entryPoints := entries;
     loggerIsConsoleLogger := true;
     serializer := {| preHooks := []; postHooks := [] |} |}.

Definition entries : list string :=
  [ "README.md"; "shared.ts"; "gone.ts"; "locked.ts"; "orphan.ts"; "empty";
    "pkgB/b.ts" ].

(** A solution-style tsconfig: the root program has no files of its own. *)
Definition appSolution : Application := appWith [] entries.

(** The same references under a tsconfig that lists a file. *)
Definition appRooted : Application := appWith ["/proj/main.ts"] entries.

Definition rootOfSolution : Program :=
  createProgram {| cpo_rootNames := []; cpo_options := Sample.noOptions;
                   cpo_projectReferences := Some references |}.

Definition programOf (reference : ResolvedProjectReference) : Program :=
  createProgram
    {| cpo_rootNames := pcl_fileNames (rpr_commandLine reference);
       cpo_options := pcl_options (rpr_commandLine reference);
       cpo_projectReferences := pcl_projectReferences (rpr_commandLine reference) |}.

(** A watch session during which the file system changes: the first program
    is created while [src] holds [a.ts] and [b.ts], the second after the
    directory is gone. *)
Definition changingSession : list (World * WatchEvent) :=
  [ (Sample.world, ProgramCreated Sample.goodProgram);
    (world, ProgramCreated Sample.goodProgram);
    (world, WatchStatus "File change detected. Starting incremental compilation..." None);
    (world, SuccessSettled) ].

End SampleSolution.

(** ** A project to serialize *)

Module SampleJson.

(** The text with every apostrophe replaced by a double quote. *)
Fixpoint doubleQuoted (s : string) : string :=
  match s with
  | EmptyString => EmptyString
  | String c rest =>
      String (if Ascii.eqb c "'"%char then ascii_of_nat 34 else c) (doubleQuoted rest)
  end.

(** One variable, whose name holds two double quotes. *)
Definition variable (symbol : Symbol) : Declaration :=
  Sample.declaration symbol (doubleQuoted "say'hi'") KVariable None [].

Definition entrypoint : DocumentationEntrypoint :=
  {| displayName := "a"; path := "/proj/src/a.ts"; program := Sample.goodProgram;
     sourceFile := {| sf_fileName := "/proj/src/a.ts";
                      sf_declarations := [variable 7%positive] |} |}.

Definition entrypointOtherRun : DocumentationEntrypoint :=
  {| displayName := "a"; path := "/proj/src/a.ts"; program := Sample.goodProgram;
     sourceFile := {| sf_fileName := "/proj/src/a.ts";
                      sf_declarations :=
                        [variable (Sample.otherRun 7%positive)] |} |}.

(** A hook that labels every variable before its own fields, and one that
    signs the project after them. *)
Definition hooks : Serializer :=
  {| preHooks :=
       [ {| hook_kind := KVariable;
            hook_fields := fun r => [ ("label", JString (r_name r)) ] |} ];
     postHooks :=
       [ {| hook_kind := KProject;
            hook_fields := fun _ => [ ("generator", JString "typedoc") ] |} ] |}.

Definition appWith (entries : list string) : Application :=
  {| options := options Sample.app;
     exclude := [];
     entryPoints := entries;
     loggerIsConsoleLogger := true;
     serializer := hooks |}.

Definition text : string :=
  doubleQuoted
    "{'id':0,'name':'project','kind':'Project','flags':{},'children':[{'id':1,'name':'a','kind':'Module','flags':{},'children':[{'label':'say\'hi\'','id':2,'name':'say\'hi\'','kind':'Variable','flags':{},'sources':[{'file':'a.ts','line':1,'column':0}],'children':[]}]}],'generator':'typedoc'}".

End SampleJson.

(* ===================================================================== *)
(** * Part II — theorems                                                   *)
(* ===================================================================== *)

(** ** Computations and their traces *)

Lemma bind_fst {A B} (m : Eff A) (k : A → Eff B) :
  fst (bind m k) = fst (k (fst m)).
Proof. reflexivity. Qed.

Lemma bind_snd {A B} (m : Eff A) (k : A → Eff B) :
  snd (bind m k) = snd m ++ snd (k (fst m)).
Proof. reflexivity. Qed.

Lemma forEach_fst {A B} (body : A → Eff (list B)) (xs : list A) :
  fst (forEach body xs) = flat_map (fun x => fst (body x)) xs.
Proof.
  induction xs as [|x xs IH]; [reflexivity|].
  cbn [forEach flat_map]. rewrite !bind_fst. cbn. now rewrite IH.
Qed.

Lemma forEach_snd {A B} (body : A → Eff (list B)) (xs : list A) :
  snd (forEach body xs) = flat_map (fun x => snd (body x)) xs.
Proof.
  induction xs as [|x xs IH]; [reflexivity|].
  cbn [forEach flat_map]. rewrite !bind_snd. cbn.
  rewrite IH. now rewrite app_nil_r.
Qed.

Lemma conversions_app (t1 t2 : list Effect) :
  conversions (t1 ++ t2) = conversions t1 ++ conversions t2.
Proof. unfold conversions. apply flat_map_app. Qed.

Lemma successCalls_app (t1 t2 : list Effect) :
  successCalls (t1 ++ t2) = successCalls t1 ++ successCalls t2.
Proof. unfold successCalls. apply flat_map_app. Qed.

Lemma warnings_app (t1 t2 : list Effect) :
  warnings (t1 ++ t2) = warnings t1 ++ warnings t2.
Proof. unfold warnings. apply flat_map_app. Qed.

Lemma flat_map_flat_map {A B C} (f : A → list B) (g : B → list C) (l : list A) :
  flat_map g (flat_map f l) = flat_map (fun x => flat_map g (f x)) l.
Proof.
  induction l as [|x l IH]; [reflexivity|].
  cbn. now rewrite flat_map_app, IH.
Qed.

Lemma flat_map_map {A B C} (f : A → B) (g : B → list C) (l : list A) :
  flat_map g (map f l) = flat_map (fun x => g (f x)) l.
Proof. induction l as [|x l IH]; [reflexivity|]. cbn. now rewrite IH. Qed.

Lemma flat_map_filter_in {A B} (keep : A → bool) (f : A → list B) (l : list A) :
  (∀ x, keep x = false → f x = []) →
  flat_map f (List.filter keep l) = flat_map f l.
Proof.
  intros Hdrop. induction l as [|x l IH]; [reflexivity|].
  cbn. destruct (keep x) eqn:E; cbn; rewrite IH; [reflexivity|].
  now rewrite (Hdrop x E).
Qed.

Lemma map_filter_flat_map {A B} (keep : A → bool) (f : A → B) (l : list A) :
  map f (List.filter keep l) = flat_map (fun x => if keep x then [f x] else []) l.
Proof.
  induction l as [|x l IH]; [reflexivity|].
  cbn. destruct (keep x); cbn; now rewrite IH.
Qed.

(** ** [expandInputFiles] *)

Lemma expandInputFiles_fst w app paths :
  fst (expandInputFiles w app paths) = flat_map (expansionOf w app) paths.
Proof.
  unfold expandInputFiles. rewrite forEach_fst.
  apply flat_map_ext. intros file. unfold expansionOf.
  now destruct (FS_lookup w (Path_resolve w [file])).
Qed.

Lemma expandInputFiles_snd w app paths :
  snd (expandInputFiles w app paths)
  = map (fun file => Log LWarn (notExistWarning file) [])
      (List.filter (fun file => negb (pathExists w file)) paths).
Proof.
  unfold expandInputFiles. rewrite forEach_snd, map_filter_flat_map.
  apply flat_map_ext. intros file. unfold pathExists.
  now destruct (FS_lookup w (Path_resolve w [file])).
Qed.

Lemma expansionOf_missing w app file :
  pathExists w file = false → expansionOf w app file = [].
Proof.
  unfold pathExists, expansionOf.
  now destruct (FS_lookup w (Path_resolve w [file])).
Qed.

Lemma add_entry w app stats file :
  add w app stats file true =
  match stats with
  | FsNoStat => []
  | FsFile =>
      if supportedFileRegex_test app file then [normalizePath w file] else []
  | FsDir entries =>
      flat_map
        (fun entry =>
           add w app (snd entry)
             (Path_join w (withTrailingSlash stats file) (fst entry)) false)
        entries
  end.
Proof. destruct stats; reflexivity. Qed.

Lemma add_excluded w app stats file :
  isExcluded w app (normalizePath w (withTrailingSlash stats file)) = true →
  add w app stats file false = [].
Proof.
  intros H. unfold withTrailingSlash in H.
  destruct stats; [| |reflexivity]; simpl in H |- *; now rewrite H.
Qed.

(** C8.  The exclude patterns are never consulted for a path given directly
    in the input list: an existing input path expands to itself when it is a
    supported source file and to the expansion of its directory entries when
    it is a directory, whatever the patterns say about it; a file or
    directory discovered while recursing is dropped, with everything below
    it, as soon as a pattern matches it. *)
Theorem exclude_spares_given_paths
    (w : World) (app : Application) (file : string) (stats : FsNode)
    (found : FsNode) (discovered : string) :
  FS_lookup w (Path_resolve w [file]) = Some stats →
  isExcluded w app (normalizePath w (withTrailingSlash found discovered)) = true →
  expandInputFiles w app [file]
  = (match stats with
     | FsNoStat => []
     | FsFile =>
         if supportedFileRegex_test app (Path_resolve w [file])
         then [normalizePath w (Path_resolve w [file])] else []
     | FsDir entries =>
         flat_map
           (fun entry =>
              add w app (snd entry)
                (Path_join w (withTrailingSlash stats (Path_resolve w [file]))
                   (fst entry))
                false)
           entries
     end, [])
  ∧ add w app found discovered false = [].
Proof.
  intros Hstat Hexcluded. split.
  - unfold expandInputFiles. cbn [forEach]. rewrite Hstat.
    unfold bind, ret. cbn [fst snd]. rewrite app_nil_r, add_entry.
    now destruct stats.
  - now apply add_excluded.
Qed.

(** The directory [src] is given directly and matches the pattern [src/];
    it is expanded all the same, and the patterns filter what is found in
    it ([b.ts] and [gen/]). *)
Lemma exclude_spares_given_paths_witness :
  isExcluded Sample.world Sample.appExcluded "/proj/src/" = true ∧
  expandInputFiles Sample.world Sample.appExcluded ["src"]
  = (["/proj/src/a.ts"], []) ∧
  add Sample.world Sample.appExcluded FsFile "/proj/src/b.ts" false = [].
Proof.
  split; [reflexivity|].
  exact (exclude_spares_given_paths Sample.world Sample.appExcluded "src"
           Sample.srcDir FsFile "/proj/src/b.ts" eq_refl eq_refl).
Defined.

(** ** [getEntrypointsForPaths] *)

Lemma entryLoop_programs_spec w baseDir file programs :
  entryLoop_programs w baseDir file programs
  = (entrypointFor w baseDir programs file,
     if locatedIn programs file then []
     else [Log LWarn (unableToLocateWarning file) []]).
Proof.
  unfold entrypointFor, locatedIn.
  induction programs as [|p programs IH]; [reflexivity|].
  cbn [entryLoop_programs List.find existsb]. unfold containsFile at 1 3.
  destruct (getSourceFile p file) as [sf|] eqn:E.
  - cbn. now rewrite E.
  - cbn. exact IH.
Qed.

Lemma entrypointFor_paths w baseDir programs file :
  map path (entrypointFor w baseDir programs file)
  = if locatedIn programs file then [file] else [].
Proof.
  unfold entrypointFor, locatedIn.
  induction programs as [|p programs IH]; [reflexivity|].
  cbn [List.find existsb]. unfold containsFile at 1 3.
  destruct (getSourceFile p file) as [sf|] eqn:E; cbn.
  - now rewrite E.
  - exact IH.
Qed.

Lemma createPrograms_warnings w app : warnings (snd (createPrograms w app)) = [].
Proof.
  unfold createPrograms.
  now destruct (length (rootFileNames (rootProgram w app)) =? 0)%nat.
Qed.

Lemma getEntrypointsForPaths_fst w app paths :
  fst (getEntrypointsForPaths w app paths)
  = flat_map
      (entrypointFor w (getCommonDirectory w (fst (expandInputFiles w app paths)))
         (fst (createPrograms w app)))
      (map (normalizePath w) (fst (expandInputFiles w app paths))).
Proof.
  unfold getEntrypointsForPaths. rewrite !bind_fst, forEach_fst.
  apply flat_map_ext. intros file. now rewrite entryLoop_programs_spec.
Qed.

(** The paths of the entry points [getEntrypointsForPaths] returns are the
    files, in order, that the existing input paths expand to and that some
    program contains; its warnings are one per input path that does not
    exist followed by one per expanded file that no program contains. *)
Lemma getEntrypointsForPaths_paths_and_warnings
    (w : World) (app : Application) (paths : list string) :
  let programs := fst (createPrograms w app) in
  let result := getEntrypointsForPaths w app paths in
  let files :=
    map (normalizePath w)
      (flat_map (expansionOf w app) (List.filter (pathExists w) paths)) in
  map path (fst result) = List.filter (locatedIn programs) files ∧
  warnings (snd result)
  = map notExistWarning (List.filter (fun file => negb (pathExists w file)) paths)
    ++ map unableToLocateWarning
         (List.filter (fun file => negb (locatedIn programs file)) files).
Proof.
  intros programs result files.
  assert (Hfiles : files = map (normalizePath w) (fst (expandInputFiles w app paths))).
  { unfold files. rewrite expandInputFiles_fst. f_equal.
    apply flat_map_filter_in. intros file. apply expansionOf_missing. }
  split.
  - unfold result. rewrite getEntrypointsForPaths_fst, <- Hfiles.
    fold programs. generalize (getCommonDirectory w (fst (expandInputFiles w app paths))).
    intros baseDir. clear Hfiles. generalize files. intros l.
    induction l as [|file rest IH]; [reflexivity|].
    cbn [flat_map List.filter]. rewrite map_app, IH, entrypointFor_paths.
    now destruct (locatedIn programs file).
  - unfold result, getEntrypointsForPaths.
    rewrite !bind_snd, !warnings_app, createPrograms_warnings.
    rewrite expandInputFiles_snd, forEach_snd. cbn [List.app]. f_equal.
    + unfold warnings. rewrite flat_map_map.
      induction (List.filter (λ file, negb (pathExists w file)) paths)
        as [|file rest IH]; [reflexivity|].
      cbn. now rewrite IH.
    + rewrite <- Hfiles. fold programs.
      generalize (getCommonDirectory w (fst (expandInputFiles w app paths))).
      intros baseDir. unfold warnings. rewrite flat_map_flat_map.
      clear Hfiles. generalize files. intros l.
      induction l as [|file rest IH]; [reflexivity|].
      cbn [flat_map List.filter]. rewrite IH, entryLoop_programs_spec.
      cbn [snd]. now destruct (locatedIn programs file).
Qed.

(** Two paths that do not exist and a file no program builds, among two
    files of the root program. *)
Example unlocatable_entry_points_example :
  let result :=
    getEntrypointsForPaths Sample.world Sample.app
      ["missing.ts"; "src/a.ts"; "gen.ts"; "nowhere.ts"; "src/b.ts"] in
  map path (fst result) = ["/proj/src/a.ts"; "/proj/src/b.ts"]
  ∧ warnings (snd result)
    = [ "Provided entry point missing.ts does not exist and will not be included in the docs.";
        "Provided entry point nowhere.ts does not exist and will not be included in the docs.";
        "Unable to locate entry point: /proj/gen.ts" ].
Proof. split; reflexivity. Qed.

Lemma entryLoop_programs_first w baseDir file before p after sf :
  Forall (fun q => getSourceFile q file = None) before →
  getSourceFile p file = Some sf →
  entryLoop_programs w baseDir file (before ++ p :: after)
  = ([ {| displayName := getModuleName w (Path_resolve w [file]) baseDir;
          path := file; sourceFile := sf; program := p |} ], []).
Proof.
  intros Hbefore Hp. induction Hbefore as [|q before Hq _ IH].
  - cbn. now rewrite Hp.
  - cbn. now rewrite Hq.
Qed.

Lemma entryLoop_programs_none w baseDir file programs :
  Forall (fun q => getSourceFile q file = None) programs →
  entryLoop_programs w baseDir file programs
  = ([], [Log LWarn (unableToLocateWarning file) []]).
Proof.
  intros Hnone. induction Hnone as [|q programs Hq _ IH]; [reflexivity|].
  cbn. now rewrite Hq.
Qed.

Lemma entryLoop_programs_length w baseDir file programs :
  (length (fst (entryLoop_programs w baseDir file programs)) ≤ 1)%nat.
Proof.
  induction programs as [|p programs IH]; cbn; [lia|].
  destruct (getSourceFile p file); cbn; [lia|exact IH].
Qed.

(** ** Computations that only log *)

Lemma onlyLogs_ret {A} (a : A) : onlyLogs (ret a).
Proof. apply Forall_nil_2. Qed.

Lemma onlyLogs_bind {A B} (m : Eff A) (k : A → Eff B) :
  onlyLogs m → (∀ a, onlyLogs (k a)) → onlyLogs (bind m k).
Proof.
  unfold onlyLogs. intros Hm Hk. rewrite bind_snd.
  apply Forall_app. split; [exact Hm|apply Hk].
Qed.

Lemma onlyLogs_log level msg args : onlyLogs (effect (Log level msg args)).
Proof. apply Forall_cons_2; [exact I|apply Forall_nil_2]. Qed.

Lemma onlyLogs_diagnostic d : onlyLogs (logger_diagnostic d).
Proof. apply Forall_cons_2; [exact I|apply Forall_nil_2]. Qed.

Lemma onlyLogs_diagnostics ds : onlyLogs (logger_diagnostics ds).
Proof. apply Forall_cons_2; [exact I|apply Forall_nil_2]. Qed.

Lemma onlyLogs_logged {A} (m : Logged A) : onlyLogs (logged m).
Proof.
  unfold onlyLogs, logged. cbn [snd].
  induction (snd m) as [|entry entries IH]; [apply Forall_nil_2|].
  apply Forall_cons_2; [exact I|exact IH].
Qed.

Lemma onlyLogs_when (b : bool) (m : Eff unit) : onlyLogs m → onlyLogs (when b m).
Proof. destruct b; [trivial|intros _; apply onlyLogs_ret]. Qed.

Lemma onlyLogs_forEach {A B} (body : A → Eff (list B)) (xs : list A) :
  (∀ x, onlyLogs (body x)) → onlyLogs (forEach body xs).
Proof.
  intros Hbody. induction xs as [|x xs IH]; [apply onlyLogs_ret|].
  cbn [forEach]. apply onlyLogs_bind; [apply Hbody|]. intros ys.
  apply onlyLogs_bind; [exact IH|]. intros zs. apply onlyLogs_ret.
Qed.

Ltac only_logs :=
  repeat first
    [ apply onlyLogs_ret | apply onlyLogs_logged | apply onlyLogs_log
    | apply onlyLogs_diagnostic | apply onlyLogs_diagnostics
    | apply onlyLogs_when
    | apply onlyLogs_forEach; intros ?
    | apply onlyLogs_bind; [|intros ?]
    | match goal with
      | |- onlyLogs (match ?x with _ => _ end) => destruct x
      | |- onlyLogs (if ?x then _ else _) => destruct x
      end ].

Lemma onlyLogs_conversions (t : list Effect) : Forall isLog t → conversions t = [].
Proof.
  induction 1 as [|e t He _ IH]; [reflexivity|].
  destruct e; try contradiction; exact IH.
Qed.

Lemma onlyLogs_successCalls (t : list Effect) : Forall isLog t → successCalls t = [].
Proof.
  induction 1 as [|e t He _ IH]; [reflexivity|].
  destruct e; try contradiction; exact IH.
Qed.

Lemma onlyLogs_logVersion w : onlyLogs (logVersion w).
Proof. unfold logVersion, logger_verbose, logger_warn. only_logs. Qed.

Lemma onlyLogs_getEntrypointsForPackages_loop w expanded results :
  onlyLogs (getEntrypointsForPackages_loop w expanded results).
Proof.
  revert results. induction expanded as [|packagePath rest IH]; intros results.
  - apply onlyLogs_ret.
  - cbn [getEntrypointsForPackages_loop]. unfold logger_error.
    only_logs; apply IH.
Qed.

Lemma onlyLogs_getEntrypointsForPackages w globs :
  onlyLogs (getEntrypointsForPackages w globs).
Proof.
  unfold getEntrypointsForPackages. apply onlyLogs_bind; [apply onlyLogs_logged|].
  intros expanded. apply onlyLogs_getEntrypointsForPackages_loop.
Qed.

Lemma onlyLogs_expandInputFiles w app paths : onlyLogs (expandInputFiles w app paths).
Proof. unfold expandInputFiles, logger_warn. only_logs. Qed.

Lemma onlyLogs_entryLoop_programs w baseDir file programs :
  onlyLogs (entryLoop_programs w baseDir file programs).
Proof.
  induction programs as [|p programs IH]; cbn [entryLoop_programs].
  - unfold logger_warn. only_logs.
  - destruct (getSourceFile p file); [apply onlyLogs_ret|exact IH].
Qed.

Lemma onlyLogs_getEntrypointsForPaths w app paths :
  onlyLogs (getEntrypointsForPaths w app paths).
Proof.
  unfold getEntrypointsForPaths, createPrograms, logger_verbose.
  apply onlyLogs_bind; [only_logs|]. intros programs.
  apply onlyLogs_bind; [apply onlyLogs_expandInputFiles|]. intros inputFiles.
  apply onlyLogs_forEach. intros file. apply onlyLogs_entryLoop_programs.
Qed.

Lemma onlyLogs_collectEntrypoints w app : onlyLogs (collectEntrypoints w app).
Proof.
  unfold collectEntrypoints.
  apply onlyLogs_bind; [apply onlyLogs_getEntrypointsForPackages|].
  intros [entrypoints|]; [|apply onlyLogs_ret].
  destruct (length entrypoints =? 0)%nat; [|apply onlyLogs_ret].
  apply onlyLogs_bind; [apply onlyLogs_getEntrypointsForPaths|].
  intros more. apply onlyLogs_ret.
Qed.

Lemma onlyLogs_watchEntrypoints w app tsconfigFile current :
  onlyLogs (watchEntrypoints w app tsconfigFile current).
Proof.
  unfold watchEntrypoints, logger_warn.
  apply onlyLogs_bind; [apply onlyLogs_expandInputFiles|]. intros inputFiles.
  only_logs.
Qed.

(** ** [convert] and semantic errors *)

Lemma length_eqb_0 {A} (l : list A) : (length l =? 0)%nat = true ↔ l = [].
Proof. destruct l; cbn; split; congruence. Qed.

Lemma convert_split w app :
  fst (convert w app)
  = match fst (collectEntrypoints w app) with
    | None => None
    | Some eps => fst (convertFrom w app eps)
    end
  ∧ snd (convert w app)
    = snd (convertPrefix w app) ++ snd (collectEntrypoints w app)
      ++ match fst (collectEntrypoints w app) with
         | None => []
         | Some eps => snd (convertFrom w app eps)
         end.
Proof.
  unfold convert, collectEntrypoints, convertFrom, convertPrefix.
  destruct (getEntrypointsForPackages w
              (map (normalizePath w) (options_getValue_packages app)))
    as [[entrypoints|] t0];
    destruct (getEntrypointsForPaths w app (entryPoints app)) as [more t1];
    unfold bind, ret; cbn [fst snd].
  - destruct (length entrypoints =? 0)%nat; cbn [fst snd];
      (split; [reflexivity|]); now rewrite ?app_nil_r, <- ?app_assoc.
  - split; [reflexivity|]. now rewrite ?app_nil_r, <- ?app_assoc.
Qed.

Lemma onlyLogs_convertPrefix w app : onlyLogs (convertPrefix w app).
Proof.
  unfold convertPrefix, logger_warn.
  apply onlyLogs_bind; [apply onlyLogs_logVersion|]. intros _.
  apply onlyLogs_when, onlyLogs_log.
Qed.

Lemma convert_with_errors w app eps :
  fst (collectEntrypoints w app) = Some eps →
  flatMap (map program eps) preEmitDiagnostics ≠ [] →
  fst (convert w app) = None
  ∧ conversions (snd (convert w app)) = []
  ∧ last (snd (convert w app))
    = Some (LogDiagnostics (flatMap (map program eps) preEmitDiagnostics)).
Proof.
  intros Hcollect Herrors.
  assert (Hlen : (length (flatMap (map program eps) preEmitDiagnostics) =? 0)%nat
                 = false).
  { destruct (length _ =? 0)%nat eqn:E; [|reflexivity].
    apply length_eqb_0 in E. contradiction. }
  destruct (convert_split w app) as [Hfst Hsnd].
  rewrite Hfst, Hsnd, Hcollect. unfold convertFrom.
  rewrite Hlen. cbn [negb]. unfold bind, ret, logger_diagnostics, logger_verbose, effect.
  cbn [fst snd]. rewrite !app_nil_r.
  repeat split.
  - rewrite !conversions_app.
    rewrite (onlyLogs_conversions _ (onlyLogs_convertPrefix w app)).
    rewrite (onlyLogs_conversions _ (onlyLogs_collectEntrypoints w app)).
    reflexivity.
  - rewrite !app_assoc.
    change ([Log LVerbose
               ("Converting with " +:+ pretty (length (map program eps))
                +:+ " programs") [];
             LogDiagnostics (flatMap (map program eps) preEmitDiagnostics)])
      with ([Log LVerbose
               ("Converting with " +:+ pretty (length (map program eps))
                +:+ " programs") []]
            ++ [LogDiagnostics (flatMap (map program eps) preEmitDiagnostics)]).
    rewrite ?app_assoc. apply last_snoc.
Qed.

(** ** The watch loop *)

Lemma runSuccess_spec w app tsconfigFile st :
  runSuccess w app tsconfigFile st
  = match currentProgram st with
    | Some current =>
        if successFinished st
        then (rebuilt st, rebuildTrace w app tsconfigFile current)
        else (st, [])
    | None => (st, [])
    end.
Proof.
  unfold runSuccess, rebuildTrace, watchEntrypoints, rebuilt.
  destruct (currentProgram st) as [current|]; [|reflexivity].
  destruct (successFinished st); [|reflexivity].
  destruct (expandInputFiles w app (entryPoints app)) as [inputFiles t1].
  unfold bind at 1 2 3 4 5. cbn [fst snd].
  unfold bind, ret, effect. cbn [fst snd].
  f_equal. now rewrite ?app_nil_r, <- ?app_assoc.
Qed.

Lemma conversions_rebuildTrace w app tsconfigFile current :
  conversions (rebuildTrace w app tsconfigFile current)
  = [fst (watchEntrypoints w app tsconfigFile current)].
Proof.
  unfold rebuildTrace. rewrite !conversions_app.
  rewrite (onlyLogs_conversions _ (onlyLogs_watchEntrypoints w app tsconfigFile current)).
  reflexivity.
Qed.

Lemma successCalls_rebuildTrace w app tsconfigFile current :
  successCalls (rebuildTrace w app tsconfigFile current)
  = [converter_convert w (fst (watchEntrypoints w app tsconfigFile current))].
Proof.
  unfold rebuildTrace. rewrite !successCalls_app.
  rewrite (onlyLogs_successCalls _ (onlyLogs_watchEntrypoints w app tsconfigFile current)).
  reflexivity.
Qed.

Lemma watchEntrypoints_program w app tsconfigFile current :
  Forall (fun ep => program ep = current)
    (fst (watchEntrypoints w app tsconfigFile current)).
Proof.
  unfold watchEntrypoints. rewrite bind_fst, forEach_fst.
  induction (map (normalizePath w) (fst (expandInputFiles w app (entryPoints app))))
    as [|file rest IH]; [apply Forall_nil_2|].
  cbn [flat_map]. apply Forall_app. split; [|exact IH].
  destruct (getSourceFile current file); cbn.
  - apply Forall_cons_2; [reflexivity|apply Forall_nil_2].
  - apply Forall_nil_2.
Qed.

Lemma hasDiagnostics_true p : hasDiagnostics p = true ↔ preEmitDiagnostics p ≠ [].
Proof.
  unfold hasDiagnostics. destruct (preEmitDiagnostics p); cbn; split; congruence.
Qed.

Lemma hasDiagnostics_false p : hasDiagnostics p = false ↔ preEmitDiagnostics p = [].
Proof.
  unfold hasDiagnostics. destruct (preEmitDiagnostics p); cbn; split; congruence.
Qed.

Lemma afterProgramCreate_spec w app tsconfigFile st p :
  afterProgramCreate w app tsconfigFile st p
  = if hasDiagnostics p then (st, [OrigAfterProgramCreate p])
    else if successFinished st
         then (rebuilt st,
               rebuildTrace w app tsconfigFile p ++ [OrigAfterProgramCreate p])
         else ({| successFinished := false;
                  currentProgram := Some p;
                  firstStatusReport := firstStatusReport st |},
               [OrigAfterProgramCreate p]).
Proof.
  unfold afterProgramCreate, hasDiagnostics.
  destruct (length (preEmitDiagnostics p) =? 0)%nat; cbn [negb]; [|reflexivity].
  rewrite runSuccess_spec. cbn [currentProgram successFinished].
  destruct (successFinished st); unfold bind, ret, effect; cbn [fst snd].
  - unfold rebuilt. cbn. now rewrite ?app_nil_r.
  - reflexivity.
Qed.

Lemma successThen_spec w app tsconfigFile st :
  successThen w app tsconfigFile st
  = match currentProgram st with
    | Some current => (rebuilt st, rebuildTrace w app tsconfigFile current)
    | None => ({| successFinished := true;
                  currentProgram := None;
                  firstStatusReport := firstStatusReport st |}, [])
    end.
Proof.
  unfold successThen. rewrite runSuccess_spec. cbn [currentProgram successFinished].
  now destruct (currentProgram st).
Qed.

Lemma reportWatchStatus_spec app st statusText errorCount :
  currentProgram (fst (reportWatchStatus app st statusText errorCount))
  = currentProgram st
  ∧ successFinished (fst (reportWatchStatus app st statusText errorCount))
    = successFinished st
  ∧ conversions (snd (reportWatchStatus app st statusText errorCount)) = []
  ∧ successCalls (snd (reportWatchStatus app st statusText errorCount)) = [].
Proof.
  unfold reportWatchStatus.
  destruct (negb (firstStatusReport st) && (if errorCount is None then true else false)
            && negb (opt_preserveWatchOutput (options app))
            && loggerIsConsoleLogger app); cbn; tauto.
Qed.

Lemma cleanConversions_rebuildTrace w app tsconfigFile current :
  preEmitDiagnostics current = [] →
  cleanConversions (rebuildTrace w app tsconfigFile current).
Proof.
  intros Hclean. unfold cleanConversions. rewrite conversions_rebuildTrace.
  apply Forall_cons_2; [|apply Forall_nil_2].
  eapply Forall_impl; [apply watchEntrypoints_program|].
  cbn. intros ep ->. exact Hclean.
Qed.

Lemma cleanConversions_app t1 t2 :
  cleanConversions t1 → cleanConversions t2 → cleanConversions (t1 ++ t2).
Proof.
  unfold cleanConversions. rewrite conversions_app. intros H1 H2.
  apply Forall_app. now split.
Qed.

Lemma watchStep_clean w app tsconfigFile st ev :
  cleanState st →
  cleanState (fst (watchStep w app tsconfigFile st ev))
  ∧ cleanConversions (snd (watchStep w app tsconfigFile st ev)).
Proof.
  intros Hst. destruct ev as [p| |statusText errorCount]; cbn [watchStep].
  - rewrite afterProgramCreate_spec.
    destruct (hasDiagnostics p) eqn:Ediag; cbn [fst snd].
    + split; [exact Hst|apply Forall_nil_2].
    + apply hasDiagnostics_false in Ediag.
      destruct (successFinished st); cbn [fst snd].
      * split; [intros q; discriminate|].
        apply cleanConversions_app; [|apply Forall_nil_2].
        now apply cleanConversions_rebuildTrace.
      * split; [|apply Forall_nil_2].
        intros q Hq. cbn in Hq. congruence.
  - rewrite successThen_spec.
    destruct (currentProgram st) as [current|] eqn:Ecur; cbn [fst snd].
    + split; [intros q; discriminate|].
      apply cleanConversions_rebuildTrace. now apply Hst.
    + split; [intros q; discriminate|apply Forall_nil_2].
  - destruct (reportWatchStatus_spec app st statusText errorCount)
      as (Hcur & _ & Hconv & _).
    split.
    + intros q Hq. apply Hst. congruence.
    + unfold cleanConversions. rewrite Hconv. apply Forall_nil_2.
Qed.

Lemma watchRun_clean app tsconfigFile st events :
  cleanState st →
  cleanState (fst (watchRun app tsconfigFile st events))
  ∧ cleanConversions (snd (watchRun app tsconfigFile st events)).
Proof.
  revert st. induction events as [|[w ev] events IH]; intros st Hst.
  - split; [exact Hst|apply Forall_nil_2].
  - cbn [watchRun]. rewrite bind_fst, bind_snd.
    destruct (watchStep_clean w app tsconfigFile st ev Hst) as [Hst' Htrace].
    destruct (IH _ Hst') as [Hfinal Hrest].
    split; [exact Hfinal|]. now apply cleanConversions_app.
Qed.

(** C1.  Semantic errors abort the conversion.  When the programs of the
    collected entry points report at least one pre-emit diagnostic,
    [convert] logs the diagnostics as its last action, returns [undefined]
    and never calls the converter.  In watch mode a program with a
    non-empty diagnostic list changes nothing and triggers nothing, and
    whatever the host delivers, every conversion is made from a program
    without diagnostics. *)
Theorem semantic_errors_abort_conversion (w : World) (app : Application) :
  (∀ eps,
     fst (collectEntrypoints w app) = Some eps →
     flatMap (map program eps) preEmitDiagnostics ≠ [] →
     fst (convert w app) = None
     ∧ conversions (snd (convert w app)) = []
     ∧ last (snd (convert w app))
       = Some (LogDiagnostics (flatMap (map program eps) preEmitDiagnostics)))
  ∧ (∀ tsconfigFile st p,
       preEmitDiagnostics p ≠ [] →
       afterProgramCreate w app tsconfigFile st p = (st, [OrigAfterProgramCreate p]))
  ∧ (∀ tsconfigFile st events,
       cleanState st →
       cleanState (fst (watchRun app tsconfigFile st events))
       ∧ cleanConversions (snd (watchRun app tsconfigFile st events))).
Proof.
  split; [|split].
  - intros eps. apply convert_with_errors.
  - intros tsconfigFile st p Hp. rewrite afterProgramCreate_spec.
    apply hasDiagnostics_true in Hp. now rewrite Hp.
  - intros tsconfigFile st events. apply watchRun_clean.
Qed.

(** In the example the root program also builds [broken.ts], which has a
    type error. *)
Lemma semantic_errors_abort_conversion_witness :
  (fst (convert Sample.world Sample.appBroken) = None
   ∧ conversions (snd (convert Sample.world Sample.appBroken)) = []
   ∧ last (snd (convert Sample.world Sample.appBroken))
     = Some (LogDiagnostics
               ["TS2322: Type 'string' is not assignable to type 'number'."]))
  ∧ afterProgramCreate Sample.world Sample.appBroken "tsconfig.json"
      {| successFinished := true; currentProgram := None;
         firstStatusReport := true |}
      Sample.brokenProgram
    = ({| successFinished := true; currentProgram := None;
          firstStatusReport := true |},
       [OrigAfterProgramCreate Sample.brokenProgram])
  ∧ cleanConversions
      (snd (watchRun Sample.appBroken "tsconfig.json"
              {| successFinished := true; currentProgram := None;
                 firstStatusReport := true |}
              [ (Sample.world, ProgramCreated Sample.brokenProgram);
                (Sample.world, ProgramCreated Sample.goodProgram) ])).
Proof.
  destruct (semantic_errors_abort_conversion Sample.world Sample.appBroken)
    as (Hconvert & Hwatch & Hrun).
  split; [|split].
  - eapply (Hconvert _ eq_refl). vm_compute. discriminate.
  - apply Hwatch. vm_compute. discriminate.
  - apply Hrun. intros p Hp. discriminate Hp.
Defined.

Lemma watchStep_pending w app tsconfigFile st ev :
  successFinished st = false →
  isSuccessSettled ev = false →
  conversions (snd (watchStep w app tsconfigFile st ev)) = []
  ∧ successCalls (snd (watchStep w app tsconfigFile st ev)) = []
  ∧ successFinished (fst (watchStep w app tsconfigFile st ev)) = false
  ∧ currentProgram (fst (watchStep w app tsconfigFile st ev))
    = latestProgram (currentProgram st) [(w, ev)].
Proof.
  intros Hpending Hev.
  destruct ev as [p| |statusText errorCount]; [|discriminate Hev|]; cbn [watchStep].
  - rewrite afterProgramCreate_spec, Hpending. cbn [latestProgram].
    destruct (hasDiagnostics p); cbn; now rewrite ?Hpending.
  - destruct (reportWatchStatus_spec app st statusText errorCount)
      as (Hcur & Hfin & Hconv & Hcalls).
    cbn [latestProgram]. now rewrite Hcur, Hfin, Hconv, Hcalls.
Qed.

Lemma watchRun_pending app tsconfigFile st events :
  successFinished st = false →
  Forall (fun e => isSuccessSettled (snd e) = false) events →
  conversions (snd (watchRun app tsconfigFile st events)) = []
  ∧ successCalls (snd (watchRun app tsconfigFile st events)) = []
  ∧ successFinished (fst (watchRun app tsconfigFile st events)) = false
  ∧ currentProgram (fst (watchRun app tsconfigFile st events))
    = latestProgram (currentProgram st) events.
Proof.
  intros Hpending Hevents. revert st Hpending.
  induction Hevents as [|[w ev] events Hev _ IH]; intros st Hpending.
  - cbn. now rewrite Hpending.
  - cbn [watchRun]. rewrite bind_fst, bind_snd, conversions_app, successCalls_app.
    destruct (watchStep_pending w app tsconfigFile st ev Hpending Hev)
      as (Hconv & Hcalls & Hfin & Hcur).
    destruct (IH _ Hfin) as (Hconv' & Hcalls' & Hfin' & Hcur').
    rewrite Hconv, Hcalls, Hconv', Hcalls', Hfin', Hcur', Hcur.
    repeat split. cbn [latestProgram].
    destruct ev as [p| |statusText errorCount]; reflexivity.
Qed.

(** C5.  A rebuild in flight is never preempted.  While the [success]
    callback of a conversion is pending, whatever programs the host creates
    start no conversion and no callback: a program without diagnostics only
    replaces the stored current program.  When the pending callback then
    settles, at most one conversion follows, that of the single latest
    stored program; the programs stored before it are never converted. *)
Theorem rebuild_in_flight_not_preempted
    (w : World) (app : Application) (tsconfigFile : string) (st : WatchState)
    (events : list (World * WatchEvent)) :
  successFinished st = false →
  Forall (fun e => isSuccessSettled (snd e) = false) events →
  let pending := watchRun app tsconfigFile st events in
  let settled := successThen w app tsconfigFile (fst pending) in
  conversions (snd pending) = []
  ∧ successCalls (snd pending) = []
  ∧ successFinished (fst pending) = false
  ∧ currentProgram (fst pending) = latestProgram (currentProgram st) events
  ∧ match latestProgram (currentProgram st) events with
    | Some latest =>
        conversions (snd settled)
        = [fst (watchEntrypoints w app tsconfigFile latest)]
        ∧ Forall (fun ep => program ep = latest)
            (fst (watchEntrypoints w app tsconfigFile latest))
        ∧ successCalls (snd settled)
          = [converter_convert w (fst (watchEntrypoints w app tsconfigFile latest))]
    | None => conversions (snd settled) = [] ∧ successCalls (snd settled) = []
    end.
Proof.
  intros Hpending Hevents pending settled.
  destruct (watchRun_pending app tsconfigFile st events Hpending Hevents)
    as (Hconv & Hcalls & Hfin & Hcur).
  fold pending in Hconv, Hcalls, Hfin, Hcur.
  repeat split; try assumption.
  unfold settled. rewrite successThen_spec, Hcur.
  destruct (latestProgram (currentProgram st) events) as [latest|]; cbn [snd].
  - rewrite conversions_rebuildTrace, successCalls_rebuildTrace.
    repeat split. apply watchEntrypoints_program.
  - now split.
Qed.

(** While a callback is pending the host creates a good program, a broken
    one and the good one again; the callback settles and one conversion
    follows. *)
Lemma rebuild_in_flight_not_preempted_witness :
  let pending :=
    watchRun Sample.app "tsconfig.json"
      {| successFinished := false; currentProgram := None;
         firstStatusReport := false |}
      [ (Sample.world, ProgramCreated Sample.goodProgram);
        (Sample.world, ProgramCreated Sample.brokenProgram);
        (Sample.world, ProgramCreated Sample.goodProgram) ] in
  conversions (snd pending) = []
  ∧ currentProgram (fst pending) = Some Sample.goodProgram
  ∧ length (conversions
              (snd (successThen Sample.world Sample.app "tsconfig.json"
                      (fst pending)))) = 1.
Proof.
  intros pending.
  assert (Hevents :
            Forall (fun e : World * WatchEvent => isSuccessSettled (snd e) = false)
              [ (Sample.world, ProgramCreated Sample.goodProgram);
                (Sample.world, ProgramCreated Sample.brokenProgram);
                (Sample.world, ProgramCreated Sample.goodProgram) ]).
  { repeat (apply Forall_cons_2; [reflexivity|]). apply Forall_nil_2. }
  destruct (rebuild_in_flight_not_preempted Sample.world Sample.app
              "tsconfig.json"
              {| successFinished := false; currentProgram := None;
                 firstStatusReport := false |}
              _ eq_refl Hevents)
    as (Hconv & _ & _ & Hcur & Hsettled).
  split; [exact Hconv|]. split; [exact Hcur|].
  cbn [latestProgram currentProgram] in Hsettled.
  change (hasDiagnostics Sample.goodProgram) with false in Hsettled.
  change (hasDiagnostics Sample.brokenProgram) with true in Hsettled.
  cbn iota in Hsettled. destruct Hsettled as (Hone & _ & _).
  fold pending in Hone. now rewrite Hone.
Defined.

Lemma watchEntrypoints_fst w app tsconfigFile current :
  fst (watchEntrypoints w app tsconfigFile current)
  = let inputFiles := flat_map (expansionOf w app) (entryPoints app) in
    let baseDir := getCommonDirectory w inputFiles in
    flat_map
      (fun file =>
         match getSourceFile current file with
         | Some sourceFile =>
             [ {| displayName := getModuleName w (Path_resolve w [file]) baseDir;
                  path := file;
                  sourceFile := sourceFile;
                  program := current |} ]
         | None => []
         end)
      (map (normalizePath w) inputFiles).
Proof.
  unfold watchEntrypoints. rewrite bind_fst, forEach_fst, expandInputFiles_fst.
  cbn zeta. apply flat_map_ext. intros file.
  now destruct (getSourceFile current file).
Qed.

(** C6.  Every rebuild in watch mode runs the pipeline from scratch.  An
    event either starts no conversion, or (a program without diagnostics
    arrives while no callback is pending, or the pending callback settles
    with a program stored) it expands the configured entry points against
    the file system as it is now, takes the common directory and the entry
    points of the current program from that expansion, calls the converter
    on exactly these entry points and hands its result to [success]; what
    is converted and delivered is a function of the current world, the
    options and the current program alone, and the state kept afterwards
    holds no program and no project. *)
Theorem watch_rebuilds_from_scratch
    (w : World) (app : Application) (tsconfigFile : string) (st : WatchState)
    (ev : WatchEvent) :
  let step := watchStep w app tsconfigFile st ev in
  let entrypointsNow (current : Program) :=
    let inputFiles := flat_map (expansionOf w app) (entryPoints app) in
    let baseDir := getCommonDirectory w inputFiles in
    flat_map
      (fun file =>
         match getSourceFile current file with
         | Some sourceFile =>
             [ {| displayName := getModuleName w (Path_resolve w [file]) baseDir;
                  path := file;
                  sourceFile := sourceFile;
                  program := current |} ]
         | None => []
         end)
      (map (normalizePath w) inputFiles) in
  let rebuilds (current : Program) :=
    conversions (snd step) = [entrypointsNow current]
    ∧ successCalls (snd step) = [converter_convert w (entrypointsNow current)]
    ∧ successFinished (fst step) = false
    ∧ currentProgram (fst step) = None in
  let idles := conversions (snd step) = [] ∧ successCalls (snd step) = [] in
  match ev with
  | ProgramCreated p =>
      if hasDiagnostics p then idles
      else if successFinished st then rebuilds p else idles
  | SuccessSettled =>
      match currentProgram st with
      | Some p => rebuilds p
      | None => idles
      end
  | WatchStatus _ _ => idles
  end.
Proof.
  intros step entrypointsNow rebuilds idles.
  assert (Hnow : ∀ current,
            fst (watchEntrypoints w app tsconfigFile current) = entrypointsNow current).
  { intros current. apply watchEntrypoints_fst. }
  destruct ev as [p| |statusText errorCount]; unfold rebuilds, idles, step;
    cbn [watchStep].
  - rewrite afterProgramCreate_spec.
    destruct (hasDiagnostics p); [now split|].
    destruct (successFinished st); [|now split].
    cbn [fst snd]. rewrite conversions_app, successCalls_app.
    rewrite conversions_rebuildTrace, successCalls_rebuildTrace, Hnow.
    now repeat split.
  - rewrite successThen_spec.
    destruct (currentProgram st) as [p|]; [|now split].
    cbn [fst snd].
    rewrite conversions_rebuildTrace, successCalls_rebuildTrace, Hnow.
    now repeat split.
  - destruct (reportWatchStatus_spec app st statusText errorCount)
      as (_ & _ & Hconv & Hcalls).
    now split.
Qed.

(** A program without diagnostics arrives while nothing is pending: the
    two files are converted and the state holds nothing afterwards. *)
Example watch_rebuild_example :
  let step :=
    watchStep Sample.world Sample.app "tsconfig.json"
      {| successFinished := true; currentProgram := None;
         firstStatusReport := true |}
      (ProgramCreated Sample.goodProgram) in
  map (map path) (conversions (snd step))
  = [["/proj/src/a.ts"; "/proj/src/b.ts"]]
  ∧ length (successCalls (snd step)) = 1
  ∧ fst step
    = {| successFinished := false; currentProgram := None;
         firstStatusReport := true |}.
Proof. repeat split; reflexivity. Qed.

(** ** Starting the watch *)

Lemma convertAndWatch_unsupported w app :
  options_getFileNames app = [] ∨ options_getValue_packages app ≠ [] →
  fst (convertAndWatch w app) = None
  ∧ isErrorLog (last (snd (convertAndWatch w app))) = true
  ∧ watchProgramsCreated (snd (convertAndWatch w app)) = []
  ∧ conversions (snd (convertAndWatch w app)) = []
  ∧ successCalls (snd (convertAndWatch w app)) = [].
Proof.
  intros Hunsupported. unfold convertAndWatch, logVersion, when.
  assert (Hcases : (length (options_getFileNames app) =? 0)%nat = true
                   ∨ (length (options_getFileNames app) =? 0)%nat = false
                     ∧ negb (length (options_getValue_packages app) =? 0)%nat = true).
  { destruct Hunsupported as [Hfiles|Hpackages].
    - left. now apply length_eqb_0.
    - destruct (length (options_getFileNames app) =? 0)%nat; [now left|right].
      split; [reflexivity|].
      destruct (options_getValue_packages app); [contradiction|reflexivity]. }
  destruct Hcases as [Hfiles|[Hfiles Hpackages]]; rewrite Hfiles, ?Hpackages;
    destruct (negb (opt_preserveWatchOutput (options app)) && loggerIsConsoleLogger app);
    destruct (negb (existsb (λ version, String.eqb version (ts_versionMajorMinor w))
                      (supportedVersionMajorMinor w)));
    destruct (Object_keys_length (options_getCompilerOptions app) =? 0)%nat;
    cbn; repeat split.
Qed.

(** C10.  [convertAndWatch] never starts watching under an unsupported
    configuration: when the tsconfig contributes no file names or the
    packages option is not empty, it logs an error as its last action and
    returns without creating the watch program, so whatever happens
    afterwards no conversion and no [success] callback ever runs. *)
Theorem watch_refuses_unsupported_configuration
    (w : World) (app : Application) (events : list (World * WatchEvent)) :
  options_getFileNames app = [] ∨ options_getValue_packages app ≠ [] →
  fst (convertAndWatch w app) = None
  ∧ isErrorLog (last (snd (convertAndWatch w app))) = true
  ∧ watchProgramsCreated (snd (convertAndWatch w app)) = []
  ∧ fst (watchSession w app events) = None
  ∧ conversions (snd (watchSession w app events)) = []
  ∧ successCalls (snd (watchSession w app events)) = [].
Proof.
  intros Hunsupported.
  destruct (convertAndWatch_unsupported w app Hunsupported)
    as (Hnone & Herror & Hcreated & Hconv & Hcalls).
  repeat split; try assumption; unfold watchSession.
  - rewrite bind_fst, Hnone. reflexivity.
  - rewrite bind_snd, Hnone. cbn [snd ret]. now rewrite app_nil_r.
  - rewrite bind_snd, Hnone. cbn [snd ret]. now rewrite app_nil_r.
Qed.

(** With [--packages] set the watch is refused, whatever the host would
    have delivered. *)
Lemma watch_refuses_unsupported_configuration_witness :
  fst (convertAndWatch Sample.world Sample.appPackages) = None
  ∧ conversions
      (snd (watchSession Sample.world Sample.appPackages
              [ (Sample.world, ProgramCreated Sample.goodProgram);
                (Sample.world, SuccessSettled) ])) = [].
Proof.
  destruct (watch_refuses_unsupported_configuration Sample.world
              Sample.appPackages
              [ (Sample.world, ProgramCreated Sample.goodProgram);
                (Sample.world, SuccessSettled) ])
    as (Hnone & _ & _ & _ & Hconv & _).
  - right. discriminate.
  - now split.
Defined.

(** ** Packages whose entry point cannot be located *)

Lemma getEntrypointsForPackages_loop_unlocatable w expanded results packagePath :
  In packagePath expanded →
  packageLocatable w packagePath = false →
  fst (getEntrypointsForPackages_loop w expanded results) = None.
Proof.
  intros Hin Hunlocatable. revert results.
  induction expanded as [|head rest IH]; intros results; [contradiction|].
  assert (Hhead : head = packagePath → packageLocatable w head = false)
    by (now intros ->).
  assert (Hrest : ∀ results', head ≠ packagePath →
            fst (getEntrypointsForPackages_loop w rest results') = None).
  { intros results' Hne. apply IH. destruct Hin; [contradiction|assumption]. }
  destruct (decide (head = packagePath)) as [Heq|Hne].
  - specialize (Hhead Heq). clear Hrest IH Hin.
    unfold packageLocatable in Hhead. cbn [getEntrypointsForPackages_loop].
    rewrite bind_fst. cbn [logged fst].
    destruct (fst (loadPackageManifest w (Path_resolve w [head; "package.json"])))
      as [packageJson|]; [|reflexivity].
    rewrite bind_fst. cbn [logged fst].
    destruct (fst (getTsEntryPointForPackage w
                     (Path_resolve w [head; "package.json"]) packageJson))
      as [| |entry]; [reflexivity|discriminate Hhead|].
    destruct (ts_findConfigFile w entry None) as [tsconfigFile|]; [|reflexivity].
    rewrite bind_fst.
    destruct (ts_getParsedCommandLineOfConfigFile w tsconfigFile)
      as [[parsed|] unrecoverable]; cbn [fst snd]; [|reflexivity].
    rewrite bind_fst.
    destruct unrecoverable as [|d ds]; cbn [length Nat.eqb negb]; [|reflexivity].
    unfold containsFile in Hhead.
    destruct (getSourceFile _ entry); [discriminate Hhead|reflexivity].
  - specialize (fun results' => Hrest results' Hne). clear Hhead IH Hin.
    cbn [getEntrypointsForPackages_loop].
    rewrite bind_fst. cbn [logged fst].
    destruct (fst (loadPackageManifest w (Path_resolve w [head; "package.json"])))
      as [packageJson|]; [|reflexivity].
    rewrite bind_fst. cbn [logged fst].
    destruct (fst (getTsEntryPointForPackage w
                     (Path_resolve w [head; "package.json"]) packageJson))
      as [| |entry]; [reflexivity|apply Hrest|].
    destruct (ts_findConfigFile w entry None) as [tsconfigFile|]; [|reflexivity].
    rewrite bind_fst.
    destruct (ts_getParsedCommandLineOfConfigFile w tsconfigFile)
      as [[parsed|] unrecoverable]; cbn [fst snd]; [|reflexivity].
    rewrite bind_fst.
    destruct (negb (length unrecoverable =? 0)%nat); [reflexivity|].
    destruct (getSourceFile _ entry); [apply Hrest|reflexivity].
Qed.

Lemma convert_packages_failed w app :
  fst (getEntrypointsForPackages w
         (map (normalizePath w) (options_getValue_packages app))) = None →
  fst (convert w app) = None ∧ conversions (snd (convert w app)) = [].
Proof.
  intros Hnone.
  assert (Hcollect : fst (collectEntrypoints w app) = None).
  { unfold collectEntrypoints. rewrite bind_fst, Hnone. reflexivity. }
  destruct (convert_split w app) as [Hfst Hsnd].
  rewrite Hfst, Hsnd, Hcollect, !conversions_app.
  rewrite (onlyLogs_conversions _ (onlyLogs_convertPrefix w app)).
  rewrite (onlyLogs_conversions _ (onlyLogs_collectEntrypoints w app)).
  now split.
Qed.

Lemma conversions_emit (b : bool) (programs : list Program) :
  conversions
    (snd (when b
            (forEach (fun program => effect (ProgramEmit program) ;; ret (@nil unit))
               programs ;; ret tt))) = [].
Proof.
  unfold when. destruct b; [|reflexivity].
  rewrite bind_snd, forEach_snd, conversions_app. cbn [ret snd].
  induction programs as [|p ps IH]; [reflexivity|].
  cbn [flat_map]. rewrite !conversions_app. exact IH.
Qed.

Lemma convert_file_entry_points w app :
  fst (getEntrypointsForPackages w
         (map (normalizePath w) (options_getValue_packages app))) = Some [] →
  flatMap (map program (fst (getEntrypointsForPaths w app (entryPoints app))))
    preEmitDiagnostics = [] →
  fst (convert w app)
  = Some (converter_convert w (fst (getEntrypointsForPaths w app (entryPoints app))))
  ∧ conversions (snd (convert w app))
    = [fst (getEntrypointsForPaths w app (entryPoints app))].
Proof.
  intros Hpackages Hclean.
  assert (Hcollect : fst (collectEntrypoints w app)
                     = Some (fst (getEntrypointsForPaths w app (entryPoints app)))).
  { unfold collectEntrypoints. rewrite bind_fst, Hpackages. reflexivity. }
  destruct (convert_split w app) as [Hfst Hsnd].
  rewrite Hfst, Hsnd, Hcollect, !conversions_app.
  rewrite (onlyLogs_conversions _ (onlyLogs_convertPrefix w app)).
  rewrite (onlyLogs_conversions _ (onlyLogs_collectEntrypoints w app)).
  unfold convertFrom. rewrite Hclean. cbn [length Nat.eqb negb].
  rewrite !bind_fst, !bind_snd, !conversions_app. cbn [fst ret].
  split; [reflexivity|].
  rewrite conversions_emit. reflexivity.
Qed.

(** ** Further properties of [application.ts] *)

(** *** [getEntrypointsForPackages] *)

Lemma packageLocatable_entrypoints w packagePath :
  packageLocatable w packagePath = true ↔ is_Some (packageEntrypoints w packagePath).
Proof.
  unfold packageLocatable, packageEntrypoints, containsFile.
  destruct (fst (loadPackageManifest w _)) as [packageJson|];
    [|split; [discriminate|intros [? ?]; discriminate]].
  destruct (fst (getTsEntryPointForPackage w _ packageJson)) as [| |entry];
    [split; [discriminate|intros [? ?]; discriminate]|split; eauto|].
  destruct (ts_findConfigFile w entry None) as [tsconfigFile|];
    [|split; [discriminate|intros [? ?]; discriminate]].
  destruct (ts_getParsedCommandLineOfConfigFile w tsconfigFile)
    as [[parsed|] [|d ds]];
    try (split; [discriminate|intros [? ?]; discriminate]).
  destruct (getSourceFile _ entry);
    [split; eauto|split; [discriminate|intros [? ?]; discriminate]].
Qed.

Lemma getEntrypointsForPackages_loop_fst w expanded results :
  fst (getEntrypointsForPackages_loop w expanded results)
  = match packagesEntrypoints w expanded with
    | Some eps => Some (results ++ eps)
    | None => None
    end.
Proof.
  revert results. induction expanded as [|head rest IH]; intros results.
  - cbn. now rewrite app_nil_r.
  - cbn [getEntrypointsForPackages_loop packagesEntrypoints].
    unfold packageEntrypoints.
    rewrite bind_fst. cbn [logged fst].
    destruct (fst (loadPackageManifest w (Path_resolve w [head; "package.json"])))
      as [packageJson|]; [|reflexivity].
    rewrite bind_fst. cbn [logged fst].
    destruct (fst (getTsEntryPointForPackage w
                     (Path_resolve w [head; "package.json"]) packageJson))
      as [| |entry]; [reflexivity| |].
    { rewrite IH. now destruct (packagesEntrypoints w rest). }
    destruct (ts_findConfigFile w entry None) as [tsconfigFile|]; [|reflexivity].
    rewrite bind_fst.
    destruct (ts_getParsedCommandLineOfConfigFile w tsconfigFile)
      as [[parsed|] unrecoverable]; cbn [fst snd];
      [|now destruct unrecoverable].
    rewrite bind_fst.
    destruct unrecoverable as [|d ds]; cbn [length Nat.eqb negb]; [|reflexivity].
    destruct (getSourceFile _ entry) as [sf|]; [|reflexivity].
    rewrite IH. destruct (packagesEntrypoints w rest) as [more|]; [|reflexivity].
    cbn. now rewrite <- app_assoc.
Qed.

Lemma packagesEntrypoints_is_Some w expanded :
  is_Some (packagesEntrypoints w expanded)
  ↔ Forall (fun packagePath => packageLocatable w packagePath = true) expanded.
Proof.
  induction expanded as [|head rest IH]; cbn [packagesEntrypoints].
  - split; [intros _; apply Forall_nil_2|eauto].
  - rewrite Forall_cons, packageLocatable_entrypoints, <- IH.
    destruct (packageEntrypoints w head) as [eps|];
      [|split; [intros [? ?]; discriminate|intros [[? ?] _]; discriminate]].
    destruct (packagesEntrypoints w rest) as [more|].
    + split; eauto.
    + split; [intros [? ?]; discriminate|intros [_ [? ?]]; discriminate].
Qed.

(** X1.  [getEntrypointsForPackages] is all or nothing: it returns entry
    points exactly when the entry point of every expanded package can be
    located (or the package is ignored), and then they are the entry points
    of the packages in package order, ignored packages contributing none;
    one failing package discards the entry points of all the others. *)
Theorem packages_all_or_nothing (w : World) (packageGlobPaths : list string) :
  let expanded := fst (expandPackages w "." packageGlobPaths) in
  fst (getEntrypointsForPackages w packageGlobPaths)
  = packagesEntrypoints w expanded
  ∧ (is_Some (fst (getEntrypointsForPackages w packageGlobPaths))
     ↔ Forall (fun packagePath => packageLocatable w packagePath = true) expanded).
Proof.
  intros expanded.
  assert (Hfst : fst (getEntrypointsForPackages w packageGlobPaths)
                 = packagesEntrypoints w expanded).
  { unfold getEntrypointsForPackages. rewrite bind_fst. cbn [logged fst].
    rewrite getEntrypointsForPackages_loop_fst. fold expanded.
    now destruct (packagesEntrypoints w expanded). }
  split; [exact Hfst|]. rewrite Hfst. apply packagesEntrypoints_is_Some.
Qed.

(** Packages [good] and [ignored] give the entry point of [good]; where the
    entry point of a package is not built by its tsconfig, nothing is
    returned. *)
Example packages_all_or_nothing_example :
  map path <$> fst (getEntrypointsForPackages SampleMore.world ["good"; "ignored"])
  = Some ["/proj/src/a.ts"]
  ∧ fst (getEntrypointsForPackages Sample.world ["good"; "ignored"]) = None.
Proof. split; reflexivity. Qed.

(** *** [convert] when conversion goes ahead *)

Lemma programEmits_app (t1 t2 : list Effect) :
  programEmits (t1 ++ t2) = programEmits t1 ++ programEmits t2.
Proof. unfold programEmits. apply flat_map_app. Qed.

Lemma onlyLogs_programEmits (t : list Effect) : Forall isLog t → programEmits t = [].
Proof.
  induction 1 as [|e t He _ IH]; [reflexivity|].
  destruct e; try contradiction; exact IH.
Qed.

Lemma emit_trace (b : bool) (programs : list Program) :
  snd (when b
         (forEach (fun program => effect (ProgramEmit program) ;; ret (@nil unit))
            programs ;; ret tt))
  = map ProgramEmit (if b then programs else []).
Proof.
  unfold when. destruct b; [|reflexivity].
  rewrite bind_snd, forEach_snd. cbn [ret snd]. rewrite app_nil_r.
  induction programs as [|p ps IH]; [reflexivity|].
  cbn [flat_map map]. now rewrite IH.
Qed.

Lemma convertFrom_spec w app eps :
  convertFrom w app eps
  = if (length (flatMap (map program eps) preEmitDiagnostics) =? 0)%nat
    then (Some (converter_convert w eps),
          [Log LVerbose
             ("Converting with " +:+ pretty (length (map program eps))
              +:+ " programs") []]
          ++ map ProgramEmit (if opt_emit (options app) then map program eps else [])
          ++ [ConverterConvert eps])
    else (None,
          [Log LVerbose
             ("Converting with " +:+ pretty (length (map program eps))
              +:+ " programs") [];
           LogDiagnostics (flatMap (map program eps) preEmitDiagnostics)]).
Proof.
  unfold convertFrom.
  destruct (length (flatMap (map program eps) preEmitDiagnostics) =? 0)%nat;
    cbn [negb].
  - pose proof (emit_trace (opt_emit (options app)) (map program eps)) as Hemit.
    match goal with
    | |- context [when ?b ?m] => set (emitting := when b m) in *
    end.
    destruct emitting as [[] t]. cbn [snd] in Hemit. subst t. reflexivity.
  - reflexivity.
Qed.

Lemma programEmits_map (programs : list Program) :
  programEmits (map ProgramEmit programs) = programs.
Proof.
  induction programs as [|p ps IH]; [reflexivity|].
  cbn [map]. change (programEmits (ProgramEmit p :: map ProgramEmit ps))
    with (p :: programEmits (map ProgramEmit ps)). now rewrite IH.
Qed.

Lemma conversions_map_emit (programs : list Program) :
  conversions (map ProgramEmit programs) = [].
Proof. induction programs as [|p ps IH]; [reflexivity|exact IH]. Qed.

Lemma warnings_map_emit (programs : list Program) :
  warnings (map ProgramEmit programs) = [].
Proof. induction programs as [|p ps IH]; [reflexivity|exact IH]. Qed.

Lemma convert_clean w app eps :
  fst (collectEntrypoints w app) = Some eps →
  flatMap (map program eps) preEmitDiagnostics = [] →
  fst (convert w app) = Some (converter_convert w eps)
  ∧ conversions (snd (convert w app)) = [eps]
  ∧ programEmits (snd (convert w app))
    = (if opt_emit (options app) then map program eps else []).
Proof.
  intros Heps Hclean.
  destruct (convert_split w app) as [Hfst Hsnd].
  pose proof (onlyLogs_convertPrefix w app) as Hprefix.
  pose proof (onlyLogs_collectEntrypoints w app) as Hcollect.
  rewrite Hfst, Hsnd, Heps, convertFrom_spec, Hclean.
  cbn [flatMap length Nat.eqb fst snd].
  rewrite !conversions_app, !programEmits_app.
  rewrite (onlyLogs_conversions _ Hprefix), (onlyLogs_conversions _ Hcollect).
  rewrite (onlyLogs_programEmits _ Hprefix), (onlyLogs_programEmits _ Hcollect).
  rewrite conversions_map_emit, programEmits_map. cbn.
  now rewrite app_nil_r.
Qed.

(** X2.  [convert] emits only when the [emit] option is set and only when
    the conversion goes ahead; it then calls [program.emit] once per entry
    point, in entry-point order (a program shared by several entry points is
    emitted once for each), and calls the converter once, after the last
    emit and as its last action; everything before is logging. *)
Theorem convert_emits_then_converts (w : World) (app : Application) :
  programEmits (snd (convert w app))
  = match fst (collectEntrypoints w app) with
    | Some eps =>
        if opt_emit (options app)
           && (length (flatMap (map program eps) preEmitDiagnostics) =? 0)%nat
        then map program eps else []
    | None => []
    end
  ∧ (∀ eps,
       fst (collectEntrypoints w app) = Some eps →
       flatMap (map program eps) preEmitDiagnostics = [] →
       fst (convert w app) = Some (converter_convert w eps)
       ∧ ∃ logs,
           Forall isLog logs
           ∧ snd (convert w app)
             = logs
               ++ map ProgramEmit
                    (if opt_emit (options app) then map program eps else [])
               ++ [ConverterConvert eps]).
Proof.
  destruct (convert_split w app) as [Hfst Hsnd].
  pose proof (onlyLogs_convertPrefix w app) as Hprefix.
  pose proof (onlyLogs_collectEntrypoints w app) as Hcollect.
  split.
  - rewrite Hsnd, !programEmits_app.
    rewrite (onlyLogs_programEmits _ Hprefix), (onlyLogs_programEmits _ Hcollect).
    destruct (fst (collectEntrypoints w app)) as [eps|]; [|reflexivity].
    rewrite convertFrom_spec.
    destruct (length (flatMap (map program eps) preEmitDiagnostics) =? 0)%nat;
      cbn [snd]; [|now rewrite andb_false_r].
    rewrite andb_true_r, !programEmits_app, programEmits_map. cbn.
    rewrite app_nil_r. now destruct (opt_emit (options app)).
  - intros eps Heps Hclean. rewrite Hfst, Hsnd, Heps, convertFrom_spec, Hclean.
    cbn [flatMap length Nat.eqb fst snd]. split; [reflexivity|].
    eexists (snd (convertPrefix w app) ++ snd (collectEntrypoints w app)
             ++ [Log LVerbose _ []]).
    split.
    + apply Forall_app. split; [exact Hprefix|].
      apply Forall_app. split; [exact Hcollect|].
      apply Forall_cons_2; [exact I|apply Forall_nil_2].
    + now rewrite <- !app_assoc.
Qed.

(** X3.  With [--packages], the file-oriented entry points are never looked
    at: when the packages yield at least one entry point, [convert] converts
    exactly the package entry points (or aborts on their diagnostics), and
    its warnings are those of its opening checks and of the package helpers
    alone: no missing or unlocatable file is reported. *)
Theorem packages_replace_file_entry_points
    (w : World) (app : Application) (eps : list DocumentationEntrypoint) :
  fst (getEntrypointsForPackages w
         (map (normalizePath w) (options_getValue_packages app))) = Some eps →
  eps ≠ [] →
  let clean := (length (flatMap (map program eps) preEmitDiagnostics) =? 0)%nat in
  fst (convert w app) = (if clean then Some (converter_convert w eps) else None)
  ∧ conversions (snd (convert w app)) = (if clean then [eps] else [])
  ∧ warnings (snd (convert w app))
    = warnings (snd (convertPrefix w app))
      ++ warnings (snd (getEntrypointsForPackages w
                          (map (normalizePath w) (options_getValue_packages app)))).
Proof.
  intros Hpackages Hnonempty clean.
  assert (Hcollect : collectEntrypoints w app
                     = (Some eps,
                        snd (getEntrypointsForPackages w
                               (map (normalizePath w) (options_getValue_packages app))))).
  { unfold collectEntrypoints.
    destruct (getEntrypointsForPackages w _) as [result trace].
    cbn [fst snd] in Hpackages |- *. subst result.
    unfold bind. cbn [fst snd].
    destruct eps as [|ep eps']; [contradiction|].
    cbn [length Nat.eqb ret fst snd]. now rewrite app_nil_r. }
  destruct (convert_split w app) as [Hfst Hsnd].
  pose proof (onlyLogs_convertPrefix w app) as Hprefix.
  pose proof (onlyLogs_getEntrypointsForPackages w
                (map (normalizePath w) (options_getValue_packages app))) as Hlogs.
  rewrite Hfst, Hsnd, Hcollect. cbn [fst snd]. rewrite convertFrom_spec.
  fold clean. rewrite !conversions_app, !warnings_app.
  rewrite (onlyLogs_conversions _ Hprefix), (onlyLogs_conversions _ Hlogs).
  destruct clean; cbn [fst snd].
  - rewrite !conversions_app, !warnings_app, conversions_map_emit, warnings_map_emit.
    cbn. now rewrite !app_nil_r.
  - cbn. now rewrite !app_nil_r.
Qed.

Lemma filter_missing w (paths : list string) :
  Forall (fun file => pathExists w file = false) paths →
  List.filter (fun file => negb (pathExists w file)) paths = paths.
Proof.
  induction 1 as [|file rest Hfile _ IH]; [reflexivity|].
  cbn [List.filter]. rewrite Hfile. cbn [negb]. now rewrite IH.
Qed.

Lemma expansion_missing w app (paths : list string) :
  Forall (fun file => pathExists w file = false) paths →
  flat_map (expansionOf w app) paths = [].
Proof.
  induction 1 as [|file rest Hfile _ IH]; [reflexivity|].
  cbn [flat_map]. now rewrite (expansionOf_missing w app file Hfile), IH.
Qed.

(** X4.  When nothing can be located, [convert] still converts: if the
    packages contribute no entry point and none of the configured entry
    points exists (in particular when none is configured), it warns once
    per entry point and calls the converter with an empty list, returning
    the project the converter builds from nothing. *)
Theorem convert_without_entry_points (w : World) (app : Application) :
  fst (getEntrypointsForPackages w
         (map (normalizePath w) (options_getValue_packages app))) = Some [] →
  Forall (fun file => pathExists w file = false) (entryPoints app) →
  fst (convert w app) = Some (converter_convert w [])
  ∧ conversions (snd (convert w app)) = [[]]
  ∧ programEmits (snd (convert w app)) = []
  ∧ warnings (snd (getEntrypointsForPaths w app (entryPoints app)))
    = map notExistWarning (entryPoints app).
Proof.
  intros Hpackages Hmissing.
  assert (Hexpand : fst (expandInputFiles w app (entryPoints app)) = []).
  { rewrite expandInputFiles_fst. now apply expansion_missing. }
  assert (Hpaths : fst (getEntrypointsForPaths w app (entryPoints app)) = []).
  { rewrite getEntrypointsForPaths_fst, Hexpand. reflexivity. }
  assert (Hcollect : fst (collectEntrypoints w app) = Some []).
  { unfold collectEntrypoints. rewrite bind_fst, Hpackages.
    cbn [length Nat.eqb]. rewrite bind_fst, Hpaths. reflexivity. }
  destruct (convert_clean w app [] Hcollect eq_refl) as (Hfst & Hconv & Hemit).
  split; [exact Hfst|]. split; [exact Hconv|].
  split; [rewrite Hemit; now destruct (opt_emit (options app))|].
  unfold getEntrypointsForPaths. rewrite !bind_snd, !warnings_app.
  rewrite createPrograms_warnings, expandInputFiles_snd, Hexpand.
  cbn [map forEach ret snd List.app]. rewrite app_nil_r.
  rewrite (filter_missing w _ Hmissing). unfold warnings. rewrite flat_map_map.
  clear. induction (entryPoints app) as [|file rest IH]; [reflexivity|].
  cbn. now rewrite IH.
Qed.

(** *** [expandInputFiles] *)

Lemma FsNode_entries_ind (P : FsNode → Prop) :
  P FsFile → P FsNoStat →
  (∀ entries, Forall (fun entry => P (snd entry)) entries → P (FsDir entries)) →
  ∀ stats, P stats.
Proof.
  intros Hfile Hnostat Hdir. fix self 1. intros [|entries|].
  - exact Hfile.
  - apply Hdir. induction entries as [|[name child] entries IH].
    + apply List.Forall_nil.
    + apply List.Forall_cons; [apply self|exact IH].
  - exact Hnostat.
Qed.

Lemma forEach_app {A B} (body : A → Eff (list B)) (xs ys : list A) :
  forEach body (xs ++ ys)
  = (fst (forEach body xs) ++ fst (forEach body ys),
     snd (forEach body xs) ++ snd (forEach body ys)).
Proof.
  rewrite (surjective_pairing (forEach body (xs ++ ys))).
  now rewrite !forEach_fst, !forEach_snd, !flat_map_app.
Qed.

Lemma add_supported w app stats :
  ∀ file entryPoint, Forall (supportedPath w app) (add w app stats file entryPoint).
Proof.
  induction stats as [| |entries IH] using FsNode_entries_ind; intros file entryPoint.
  - cbn [add fileIsDir andb].
    destruct (negb entryPoint && isExcluded w app (normalizePath w file));
      [apply Forall_nil_2|].
    destruct (supportedFileRegex_test app file) eqn:E; [|apply Forall_nil_2].
    apply Forall_cons_2; [|apply Forall_nil_2]. now exists file.
  - apply Forall_nil_2.
  - cbn [add fileIsDir].
    destruct (negb entryPoint && isExcluded w app _); [apply Forall_nil_2|].
    induction IH as [|entry entries Hentry _ IHentries]; [apply Forall_nil_2|].
    cbn [flat_map]. apply Forall_app. split; [apply Hentry|exact IHentries].
Qed.

(** X5.  [expandInputFiles] returns source files only: every path it
    returns, whether given directly or found in a directory, is the
    normalized form of a path that ends in [.ts] or [.tsx], or also in [.js]
    or [.jsx] when [allowJs] or [checkJs] is set. *)
Theorem expandInputFiles_returns_source_files
    (w : World) (app : Application) (inputFiles : list string) :
  Forall (supportedPath w app) (fst (expandInputFiles w app inputFiles)).
Proof.
  rewrite expandInputFiles_fst.
  induction inputFiles as [|file rest IH]; [apply Forall_nil_2|].
  cbn [flat_map]. apply Forall_app. split; [|exact IH].
  unfold expansionOf. destruct (FS_lookup w (Path_resolve w [file]));
    [apply add_supported|apply Forall_nil_2].
Qed.

Lemma entrypointFor_located w baseDir1 baseDir2 programs file :
  map located (entrypointFor w baseDir1 programs file)
  = map located (entrypointFor w baseDir2 programs file).
Proof.
  unfold entrypointFor. destruct (List.find (containsFile file) programs) as [p|];
    [|reflexivity].
  now destruct (getSourceFile p file).
Qed.

Lemma getEntrypointsForPaths_located w app paths baseDir :
  map located (fst (getEntrypointsForPaths w app paths))
  = flat_map
      (fun file => map located (entrypointFor w baseDir (fst (createPrograms w app)) file))
      (map (normalizePath w) (flat_map (expansionOf w app) paths)).
Proof.
  rewrite getEntrypointsForPaths_fst, expandInputFiles_fst.
  generalize (getCommonDirectory w (flat_map (expansionOf w app) paths)).
  intros baseDir'.
  induction (map (normalizePath w) (flat_map (expansionOf w app) paths))
    as [|file rest IH]; [reflexivity|].
  cbn [flat_map]. rewrite map_app, IH.
  now rewrite (entrypointFor_located w baseDir' baseDir).
Qed.

(** X6.  Input paths are handled independently of each other.  The files
    and warnings [expandInputFiles] gives for a concatenation of two lists
    are those of the first list followed by those of the second (nothing is
    deduplicated, the empty list gives nothing), and the entry points
    [getEntrypointsForPaths] builds for the concatenation are, display names
    apart, those of the first list followed by those of the second: only
    the display name of an entry point depends on the other inputs. *)
Theorem input_paths_are_independent
    (w : World) (app : Application) (first second : list string) :
  expandInputFiles w app (first ++ second)
  = (fst (expandInputFiles w app first) ++ fst (expandInputFiles w app second),
     snd (expandInputFiles w app first) ++ snd (expandInputFiles w app second))
  ∧ expandInputFiles w app [] = ([], [])
  ∧ map located (fst (getEntrypointsForPaths w app (first ++ second)))
    = map located (fst (getEntrypointsForPaths w app first))
      ++ map located (fst (getEntrypointsForPaths w app second)).
Proof.
  split; [apply forEach_app|]. split; [reflexivity|].
  rewrite !(getEntrypointsForPaths_located w app _ EmptyString).
  now rewrite flat_map_app, map_app, flat_map_app.
Qed.

(** The file [src/a.ts] and the directory [src], together and apart. *)
Example input_paths_example :
  map located (fst (getEntrypointsForPaths Sample.world Sample.app ["src/a.ts"; "src"]))
  = map located (fst (getEntrypointsForPaths Sample.world Sample.app ["src/a.ts"]))
    ++ map located (fst (getEntrypointsForPaths Sample.world Sample.app ["src"])).
Proof. reflexivity. Qed.

Lemma sublist_flat_map {A B} (f g : A → list B) (l : list A) :
  Forall (fun x => sublist (f x) (g x)) l → sublist (flat_map f l) (flat_map g l).
Proof.
  induction 1 as [|x l Hx _ IH]; [constructor|].
  cbn [flat_map]. now apply sublist_app.
Qed.

Lemma add_monotone w app1 app2 :
  (∀ file, isExcluded w app1 file = true → isExcluded w app2 file = true) →
  (∀ file, supportedFileRegex_test app2 file = true
           → supportedFileRegex_test app1 file = true) →
  ∀ stats file entryPoint,
    sublist (add w app2 stats file entryPoint) (add w app1 stats file entryPoint).
Proof.
  intros Hexclude Hsupport stats.
  induction stats as [| |entries IH] using FsNode_entries_ind; intros file entryPoint.
  - cbn [add fileIsDir andb].
    destruct entryPoint; cbn [negb andb].
    + destruct (supportedFileRegex_test app2 file) eqn:E2; [|apply sublist_nil_l].
      now rewrite (Hsupport file E2).
    + destruct (isExcluded w app2 (normalizePath w file)) eqn:X2;
        [apply sublist_nil_l|].
      destruct (isExcluded w app1 (normalizePath w file)) eqn:X1;
        [rewrite (Hexclude _ X1) in X2; discriminate|].
      destruct (supportedFileRegex_test app2 file) eqn:E2; [|apply sublist_nil_l].
      now rewrite (Hsupport file E2).
  - constructor.
  - cbn [add fileIsDir].
    set (dir := if true && negb (endsWith file "/") then file +:+ "/" else file).
    assert (Hinner : sublist
              (flat_map (fun entry => add w app2 (snd entry)
                                        (Path_join w dir (fst entry)) false) entries)
              (flat_map (fun entry => add w app1 (snd entry)
                                        (Path_join w dir (fst entry)) false) entries)).
    { apply sublist_flat_map. eapply Forall_impl; [exact IH|].
      cbn. intros entry Hentry. apply Hentry. }
    destruct entryPoint; cbn [negb andb]; [exact Hinner|].
    destruct (isExcluded w app2 (normalizePath w dir)) eqn:X2;
      [apply sublist_nil_l|].
    destruct (isExcluded w app1 (normalizePath w dir)) eqn:X1;
      [rewrite (Hexclude _ X1) in X2; discriminate|].
    exact Hinner.
Qed.

Lemma expandInputFiles_monotone w app1 app2 inputFiles :
  (∀ file, isExcluded w app1 file = true → isExcluded w app2 file = true) →
  (∀ file, supportedFileRegex_test app2 file = true
           → supportedFileRegex_test app1 file = true) →
  sublist (fst (expandInputFiles w app2 inputFiles))
          (fst (expandInputFiles w app1 inputFiles))
  ∧ snd (expandInputFiles w app2 inputFiles) = snd (expandInputFiles w app1 inputFiles).
Proof.
  intros Hexclude Hsupport. split.
  - rewrite !expandInputFiles_fst. apply sublist_flat_map.
    apply Forall_forall. intros file _. unfold expansionOf.
    destruct (FS_lookup w (Path_resolve w [file])); [|constructor].
    now apply add_monotone.
  - now rewrite !expandInputFiles_snd.
Qed.

(** X7.  Exclude patterns only remove: with the same compiler options,
    adding patterns to [exclude] leaves a sublist of the files found before,
    in the same order, and changes no warning. *)
Theorem more_excludes_fewer_files
    (w : World) (app1 app2 : Application) (inputFiles : list string) :
  (∀ pattern, In pattern (exclude app1) → In pattern (exclude app2)) →
  options_getCompilerOptions app2 = options_getCompilerOptions app1 →
  sublist (fst (expandInputFiles w app2 inputFiles))
          (fst (expandInputFiles w app1 inputFiles))
  ∧ snd (expandInputFiles w app2 inputFiles) = snd (expandInputFiles w app1 inputFiles).
Proof.
  intros Hpatterns Hoptions. apply expandInputFiles_monotone.
  - intros file. unfold isExcluded. rewrite !existsb_exists.
    intros (pattern & Hin & Hmatch). exists pattern. split; [now apply Hpatterns|exact Hmatch].
  - intros file. unfold supportedFileRegex_test. now rewrite Hoptions.
Qed.

(** X8.  [allowJs] and [checkJs] only add: with the same exclude patterns,
    the files found when neither option is set are a sublist, in the same
    order, of the files found under any other compiler options. *)
Theorem allowJs_only_adds_files
    (w : World) (app1 app2 : Application) (inputFiles : list string) :
  exclude app2 = exclude app1 →
  truthy (co_allowJs (options_getCompilerOptions app1)) = false →
  truthy (co_checkJs (options_getCompilerOptions app1)) = false →
  sublist (fst (expandInputFiles w app1 inputFiles))
          (fst (expandInputFiles w app2 inputFiles)).
Proof.
  intros Hexclude HallowJs HcheckJs.
  apply (expandInputFiles_monotone w app2 app1).
  - intros file. unfold isExcluded. now rewrite Hexclude.
  - intros file. unfold supportedFileRegex_test.
    rewrite HallowJs, HcheckJs. cbn [orb]. intros Hts.
    destruct (truthy _ || truthy _); [|exact Hts].
    unfold test_tjs_regex. unfold test_ts_regex in Hts.
    apply orb_true_iff in Hts. destruct Hts as [-> | ->]; cbn;
      now rewrite ?orb_true_r.
Qed.

(** *** The watch session *)

Lemma clearScreens_app (t1 t2 : list Effect) :
  clearScreens (t1 ++ t2) = clearScreens t1 + clearScreens t2.
Proof. unfold clearScreens. now rewrite List.filter_app, length_app. Qed.

Lemma errorResets_app (t1 t2 : list Effect) :
  errorResets (t1 ++ t2) = errorResets t1 + errorResets t2.
Proof. unfold errorResets. now rewrite List.filter_app, length_app. Qed.

Lemma statusWrites_app (t1 t2 : list Effect) :
  statusWrites (t1 ++ t2) = statusWrites t1 ++ statusWrites t2.
Proof. unfold statusWrites. apply flat_map_app. Qed.

Lemma onlyLogs_clearScreens (t : list Effect) : Forall isLog t → clearScreens t = 0.
Proof.
  induction 1 as [|e t He _ IH]; [reflexivity|].
  destruct e; try contradiction; exact IH.
Qed.

Lemma onlyLogs_errorResets (t : list Effect) : Forall isLog t → errorResets t = 0.
Proof.
  induction 1 as [|e t He _ IH]; [reflexivity|].
  destruct e; try contradiction; exact IH.
Qed.

Lemma clearScreens_rebuildTrace w app tsconfigFile current :
  clearScreens (rebuildTrace w app tsconfigFile current) = 0.
Proof.
  unfold rebuildTrace. rewrite !clearScreens_app.
  now rewrite (onlyLogs_clearScreens _ (onlyLogs_watchEntrypoints w app tsconfigFile current)).
Qed.

Lemma errorResets_rebuildTrace w app tsconfigFile current :
  errorResets (rebuildTrace w app tsconfigFile current) = 1.
Proof.
  unfold rebuildTrace. rewrite !errorResets_app.
  now rewrite (onlyLogs_errorResets _ (onlyLogs_watchEntrypoints w app tsconfigFile current)).
Qed.

Lemma statusWrites_watchEntrypoints w app tsconfigFile current :
  statusWrites (snd (watchEntrypoints w app tsconfigFile current)) = [].
Proof.
  unfold watchEntrypoints. rewrite bind_snd, statusWrites_app.
  rewrite expandInputFiles_snd, forEach_snd.
  assert (H1 : ∀ l : list string,
            statusWrites (map (fun file => Log LWarn (notExistWarning file) []) l) = []).
  { induction l as [|x l IH]; [reflexivity|exact IH]. }
  rewrite H1. cbn [List.app].
  induction (map (normalizePath w) (fst (expandInputFiles w app (entryPoints app))))
    as [|file rest IH]; [reflexivity|].
  cbn [flat_map]. rewrite statusWrites_app, IH.
  now destruct (getSourceFile current file).
Qed.

Lemma statusWrites_rebuildTrace w app tsconfigFile current :
  statusWrites (rebuildTrace w app tsconfigFile current) = [].
Proof.
  unfold rebuildTrace. rewrite !statusWrites_app, statusWrites_watchEntrypoints.
  reflexivity.
Qed.

Lemma reportWatchStatus_trace app st statusText errorCount :
  reportWatchStatus app st statusText errorCount
  = ({| successFinished := successFinished st;
        currentProgram := currentProgram st;
        firstStatusReport := false |},
     (if shouldClear app st errorCount then [ClearScreen] else [])
     ++ [Log LWrite statusText []]).
Proof.
  unfold reportWatchStatus, shouldClear.
  now destruct (negb (firstStatusReport st) && _ && _ && _).
Qed.

(** What a step does to the screen, the error counter, the status line and
    the flag [firstStatusReport]. *)
Lemma watchStep_housekeeping w app tsconfigFile st ev :
  clearScreens (snd (watchStep w app tsconfigFile st ev))
  = match ev with
    | WatchStatus _ errorCount => if shouldClear app st errorCount then 1 else 0
    | _ => 0
    end
  ∧ statusWrites (snd (watchStep w app tsconfigFile st ev))
    = match ev with WatchStatus statusText _ => [statusText] | _ => [] end
  ∧ firstStatusReport (fst (watchStep w app tsconfigFile st ev))
    = match ev with WatchStatus _ _ => false | _ => firstStatusReport st end
  ∧ errorResets (snd (watchStep w app tsconfigFile st ev))
    = length (conversions (snd (watchStep w app tsconfigFile st ev)))
  ∧ successCalls (snd (watchStep w app tsconfigFile st ev))
    = map (converter_convert w) (conversions (snd (watchStep w app tsconfigFile st ev))).
Proof.
  destruct ev as [p| |statusText errorCount]; cbn [watchStep].
  - rewrite afterProgramCreate_spec.
    destruct (hasDiagnostics p); [now repeat split|].
    destruct (successFinished st); [|now repeat split].
    cbn [fst snd].
    rewrite clearScreens_app, statusWrites_app, errorResets_app, conversions_app,
      successCalls_app.
    rewrite clearScreens_rebuildTrace, statusWrites_rebuildTrace,
      errorResets_rebuildTrace, conversions_rebuildTrace, successCalls_rebuildTrace.
    now repeat split.
  - rewrite successThen_spec.
    destruct (currentProgram st) as [p|]; [|now repeat split].
    cbn [fst snd].
    rewrite clearScreens_rebuildTrace, statusWrites_rebuildTrace,
      errorResets_rebuildTrace, conversions_rebuildTrace, successCalls_rebuildTrace.
    now repeat split.
  - rewrite reportWatchStatus_trace. cbn [fst snd].
    destruct (shouldClear app st errorCount); now repeat split.
Qed.

Lemma shouldClear_quiet app st errorCount :
  opt_preserveWatchOutput (options app) = true ∨ loggerIsConsoleLogger app = false →
  shouldClear app st errorCount = false.
Proof.
  unfold shouldClear. intros [-> | ->]; cbn;
    now rewrite ?andb_false_r.
Qed.

Lemma watchRun_quiet app tsconfigFile st events :
  opt_preserveWatchOutput (options app) = true ∨ loggerIsConsoleLogger app = false →
  clearScreens (snd (watchRun app tsconfigFile st events)) = 0.
Proof.
  intros Hquiet. revert st.
  induction events as [|[w ev] events IH]; intros st; [reflexivity|].
  cbn [watchRun]. rewrite bind_snd, clearScreens_app, IH.
  destruct (watchStep_housekeeping w app tsconfigFile st ev) as (Hclear & _).
  rewrite Hclear. destruct ev; try reflexivity.
  now rewrite shouldClear_quiet.
Qed.

Lemma convertAndWatch_clearScreens w app :
  clearScreens (snd (convertAndWatch w app))
  = if negb (opt_preserveWatchOutput (options app)) && loggerIsConsoleLogger app
    then 1 else 0.
Proof.
  unfold convertAndWatch, logVersion, when.
  destruct (negb (opt_preserveWatchOutput (options app)) && loggerIsConsoleLogger app);
    destruct (negb (existsb (λ version, String.eqb version (ts_versionMajorMinor w))
                      (supportedVersionMajorMinor w)));
    destruct (Object_keys_length (options_getCompilerOptions app) =? 0)%nat;
    destruct (length (options_getFileNames app) =? 0)%nat;
    destruct (negb (length (options_getValue_packages app) =? 0)%nat);
    reflexivity.
Qed.

(** X9.  With [preserveWatchOutput] set, or with a logger that is not the
    console logger, a watch session never clears the screen: not when it
    starts and not for any status the TypeScript watch host reports. *)
Theorem preserveWatchOutput_never_clears
    (w : World) (app : Application) (events : list (World * WatchEvent)) :
  opt_preserveWatchOutput (options app) = true ∨ loggerIsConsoleLogger app = false →
  clearScreens (snd (watchSession w app events)) = 0.
Proof.
  intros Hquiet. unfold watchSession. rewrite bind_snd, clearScreens_app.
  rewrite convertAndWatch_clearScreens.
  assert (Hstart : negb (opt_preserveWatchOutput (options app))
                   && loggerIsConsoleLogger app = false).
  { destruct Hquiet as [-> | ->]; [reflexivity|apply andb_false_r]. }
  rewrite Hstart. cbn [Nat.add].
  destruct (fst (convertAndWatch w app)) as [[tsconfigFile st]|]; [|reflexivity].
  rewrite bind_snd, clearScreens_app, watchRun_quiet by assumption. reflexivity.
Qed.

Lemma statusTexts_cons w ev (events : list (World * WatchEvent)) :
  statusTexts ((w, ev) :: events)
  = (if ev is WatchStatus statusText _ then [statusText] else []) ++ statusTexts events.
Proof. reflexivity. Qed.

Lemma watchRun_status app tsconfigFile st events :
  statusWrites (snd (watchRun app tsconfigFile st events)) = statusTexts events
  ∧ (clearScreens (snd (watchRun app tsconfigFile st events))
     + (if firstStatusReport st then 1 else 0)
     ≤ Nat.max (length (statusTexts events)) (if firstStatusReport st then 1 else 0))%nat
  ∧ (firstStatusReport (fst (watchRun app tsconfigFile st events)) = true
     → firstStatusReport st = true ∧ statusTexts events = []).
Proof.
  revert st. induction events as [|[w ev] events IH]; intros st.
  - cbn. repeat split; [lia|tauto].
  - cbn [watchRun]. rewrite bind_fst, bind_snd, statusWrites_app, clearScreens_app.
    destruct (watchStep_housekeeping w app tsconfigFile st ev)
      as (Hclear & Hwrites & Hfirst & _).
    destruct (IH (fst (watchStep w app tsconfigFile st ev))) as (IHw & IHc & IHf).
    rewrite Hwrites, IHw, Hclear. rewrite Hfirst in IHc, IHf.
    rewrite !statusTexts_cons.
    destruct ev as [p| |statusText errorCount].
    + cbn [List.app Nat.add]. split; [reflexivity|split; [exact IHc|exact IHf]].
    + cbn [List.app Nat.add]. split; [reflexivity|split; [exact IHc|exact IHf]].
    + split; [reflexivity|]. split.
      * cbn [List.app length] in *. unfold shouldClear.
        destruct (firstStatusReport st); cbn [negb andb]; [lia|].
        destruct (_ && _ && _); lia.
      * intros Hfalse. destruct (IHf Hfalse) as [Habsurd _]. discriminate.
Qed.

(** X10.  Every status the watch host reports is written once, in order,
    and the first report of a session never clears the screen: from a state
    in which no status was reported yet, the screen is cleared at most once
    per status after the first one. *)
Theorem first_status_report_keeps_screen
    (app : Application) (tsconfigFile : string) (st : WatchState)
    (events : list (World * WatchEvent)) :
  firstStatusReport st = true →
  statusWrites (snd (watchRun app tsconfigFile st events)) = statusTexts events
  ∧ (clearScreens (snd (watchRun app tsconfigFile st events))
     ≤ length (statusTexts events) - 1)%nat.
Proof.
  intros Hfirst.
  destruct (watchRun_status app tsconfigFile st events) as (Hwrites & Hclears & _).
  split; [exact Hwrites|]. rewrite Hfirst in Hclears. lia.
Qed.

(** X11.  In watch mode every conversion is announced and delivered exactly
    once, whatever happens to the world between the events: the run resets
    the logger's error count once per conversion and calls [success] once
    per conversion; and if the converter stays the same throughout (the
    file system, the compiler and everything else may change), the projects
    handed to [success] are the converter's results for the converted entry
    points, in the order of the conversions. *)
Theorem watch_delivers_every_conversion
    (app : Application) (tsconfigFile : string) (st : WatchState)
    (events : list (World * WatchEvent)) :
  errorResets (snd (watchRun app tsconfigFile st events))
  = length (conversions (snd (watchRun app tsconfigFile st events)))
  ∧ length (successCalls (snd (watchRun app tsconfigFile st events)))
    = length (conversions (snd (watchRun app tsconfigFile st events)))
  ∧ ∀ converter : list DocumentationEntrypoint → ProjectReflection,
      Forall (fun e => ∀ eps, converter_convert (fst e) eps = converter eps) events →
      successCalls (snd (watchRun app tsconfigFile st events))
      = map converter (conversions (snd (watchRun app tsconfigFile st events))).
Proof.
  revert st. induction events as [|[w0 ev] events IH]; intros st.
  - cbn. repeat split.
  - cbn [watchRun].
    rewrite bind_snd, errorResets_app, successCalls_app, conversions_app.
    destruct (watchStep_housekeeping w0 app tsconfigFile st ev)
      as (_ & _ & _ & Hresets & Hcalls).
    destruct (IH (fst (watchStep w0 app tsconfigFile st ev))) as (IHr & IHl & IHc).
    rewrite !length_app, Hresets, IHr, IHl, Hcalls, length_map.
    split; [reflexivity|]. split; [reflexivity|].
    intros converter Hconverter. apply Forall_cons in Hconverter.
    destruct Hconverter as [Hw0 Hevents]. cbn [fst] in Hw0.
    rewrite map_app, (IHc converter Hevents). f_equal.
    apply map_ext. exact Hw0.
Qed.

Lemma watchStep_budget w app tsconfigFile st ev :
  storedOnlyWhilePending st →
  storedOnlyWhilePending (fst (watchStep w app tsconfigFile st ev))
  ∧ (length (conversions (snd (watchStep w app tsconfigFile st ev)))
     + (if successFinished (fst (watchStep w app tsconfigFile st ev)) then 1 else 0)
     ≤ (if successFinished st then 1 else 0)
       + (if isSuccessSettled ev then 1 else 0))%nat.
Proof.
  unfold storedOnlyWhilePending. intros Hst.
  destruct ev as [p| |statusText errorCount]; cbn [watchStep isSuccessSettled].
  - rewrite afterProgramCreate_spec.
    destruct (hasDiagnostics p); cbn [fst snd].
    + split; [exact Hst|]. cbn. lia.
    + destruct (successFinished st) eqn:Efin; cbn [fst snd].
      * split; [discriminate|].
        rewrite conversions_app, conversions_rebuildTrace. cbn. lia.
      * split; [discriminate|]. cbn. lia.
  - rewrite successThen_spec.
    destruct (currentProgram st) as [p|] eqn:Ecur; cbn [fst snd].
    + split; [discriminate|].
      rewrite conversions_rebuildTrace.
      destruct (successFinished st) eqn:Efin; [|cbn; lia].
      specialize (Hst eq_refl). discriminate.
    + split; [reflexivity|]. cbn. destruct (successFinished st); lia.
  - rewrite reportWatchStatus_trace. cbn [fst snd successFinished currentProgram].
    split; [exact Hst|].
    rewrite conversions_app.
    destruct (shouldClear app st errorCount); cbn; lia.
Qed.

(** X12.  Conversions never overlap in watch mode: a new conversion starts
    only after the [success] callback of the previous one has settled, so
    the number of conversions started never exceeds the number of settled
    callbacks plus one, and whenever no callback is pending no program is
    left waiting. *)
Theorem conversions_wait_for_success
    (app : Application) (tsconfigFile : string) (st : WatchState)
    (events : list (World * WatchEvent)) :
  storedOnlyWhilePending st →
  storedOnlyWhilePending (fst (watchRun app tsconfigFile st events))
  ∧ (length (conversions (snd (watchRun app tsconfigFile st events)))
     + (if successFinished (fst (watchRun app tsconfigFile st events)) then 1 else 0)
     ≤ (if successFinished st then 1 else 0) + settles events)%nat.
Proof.
  revert st. induction events as [|[w ev] events IH]; intros st Hst.
  - cbn. split; [exact Hst|lia].
  - cbn [watchRun]. rewrite bind_fst, bind_snd, conversions_app, length_app.
    destruct (watchStep_budget w app tsconfigFile st ev Hst) as [Hst' Hstep].
    destruct (IH _ Hst') as [Hfinal Hrest].
    split; [exact Hfinal|].
    unfold settles in *. cbn [List.filter snd].
    destruct (isSuccessSettled ev); cbn [length] in *; lia.
Qed.

Lemma convertAndWatch_supported w app :
  options_getFileNames app ≠ [] →
  options_getValue_packages app = [] →
  fst (convertAndWatch w app) = Some (watchedTsconfig w app, initialWatchState)
  ∧ last (snd (convertAndWatch w app))
    = Some (CreateWatchProgram (watchedTsconfig w app) (negb (opt_emit (options app))))
  ∧ watchProgramsCreated (snd (convertAndWatch w app)) = [watchedTsconfig w app]
  ∧ conversions (snd (convertAndWatch w app)) = []
  ∧ successCalls (snd (convertAndWatch w app)) = [].
Proof.
  intros Hfiles Hpackages. unfold convertAndWatch, logVersion, when.
  rewrite Hpackages. cbn [length Nat.eqb negb].
  destruct (options_getFileNames app) as [|name names] eqn:E; [contradiction|].
  cbn [length Nat.eqb].
  fold (watchedTsconfig w app).
  destruct (negb (opt_preserveWatchOutput (options app)) && loggerIsConsoleLogger app);
    destruct (negb (existsb (λ version, String.eqb version (ts_versionMajorMinor w))
                      (supportedVersionMajorMinor w)));
    destruct (Object_keys_length (options_getCompilerOptions app) =? 0)%nat;
    cbn; repeat split.
Qed.

(** X13.  [convertAndWatch] creates the watch program exactly when the
    tsconfig contributes file names and no packages are configured.  It
    then creates one watch program, as its last action, for the tsconfig
    file found from the [tsconfig] option (or [tsconfig.json] when none is
    found), with [noEmit] the negation of the [emit] option, and starts idle:
    nothing is converted before the host creates the first program. *)
Theorem watch_starts_when_supported (w : World) (app : Application) :
  (is_Some (fst (convertAndWatch w app))
   ↔ options_getFileNames app ≠ [] ∧ options_getValue_packages app = [])
  ∧ (options_getFileNames app ≠ [] →
     options_getValue_packages app = [] →
     fst (convertAndWatch w app) = Some (watchedTsconfig w app, initialWatchState)
     ∧ last (snd (convertAndWatch w app))
       = Some (CreateWatchProgram (watchedTsconfig w app)
                 (negb (opt_emit (options app))))
     ∧ watchProgramsCreated (snd (convertAndWatch w app)) = [watchedTsconfig w app]
     ∧ conversions (snd (convertAndWatch w app)) = []).
Proof.
  split.
  - split.
    + intros Hsome.
      destruct (options_getFileNames app) as [|name names] eqn:Efiles.
      * destruct (convertAndWatch_unsupported w app (or_introl Efiles)) as [Hnone _].
        rewrite Hnone in Hsome. destruct Hsome as [? ?]. discriminate.
      * split; [discriminate|].
        destruct (options_getValue_packages app) as [|pkg pkgs] eqn:Epackages;
          [reflexivity|].
        assert (Hne : options_getValue_packages app ≠ []) by (rewrite Epackages; discriminate).
        destruct (convertAndWatch_unsupported w app (or_intror Hne)) as [Hnone _].
        rewrite Hnone in Hsome. destruct Hsome as [? ?]. discriminate.
    + intros [Hfiles Hpackages].
      destruct (convertAndWatch_supported w app Hfiles Hpackages) as [Hsome _].
      rewrite Hsome. eauto.
  - intros Hfiles Hpackages.
    destruct (convertAndWatch_supported w app Hfiles Hpackages)
      as (H1 & H2 & H3 & H4 & _).
    now repeat split.
Qed.

(** *** The entry points handed to the converter *)

Lemma entryLoop_programs_consistent w baseDir file programs :
  Forall consistentEntrypoint (fst (entryLoop_programs w baseDir file programs)).
Proof.
  induction programs as [|p programs IH]; cbn [entryLoop_programs].
  - apply Forall_nil_2.
  - destruct (getSourceFile p file) as [sf|] eqn:E; [|exact IH].
    apply Forall_cons_2; [exact E|apply Forall_nil_2].
Qed.

Lemma Forall_flat_map_all {A B} (P : B → Prop) (f : A → list B) (l : list A) :
  (∀ x, Forall P (f x)) → Forall P (flat_map f l).
Proof.
  intros Hf. induction l as [|x l IH]; [apply Forall_nil_2|].
  cbn [flat_map]. apply Forall_app. split; [apply Hf|exact IH].
Qed.

Lemma getEntrypointsForPaths_consistent w app paths :
  Forall consistentEntrypoint (fst (getEntrypointsForPaths w app paths)).
Proof.
  unfold getEntrypointsForPaths. rewrite !bind_fst, forEach_fst.
  apply Forall_flat_map_all. intros file. apply entryLoop_programs_consistent.
Qed.

Lemma packagesEntrypoints_consistent w expanded eps :
  packagesEntrypoints w expanded = Some eps → Forall consistentEntrypoint eps.
Proof.
  revert eps. induction expanded as [|head rest IH]; intros eps; cbn [packagesEntrypoints].
  - intros [= <-]. apply Forall_nil_2.
  - destruct (packageEntrypoints w head) as [first|] eqn:Ehead; [|discriminate].
    destruct (packagesEntrypoints w rest) as [more|]; [|discriminate].
    intros [= <-]. apply Forall_app. split; [|now apply IH].
    unfold packageEntrypoints in Ehead.
    destruct (fst (loadPackageManifest w _)) as [packageJson|]; [|discriminate].
    destruct (fst (getTsEntryPointForPackage w _ packageJson)) as [| |entry];
      [discriminate|injection Ehead as <-; apply Forall_nil_2|].
    destruct (ts_findConfigFile w entry None) as [tsconfigFile|]; [|discriminate].
    destruct (ts_getParsedCommandLineOfConfigFile w tsconfigFile)
      as [[parsed|] [|d ds]]; try discriminate.
    destruct (getSourceFile _ entry) as [sf|] eqn:Esf; [|discriminate].
    injection Ehead as <-.
    apply Forall_cons_2; [exact Esf|apply Forall_nil_2].
Qed.

Lemma collectEntrypoints_consistent w app eps :
  fst (collectEntrypoints w app) = Some eps → Forall consistentEntrypoint eps.
Proof.
  unfold collectEntrypoints. rewrite bind_fst.
  destruct (fst (getEntrypointsForPackages w _)) as [fromPackages|] eqn:Epackages;
    [|discriminate].
  assert (Hpackages : Forall consistentEntrypoint fromPackages).
  { unfold getEntrypointsForPackages in Epackages.
    rewrite bind_fst, getEntrypointsForPackages_loop_fst in Epackages.
    destruct (packagesEntrypoints w _) as [found|] eqn:Efound; [|discriminate].
    injection Epackages as <-. cbn [List.app].
    exact (packagesEntrypoints_consistent w _ _ Efound). }
  destruct (length fromPackages =? 0)%nat.
  - rewrite bind_fst. cbn [ret fst]. intros [= <-].
    apply Forall_app. split; [exact Hpackages|].
    apply getEntrypointsForPaths_consistent.
  - cbn [ret fst]. now intros [= <-].
Qed.

Lemma watchEntrypoints_consistent w app tsconfigFile current :
  Forall consistentEntrypoint (fst (watchEntrypoints w app tsconfigFile current)).
Proof.
  unfold watchEntrypoints. rewrite bind_fst, forEach_fst.
  apply Forall_flat_map_all. intros file.
  destruct (getSourceFile current file) as [sf|] eqn:E; cbn.
  - apply Forall_cons_2; [exact E|apply Forall_nil_2].
  - apply Forall_nil_2.
Qed.

Lemma convert_conversions w app :
  conversions (snd (convert w app))
  = match fst (collectEntrypoints w app) with
    | Some eps =>
        if (length (flatMap (map program eps) preEmitDiagnostics) =? 0)%nat
        then [eps] else []
    | None => []
    end.
Proof.
  destruct (convert_split w app) as [_ Hsnd].
  rewrite Hsnd, !conversions_app.
  rewrite (onlyLogs_conversions _ (onlyLogs_convertPrefix w app)).
  rewrite (onlyLogs_conversions _ (onlyLogs_collectEntrypoints w app)).
  destruct (fst (collectEntrypoints w app)) as [eps|]; [|reflexivity].
  rewrite convertFrom_spec.
  destruct (length (flatMap (map program eps) preEmitDiagnostics) =? 0)%nat;
    cbn [snd]; [|reflexivity].
  rewrite !conversions_app, conversions_map_emit. reflexivity.
Qed.

Lemma watchRun_consistent app tsconfigFile st events :
  Forall (Forall consistentEntrypoint)
    (conversions (snd (watchRun app tsconfigFile st events))).
Proof.
  revert st. induction events as [|[w ev] events IH]; intros st; [apply Forall_nil_2|].
  cbn [watchRun]. rewrite bind_snd, conversions_app. apply Forall_app.
  split; [|apply IH].
  assert (Hrebuild : ∀ p, Forall (Forall consistentEntrypoint)
                            (conversions (rebuildTrace w app tsconfigFile p))).
  { intros p. rewrite conversions_rebuildTrace.
    apply Forall_cons_2; [apply watchEntrypoints_consistent|apply Forall_nil_2]. }
  destruct ev as [p| |statusText errorCount]; cbn [watchStep].
  - rewrite afterProgramCreate_spec.
    destruct (hasDiagnostics p); [apply Forall_nil_2|].
    destruct (successFinished st); [|apply Forall_nil_2].
    cbn [snd]. rewrite conversions_app. apply Forall_app.
    split; [apply Hrebuild|apply Forall_nil_2].
  - rewrite successThen_spec.
    destruct (currentProgram st) as [p|]; [apply Hrebuild|apply Forall_nil_2].
  - rewrite reportWatchStatus_trace. cbn [snd]. rewrite conversions_app.
    destruct (shouldClear app st errorCount); apply Forall_nil_2.
Qed.

(** X14.  Every entry point the application hands to the converter, in a
    single run or in watch mode, from a package or from a file, is
    consistent: its source file is the one its program holds at its path. *)
Theorem converter_receives_consistent_entry_points
    (w : World) (app : Application) (tsconfigFile : string) (st : WatchState)
    (events : list (World * WatchEvent)) :
  Forall (Forall consistentEntrypoint) (conversions (snd (convert w app)))
  ∧ Forall (Forall consistentEntrypoint)
      (conversions (snd (watchRun app tsconfigFile st events))).
Proof.
  split; [|apply watchRun_consistent].
  rewrite convert_conversions.
  destruct (fst (collectEntrypoints w app)) as [eps|] eqn:E; [|apply Forall_nil_2].
  destruct (length _ =? 0)%nat; [|apply Forall_nil_2].
  apply Forall_cons_2; [|apply Forall_nil_2].
  now apply collectEntrypoints_consistent with w app.
Qed.

(** *** The version check *)

Lemma logVersion_warnings w :
  warnings (snd (logVersion w))
  = if versionSupported w then [] else [unsupportedVersionWarning w].
Proof.
  unfold logVersion, versionSupported, when.
  now destruct (existsb _ (supportedVersionMajorMinor w)).
Qed.

(** X15.  An unsupported TypeScript version only warns.  [convert] logs the
    warning that names the supported versions exactly when the running
    [ts.versionMajorMinor] is not among them, and apart from that warning
    it behaves the same under any version: the same result and, after the
    version lines, the same effects. *)
Theorem unsupported_version_only_warns
    (w : World) (app : Application) (versionMajorMinor : string)
    (supported : list string) :
  let w' := withVersions w versionMajorMinor supported in
  warnings (snd (logVersion w))
  = (if versionSupported w then [] else [unsupportedVersionWarning w])
  ∧ fst (convert w' app) = fst (convert w app)
  ∧ ∃ rest,
      snd (convert w app) = snd (logVersion w) ++ rest
      ∧ snd (convert w' app) = snd (logVersion w') ++ rest.
Proof.
  intros w'. split; [apply logVersion_warnings|].
  split; [reflexivity|].
  eexists. split; reflexivity.
Qed.

(** *** [getModuleName] *)

Lemma append_cons (c : ascii) (a b : string) :
  String c a +:+ b = String c (a +:+ b).
Proof. reflexivity. Qed.

Lemma append_nil_l (b : string) : EmptyString +:+ b = b.
Proof. reflexivity. Qed.

Lemma length_append (a b : string) :
  String.length (a +:+ b) = String.length a + String.length b.
Proof.
  induction a as [|c a IH]; [reflexivity|].
  rewrite append_cons. cbn [String.length]. now rewrite IH.
Qed.

Lemma substring_all (s : string) : String.substring 0 (String.length s) s = s.
Proof. induction s as [|c s IH]; [reflexivity|]. cbn. now rewrite IH. Qed.

Lemma substring_split (s : string) (k : nat) :
  (k ≤ String.length s)%nat →
  s = String.substring 0 k s +:+ String.substring k (String.length s - k) s.
Proof.
  revert k. induction s as [|c s IH]; intros k Hk.
  - cbn in Hk. assert (k = 0) as -> by lia. reflexivity.
  - destruct k as [|k].
    + cbn [String.substring String.length Nat.sub].
      now rewrite append_nil_l, substring_all.
    + cbn [String.substring String.length Nat.sub].
      rewrite append_cons. f_equal. apply IH. cbn in Hk. lia.
Qed.

Lemma substring_append_r (a b : string) :
  String.substring (String.length a) (String.length b) (a +:+ b) = b.
Proof.
  induction a as [|c a IH]; [apply substring_all|].
  rewrite append_cons. exact IH.
Qed.

Lemma endsWith_true (s suffix : string) :
  endsWith s suffix = true →
  s = String.substring 0 (String.length s - String.length suffix) s +:+ suffix.
Proof.
  unfold endsWith. intros H. apply andb_true_iff in H. destruct H as [Hle Heq].
  apply Nat.leb_le in Hle. apply String.eqb_eq in Heq.
  pose proof (substring_split s (String.length s - String.length suffix)
                ltac:(lia)) as Hsplit.
  replace (String.length s - (String.length s - String.length suffix))
    with (String.length suffix) in Hsplit by lia.
  rewrite Heq in Hsplit. exact Hsplit.
Qed.

Lemma endsWith_iff (s suffix : string) :
  endsWith s suffix = true ↔ ∃ front, s = front +:+ suffix.
Proof.
  split.
  - intros H. eexists. now apply endsWith_true.
  - intros [front ->]. unfold endsWith. rewrite length_append.
    apply andb_true_iff. split.
    + apply Nat.leb_le. lia.
    + apply String.eqb_eq.
      replace (String.length front + String.length suffix - String.length suffix)
        with (String.length front) by lia.
      apply substring_append_r.
Qed.

Lemma dropSuffix_Some (s suffix stripped : string) :
  dropSuffix s suffix = Some stripped → s = stripped +:+ suffix.
Proof.
  unfold dropSuffix. destruct (endsWith s suffix) eqn:E; [|discriminate].
  intros [= <-]. now apply endsWith_true.
Qed.

Lemma dropFirstSuffix_prefix (s : string) (suffixes : list string) :
  dropFirstSuffix s suffixes = s
  ∨ ∃ suffix, In suffix suffixes ∧ s = dropFirstSuffix s suffixes +:+ suffix.
Proof.
  induction suffixes as [|suffix rest IH]; [now left|].
  cbn [dropFirstSuffix]. destruct (dropSuffix s suffix) as [stripped|] eqn:E.
  - right. exists suffix. split; [now left|]. now apply dropSuffix_Some.
  - destruct IH as [IH|(found & Hin & Hfound)]; [now left|].
    right. exists found. split; [now right|exact Hfound].
Qed.

Lemma dropFirstSuffix_none (s : string) (suffixes : list string) :
  Forall (fun suffix => endsWith s suffix = false) suffixes →
  dropFirstSuffix s suffixes = s.
Proof.
  induction 1 as [|suffix rest Hsuffix _ IH]; [reflexivity|].
  cbn [dropFirstSuffix]. unfold dropSuffix. now rewrite Hsuffix.
Qed.

Lemma dropFirstSuffix_some (s : string) (suffixes : list string) :
  Exists (fun suffix => endsWith s suffix = true) suffixes →
  ∃ suffix, In suffix suffixes ∧ s = dropFirstSuffix s suffixes +:+ suffix.
Proof.
  induction 1 as [suffix rest Hsuffix|suffix rest _ IH].
  - cbn [dropFirstSuffix]. unfold dropSuffix at 1.
    rewrite Hsuffix. exists suffix. split; [now left|].
    apply dropSuffix_Some. unfold dropSuffix. now rewrite Hsuffix.
  - cbn [dropFirstSuffix]. destruct (dropSuffix s suffix) as [stripped|] eqn:E.
    + exists suffix. split; [now left|]. now apply dropSuffix_Some.
    + destruct IH as (found & Hin & Hfound). exists found.
      split; [now right|exact Hfound].
Qed.

Lemma endsWith_append_suffix (s a b : string) :
  endsWith s (a +:+ b) = true → endsWith s b = true.
Proof.
  rewrite !endsWith_iff. intros [front ->]. exists (front +:+ a).
  clear. induction front as [|c front IH]; [reflexivity|].
  rewrite !append_cons. now rewrite IH.
Qed.

Lemma moduleSuffixes_source (s suffix : string) :
  In suffix moduleSuffixes → endsWith s suffix = true → test_tjs_regex s = true.
Proof.
  unfold moduleSuffixes, test_tjs_regex. cbn [flat_map map List.app].
  intros Hin Hends.
  assert (Hext : endsWith s ".ts" = true ∨ endsWith s ".tsx" = true
                 ∨ endsWith s ".js" = true ∨ endsWith s ".jsx" = true).
  { repeat (destruct Hin as [<- | Hin];
            [first [ left; exact (endsWith_append_suffix s _ ".ts" Hends)
                   | right; left; exact (endsWith_append_suffix s _ ".tsx" Hends)
                   | right; right; left; exact (endsWith_append_suffix s _ ".js" Hends)
                   | right; right; right; exact (endsWith_append_suffix s _ ".jsx" Hends)
                   | left; exact Hends
                   | right; left; exact Hends
                   | right; right; left; exact Hends
                   | right; right; right; exact Hends ]
            |]).
    contradiction. }
  destruct Hext as [-> | [-> | [-> | ->]]]; now rewrite ?orb_true_r.
Qed.

(** X16.  The display name of a file entry point is its normalized path
    relative to the base directory with the source suffix removed: when the
    relative path does not end in [.ts], [.tsx], [.js] or [.jsx] it is the
    name unchanged, and otherwise the name is the path without one of the
    sixteen suffixes [(/index)(.d).(t|j)s(x)], so it is always a proper
    prefix of the path. *)
Theorem module_name_drops_source_suffix
    (w : World) (fileName baseDir : string) :
  replaceModuleSuffix w = replaceModuleSuffix_regex →
  let relative := normalizePath w (Path_relative w baseDir fileName) in
  (test_tjs_regex relative = false → getModuleName w fileName baseDir = relative)
  ∧ (test_tjs_regex relative = true →
     ∃ suffix,
       In suffix moduleSuffixes
       ∧ relative = getModuleName w fileName baseDir +:+ suffix
       ∧ (String.length (getModuleName w fileName baseDir)
          < String.length relative)%nat).
Proof.
  intros Hregex relative. unfold getModuleName. fold relative.
  rewrite Hregex. unfold replaceModuleSuffix_regex. split.
  - intros Hother. apply dropFirstSuffix_none. apply Forall_forall.
    intros suffix Hin. apply list_elem_of_In in Hin.
    destruct (endsWith relative suffix) eqn:E; [|reflexivity].
    rewrite (moduleSuffixes_source relative suffix Hin E) in Hother. discriminate.
  - intros Hsource.
    assert (Hmatch : Exists (fun suffix => endsWith relative suffix = true)
                       moduleSuffixes).
    { unfold test_tjs_regex in Hsource. apply Exists_exists.
      repeat (apply orb_true_iff in Hsource; destruct Hsource as [Hsource|Hsource]).
      - exists (EmptyString +:+ ".ts"). split; [|exact Hsource].
        apply list_elem_of_In. unfold moduleSuffixes. cbn [flat_map map List.app].
        do 12 right. now left.
      - exists (EmptyString +:+ ".tsx"). split; [|exact Hsource].
        apply list_elem_of_In. unfold moduleSuffixes. cbn [flat_map map List.app].
        do 13 right. now left.
      - exists (EmptyString +:+ ".js"). split; [|exact Hsource].
        apply list_elem_of_In. unfold moduleSuffixes. cbn [flat_map map List.app].
        do 14 right. now left.
      - exists (EmptyString +:+ ".jsx"). split; [|exact Hsource].
        apply list_elem_of_In. unfold moduleSuffixes. cbn [flat_map map List.app].
        do 15 right. now left. }
    destruct (dropFirstSuffix_some relative moduleSuffixes Hmatch)
      as (suffix & Hin & Hsplit).
    exists suffix. split; [exact Hin|]. split; [exact Hsplit|].
    rewrite Hsplit at 2. rewrite length_append.
    assert (0 < String.length suffix)%nat; [|lia].
    clear -Hin. unfold moduleSuffixes in Hin. cbn [flat_map map List.app] in Hin.
    repeat (destruct Hin as [<- | Hin]; [vm_compute; lia|]). contradiction.
Qed.

(** The forms of the suffix: [index] is dropped only as a directory's index
    file, a declaration file loses [.d] too, and only the last extension
    goes. *)
Example module_name_examples :
  map replaceModuleSuffix_regex
    [ "src/index.ts"; "src/lib/types.d.ts"; "index.ts"; "a/index.d.tsx";
      "app.jsx"; "README.md"; "a.ts.ts" ]
  = [ "src"; "src/lib/types"; "index"; "a"; "app"; "README.md"; "a.ts" ].
Proof. reflexivity. Qed.

Lemma module_name_drops_source_suffix_witness :
  (∃ suffix,
     In suffix moduleSuffixes
     ∧ "src/index.d.ts"
       = getModuleName SampleMore.world "/proj/src/index.d.ts" "/proj" +:+ suffix
     ∧ (String.length (getModuleName SampleMore.world "/proj/src/index.d.ts" "/proj")
        < String.length "src/index.d.ts")%nat)
  ∧ getModuleName SampleMore.world "/proj/README.md" "/proj" = "README.md".
Proof.
  split.
  - destruct (module_name_drops_source_suffix SampleMore.world
                "/proj/src/index.d.ts" "/proj" eq_refl) as [_ Hsource].
    exact (Hsource eq_refl).
  - destruct (module_name_drops_source_suffix SampleMore.world
                "/proj/README.md" "/proj" eq_refl) as [Hother _].
    exact (Hother eq_refl).
Defined.

(** *** Instances *)

(** Two entry points of one program with [emit] set: the program is emitted
    twice. *)
Lemma convert_emits_then_converts_witness :
  programEmits (snd (convert Sample.world SampleMore.appEmit))
  = [Sample.goodProgram; Sample.goodProgram]
  ∧ is_Some (fst (convert Sample.world SampleMore.appEmit)).
Proof.
  destruct (convert_emits_then_converts Sample.world SampleMore.appEmit)
    as [Hemits Hshape].
  split; [rewrite Hemits; reflexivity|].
  destruct (Hshape _ eq_refl eq_refl) as [Hfst _]. rewrite Hfst. eauto.
Defined.

(** Packages [good] and [ignored] with the entry point [missing.ts]: the
    entry point of [good] is converted and [missing.ts] is never reported. *)
Lemma packages_replace_file_entry_points_witness :
  map (map path) (conversions (snd (convert SampleMore.world SampleMore.appPackages)))
  = [["/proj/src/a.ts"]]
  ∧ warnings (snd (convert SampleMore.world SampleMore.appPackages)) = [].
Proof.
  edestruct (packages_replace_file_entry_points SampleMore.world
               SampleMore.appPackages) as (_ & Hconv & Hwarn).
  - reflexivity.
  - discriminate.
  - split; [rewrite Hconv|rewrite Hwarn]; reflexivity.
Defined.

Lemma convert_without_entry_points_witness :
  fst (convert Sample.world Sample.appMissing)
  = Some (converter_convert Sample.world [])
  ∧ conversions (snd (convert Sample.world Sample.appMissing)) = [[]].
Proof.
  destruct (convert_without_entry_points Sample.world Sample.appMissing eq_refl)
    as (Hfst & Hconv & _).
  - apply Forall_cons_2; [reflexivity|apply Forall_nil_2].
  - now split.
Defined.

Lemma more_excludes_fewer_files_witness :
  sublist ["/proj/src/a.ts"] ["/proj/src/a.ts"; "/proj/src/gen/c.ts"].
Proof.
  refine (proj1 (more_excludes_fewer_files Sample.world SampleMore.appOnePattern
                   SampleMore.appTwoPatterns ["src"] _ eq_refl)).
  intros pattern [<- | []]. right. now left.
Defined.

Lemma allowJs_only_adds_files_witness :
  sublist ["/proj/lib/main.ts"] ["/proj/lib/main.ts"; "/proj/lib/util.js"].
Proof.
  exact (allowJs_only_adds_files SampleMore.world SampleMore.appLib
           SampleMore.appAllowJs ["lib"] eq_refl eq_refl eq_refl).
Defined.

Lemma preserveWatchOutput_never_clears_witness :
  clearScreens
    (snd (watchSession Sample.world SampleMore.appPreserve SampleMore.session)) = 0.
Proof.
  apply preserveWatchOutput_never_clears. now left.
Defined.

Lemma first_status_report_keeps_screen_witness :
  statusWrites
    (snd (watchRun Sample.app "tsconfig.json" initialWatchState SampleMore.session))
  = [ "Starting compilation in watch mode...";
      "Found 0 errors. Watching for file changes.";
      "File change detected. Starting incremental compilation..." ]
  ∧ (clearScreens
       (snd (watchRun Sample.app "tsconfig.json" initialWatchState SampleMore.session))
     ≤ 2)%nat.
Proof.
  exact (first_status_report_keeps_screen Sample.app "tsconfig.json"
           initialWatchState SampleMore.session eq_refl).
Defined.

(** The directory [src] disappears between the two conversions of the
    session: the first converts [a.ts] and [b.ts], the second nothing, and
    each result is handed to [success]. *)
Lemma watch_delivers_every_conversion_witness :
  map (map path)
    (conversions
       (snd (watchRun Sample.app "tsconfig.json" initialWatchState
               SampleSolution.changingSession)))
  = [ ["/proj/src/a.ts"; "/proj/src/b.ts"]; [] ]
  ∧ errorResets
      (snd (watchRun Sample.app "tsconfig.json" initialWatchState
              SampleSolution.changingSession)) = 2
  ∧ successCalls
      (snd (watchRun Sample.app "tsconfig.json" initialWatchState
              SampleSolution.changingSession))
    = map ConverterModel.convert
        (conversions
           (snd (watchRun Sample.app "tsconfig.json" initialWatchState
                   SampleSolution.changingSession))).
Proof.
  assert (Hconverter :
    Forall (fun e : World * WatchEvent =>
              ∀ eps, converter_convert (fst e) eps = ConverterModel.convert eps)
      SampleSolution.changingSession).
  { repeat (apply Forall_cons_2; [intros eps; reflexivity|]). apply Forall_nil_2. }
  destruct (watch_delivers_every_conversion Sample.app "tsconfig.json"
              initialWatchState SampleSolution.changingSession)
    as (Hresets & _ & Hcalls).
  split; [reflexivity|]. split; [rewrite Hresets; reflexivity|].
  exact (Hcalls ConverterModel.convert Hconverter).
Defined.

Lemma conversions_wait_for_success_witness :
  (length
     (conversions
        (snd (watchRun Sample.app "tsconfig.json" initialWatchState
                SampleMore.session)))
   + 1 ≤ 1 + 2)%nat.
Proof.
  destruct (conversions_wait_for_success Sample.app "tsconfig.json"
              initialWatchState SampleMore.session (fun _ => eq_refl))
    as [_ Hbound].
  exact Hbound.
Defined.

Lemma watch_starts_when_supported_witness :
  fst (convertAndWatch Sample.world Sample.app)
  = Some ("/proj/tsconfig.json", initialWatchState)
  ∧ last (snd (convertAndWatch Sample.world Sample.app))
    = Some (CreateWatchProgram "/proj/tsconfig.json" true).
Proof.
  destruct (watch_starts_when_supported Sample.world Sample.app) as [_ Hstart].
  destruct Hstart as (Hfst & Hlast & _); [discriminate|reflexivity|].
  now split.
Defined.

(** *** A watch rebuild and a single run *)

Lemma watchEntrypoints_single_program w app tsconfigFile p :
  fst (createPrograms w app) = [p] →
  fst (watchEntrypoints w app tsconfigFile p)
  = fst (getEntrypointsForPaths w app (entryPoints app)).
Proof.
  intros Hprograms. unfold watchEntrypoints, getEntrypointsForPaths.
  rewrite !bind_fst, !forEach_fst, Hprograms.
  apply flat_map_ext. intros file. cbn [entryLoop_programs].
  now destruct (getSourceFile p file).
Qed.

Lemma clean_programs_no_diagnostics (p : Program) (eps : list DocumentationEntrypoint) :
  preEmitDiagnostics p = [] →
  Forall (fun ep => program ep = p) eps →
  flatMap (map program eps) preEmitDiagnostics = [].
Proof.
  intros Hclean. induction 1 as [|ep eps Hep _ IH]; [reflexivity|].
  unfold flatMap in *. cbn [map flat_map]. now rewrite Hep, Hclean, IH.
Qed.

(** X17.  Watch mode delivers what a single run returns.  When no packages
    contribute and the program the watch host creates is the one program a
    single run would search, and it has no diagnostics, the rebuild started
    by its arrival converts exactly the entry points [convert] converts, and
    the project handed to [success] is the project [convert] returns. *)
Theorem watch_rebuild_matches_single_run
    (w : World) (app : Application) (tsconfigFile : string) (p : Program) :
  fst (createPrograms w app) = [p] →
  preEmitDiagnostics p = [] →
  fst (getEntrypointsForPackages w
         (map (normalizePath w) (options_getValue_packages app))) = Some [] →
  let rebuild := afterProgramCreate w app tsconfigFile initialWatchState p in
  conversions (snd rebuild) = conversions (snd (convert w app))
  ∧ Some <$> successCalls (snd rebuild) = [fst (convert w app)].
Proof.
  intros Hprograms Hclean Hpackages rebuild.
  pose proof (watchEntrypoints_single_program w app tsconfigFile p Hprograms) as Hsame.
  assert (Hdiag : flatMap (map program (fst (getEntrypointsForPaths w app (entryPoints app))))
                    preEmitDiagnostics = []).
  { apply (clean_programs_no_diagnostics p); [exact Hclean|].
    rewrite <- Hsame. apply watchEntrypoints_program. }
  destruct (convert_file_entry_points w app Hpackages Hdiag) as [Hfst Hconv].
  unfold rebuild. rewrite afterProgramCreate_spec.
  apply hasDiagnostics_false in Hclean. rewrite Hclean.
  cbn [initialWatchState successFinished snd].
  rewrite conversions_app, successCalls_app, conversions_rebuildTrace,
    successCalls_rebuildTrace, Hsame, Hfst, Hconv.
  split; reflexivity.
Qed.

Lemma watch_rebuild_matches_single_run_witness :
  conversions
    (snd (afterProgramCreate Sample.world Sample.app "tsconfig.json"
            initialWatchState Sample.goodProgram))
  = conversions (snd (convert Sample.world Sample.app)).
Proof.
  exact (proj1 (watch_rebuild_matches_single_run Sample.world Sample.app
                  "tsconfig.json" Sample.goodProgram eq_refl eq_refl eq_refl)).
Defined.

(** ** Entry points that cannot be located *)

Lemma createPrograms_searched w app :
  fst (createPrograms w app) = searchedPrograms w app.
Proof.
  unfold createPrograms, searchedPrograms, rootProgram, referencePrograms.
  unfold options_getFileNames, options_getCompilerOptions,
    options_getProjectReferences.
  match goal with
  | |- context [(length ?names =? 0)%nat] => destruct (length names =? 0)%nat
  end; reflexivity.
Qed.

Lemma expandInputFiles_dropped w app before file after :
  pathExists w file = true →
  expansionOf w app file = [] →
  expandInputFiles w app (before ++ file :: after)
  = expandInputFiles w app (before ++ after).
Proof.
  intros Hexists Hnothing.
  rewrite (surjective_pairing (expandInputFiles w app (before ++ file :: after))).
  rewrite (surjective_pairing (expandInputFiles w app (before ++ after))).
  rewrite !expandInputFiles_fst, !expandInputFiles_snd.
  rewrite !flat_map_app, !List.filter_app.
  cbn [flat_map List.filter]. now rewrite Hnothing, Hexists.
Qed.

Lemma expansionOf_nothing w app file stats :
  FS_lookup w (Path_resolve w [file]) = Some stats →
  stats = FsNoStat ∨ stats = FsDir []
  ∨ (stats = FsFile ∧ supportedFileRegex_test app (Path_resolve w [file]) = false) →
  pathExists w file = true ∧ expansionOf w app file = [].
Proof.
  intros Hstat Hcases. unfold pathExists, expansionOf. rewrite Hstat.
  split; [reflexivity|]. rewrite add_entry.
  destruct Hcases as [-> | [-> | [-> Hunsupported]]];
    [reflexivity|reflexivity|now rewrite Hunsupported].
Qed.

(** C3, as stated, fails: [README.md] exists and no program contains it
    (the only program searched holds [main.ts]), yet asking for it produces
    no warning: it is not a source file and is dropped silently. *)
Lemma unlocatable_entry_point_warning_counterexample :
  ¬ (∀ (w : World) (app : Application) (file : string),
       pathExists w file = false
       ∨ locatedIn (searchedPrograms w app)
           (normalizePath w (Path_resolve w [file])) = false →
       warnings (snd (getEntrypointsForPaths w app [file])) ≠ []).
Proof.
  intros Hclaim.
  apply (Hclaim SampleSolution.world SampleSolution.appRooted "README.md");
    [right|]; reflexivity.
Qed.

(** C3, amended.  For every list of entry-point paths, the entry points
    returned are exactly, in order, the files that the existing paths expand
    to and that one of the searched programs contains; a path that does not
    exist produces one warning, and so does an expanded file that no
    searched program contains, wherever they stand in the list; but an
    existing path that expands to no file (its stat fails, it is a
    directory in which nothing is found, or it is a file that is not a
    supported source file) is skipped without a warning: the result and the
    log are those of the list without it. *)
Theorem unlocatable_entry_points_warned_or_dropped
    (w : World) (app : Application) (paths : list string) :
  let programs := searchedPrograms w app in
  let result := getEntrypointsForPaths w app paths in
  let files :=
    map (normalizePath w)
      (flat_map (expansionOf w app) (List.filter (pathExists w) paths)) in
  map path (fst result) = List.filter (locatedIn programs) files
  ∧ warnings (snd result)
    = map notExistWarning (List.filter (fun file => negb (pathExists w file)) paths)
      ++ map unableToLocateWarning
           (List.filter (fun file => negb (locatedIn programs file)) files)
  ∧ (∀ before file after,
       pathExists w file = true →
       expansionOf w app file = [] →
       getEntrypointsForPaths w app (before ++ file :: after)
       = getEntrypointsForPaths w app (before ++ after))
  ∧ (∀ file stats,
       FS_lookup w (Path_resolve w [file]) = Some stats →
       stats = FsNoStat ∨ stats = FsDir []
       ∨ (stats = FsFile
          ∧ supportedFileRegex_test app (Path_resolve w [file]) = false) →
       pathExists w file = true ∧ expansionOf w app file = []).
Proof.
  intros programs result files.
  destruct (getEntrypointsForPaths_paths_and_warnings w app paths)
    as [Hpaths Hwarnings].
  rewrite createPrograms_searched in Hpaths, Hwarnings.
  split; [exact Hpaths|]. split; [exact Hwarnings|]. split.
  - intros before file after Hexists Hnothing.
    unfold getEntrypointsForPaths.
    now rewrite (expandInputFiles_dropped w app before file after Hexists Hnothing).
  - apply expansionOf_nothing.
Qed.

(** Under the solution-style tsconfig, [shared.ts] and [pkgB/b.ts] are
    located, [gone.ts] does not exist, no program contains [orphan.ts], and
    [README.md], [locked.ts] and [empty] are dropped silently. *)
Lemma unlocatable_entry_points_warned_or_dropped_witness :
  map path
    (fst (getEntrypointsForPaths SampleSolution.world SampleSolution.appSolution
            SampleSolution.entries))
  = ["/proj/shared.ts"; "/proj/pkgB/b.ts"]
  ∧ warnings
      (snd (getEntrypointsForPaths SampleSolution.world SampleSolution.appSolution
              SampleSolution.entries))
    = [ "Provided entry point gone.ts does not exist and will not be included in the docs.";
        "Unable to locate entry point: /proj/orphan.ts" ]
  ∧ getEntrypointsForPaths SampleSolution.world SampleSolution.appSolution
      ["README.md"; "shared.ts"]
    = getEntrypointsForPaths SampleSolution.world SampleSolution.appSolution
        ["shared.ts"]
  ∧ expansionOf SampleSolution.world SampleSolution.appSolution "locked.ts" = []
  ∧ expansionOf SampleSolution.world SampleSolution.appSolution "empty" = [].
Proof.
  destruct (unlocatable_entry_points_warned_or_dropped SampleSolution.world
              SampleSolution.appSolution SampleSolution.entries)
    as (Hpaths & Hwarnings & Hdropped & Hnothing).
  split; [rewrite Hpaths; reflexivity|].
  split; [rewrite Hwarnings; reflexivity|].
  split; [|split].
  - destruct (Hnothing "README.md" FsFile eq_refl) as [Hexists Hempty];
      [right; right; split; reflexivity|].
    exact (Hdropped [] "README.md" ["shared.ts"] Hexists Hempty).
  - refine (proj2 (Hnothing "locked.ts" FsNoStat eq_refl _)). now left.
  - refine (proj2 (Hnothing "empty" (FsDir []) eq_refl _)). right. now left.
Defined.

(** *** The program an entry file goes to *)

(** C9, as stated, fails: under a tsconfig that lists [main.ts], the first
    program among the root program and the programs of the resolved
    references that contains [pkgA/a.ts] is the program of [pkgA], yet no
    entry point is returned for the file: the references are not searched
    when the root program has root files. *)
Lemma entry_file_reference_order_counterexample :
  ¬ (∀ (w : World) (app : Application) (paths : list string) (file : string)
       (p : Program),
       In file (map (normalizePath w) (fst (expandInputFiles w app paths))) →
       List.find (containsFile file) (rootThenReferences w app) = Some p →
       ∃ ep, In ep (fst (getEntrypointsForPaths w app paths))
             ∧ path ep = file ∧ program ep = p).
Proof.
  intros Hclaim.
  destruct (Hclaim SampleSolution.world SampleSolution.appRooted ["pkgA/a.ts"]
              "/proj/pkgA/a.ts" (SampleSolution.programOf SampleSolution.pkgA))
    as (ep & Hin & _); [now left|reflexivity|].
  exact Hin.
Qed.

(** C9, amended.  The programs searched are the root program first and
    then, only when the root program has no root file names (a
    solution-style tsconfig), the programs of the resolved project
    references that are not undefined, in their order.  The entry points
    and the log of [getEntrypointsForPaths] are those of the search for each
    expanded input file, in order; every file yields at most one entry
    point; the one it yields belongs to the first searched program whose
    source-file table contains the file; and a file that no searched program
    contains yields no entry point and exactly one warning. *)
Theorem entry_file_goes_to_first_searched_program
    (w : World) (app : Application) (paths : list string) (file : string) :
  let root :=
    ts_createProgram w
      {| cpo_rootNames := opt_fileNames (options app);
         cpo_options := opt_compilerOptions (options app);
         cpo_projectReferences := opt_projectReferences (options app) |} in
  let references :=
    flat_map
      (fun ref : option ResolvedProjectReference =>
         match ref with
         | Some ref =>
             [ ts_createProgram w
                 {| cpo_rootNames := pcl_fileNames (rpr_commandLine ref);
                    cpo_options := pcl_options (rpr_commandLine ref);
                    cpo_projectReferences :=
                      pcl_projectReferences (rpr_commandLine ref) |} ]
         | None => []
         end)
      (default [] (resolvedProjectReferences root)) in
  let programs :=
    root :: (if (length (rootFileNames root) =? 0)%nat then references else []) in
  let inputFiles := fst (expandInputFiles w app paths) in
  let baseDir := getCommonDirectory w inputFiles in
  fst (getEntrypointsForPaths w app paths)
  = flat_map (fun file => fst (entryLoop_programs w baseDir file programs))
      (map (normalizePath w) inputFiles)
  ∧ warnings (snd (getEntrypointsForPaths w app paths))
    = warnings (snd (expandInputFiles w app paths))
      ++ flat_map
           (fun file => warnings (snd (entryLoop_programs w baseDir file programs)))
           (map (normalizePath w) inputFiles)
  ∧ (length (fst (entryLoop_programs w baseDir file programs)) ≤ 1)%nat
  ∧ (∀ before p after sf,
       programs = before ++ p :: after →
       Forall (fun q => getSourceFile q file = None) before →
       getSourceFile p file = Some sf →
       entryLoop_programs w baseDir file programs
       = ([ {| displayName := getModuleName w (Path_resolve w [file]) baseDir;
               path := file; sourceFile := sf; program := p |} ], []))
  ∧ (Forall (fun q => getSourceFile q file = None) programs →
     entryLoop_programs w baseDir file programs
     = ([], [Log LWarn (unableToLocateWarning file) []])).
Proof.
  intros root references programs inputFiles baseDir.
  change programs with (searchedPrograms w app).
  rewrite <- createPrograms_searched.
  split; [|split; [|split; [|split]]].
  - unfold getEntrypointsForPaths. now rewrite !bind_fst, forEach_fst.
  - unfold getEntrypointsForPaths.
    rewrite !bind_snd, !warnings_app, createPrograms_warnings, forEach_snd.
    cbn [List.app]. f_equal. unfold warnings at 1. now rewrite flat_map_flat_map.
  - apply entryLoop_programs_length.
  - intros before p after sf -> Hbefore Hp.
    now apply entryLoop_programs_first.
  - apply entryLoop_programs_none.
Qed.

(** Under the solution-style tsconfig three programs are searched: the
    root program, which holds nothing, then the programs of [pkgA] and of
    [pkgB] (the reference that did not resolve gives none).  [shared.ts] is
    in both packages and goes to [pkgA]; [pkgB/b.ts] is found in the third
    program only; [orphan.ts] is in none. *)
Lemma entry_file_goes_to_first_searched_program_witness :
  entryLoop_programs SampleSolution.world "/proj" "/proj/shared.ts"
    (searchedPrograms SampleSolution.world SampleSolution.appSolution)
  = ([ {| displayName := "shared"; path := "/proj/shared.ts";
          sourceFile := Sample.sourceFileOf "/proj/shared.ts";
          program := SampleSolution.programOf SampleSolution.pkgA |} ], [])
  ∧ entryLoop_programs SampleSolution.world "/proj" "/proj/pkgB/b.ts"
      (searchedPrograms SampleSolution.world SampleSolution.appSolution)
    = ([ {| displayName := "pkgB/b"; path := "/proj/pkgB/b.ts";
            sourceFile := Sample.sourceFileOf "/proj/pkgB/b.ts";
            program := SampleSolution.programOf SampleSolution.pkgB |} ], [])
  ∧ entryLoop_programs SampleSolution.world "/proj" "/proj/orphan.ts"
      (searchedPrograms SampleSolution.world SampleSolution.appSolution)
    = ([], [Log LWarn "Unable to locate entry point: /proj/orphan.ts" []])
  ∧ map program
      (fst (getEntrypointsForPaths SampleSolution.world SampleSolution.appSolution
              SampleSolution.entries))
    = [ SampleSolution.programOf SampleSolution.pkgA;
        SampleSolution.programOf SampleSolution.pkgB ].
Proof.
  split; [|split; [|split]].
  - destruct (entry_file_goes_to_first_searched_program SampleSolution.world
                SampleSolution.appSolution SampleSolution.entries "/proj/shared.ts")
      as (_ & _ & _ & Hfirst & _).
    assert (Hbefore : Forall (fun q => getSourceFile q "/proj/shared.ts" = None)
                        [SampleSolution.rootOfSolution]).
    { apply Forall_cons_2; [reflexivity|apply Forall_nil_2]. }
    exact (Hfirst [SampleSolution.rootOfSolution]
             (SampleSolution.programOf SampleSolution.pkgA)
             [SampleSolution.programOf SampleSolution.pkgB]
             (Sample.sourceFileOf "/proj/shared.ts") eq_refl Hbefore eq_refl).
  - destruct (entry_file_goes_to_first_searched_program SampleSolution.world
                SampleSolution.appSolution SampleSolution.entries "/proj/pkgB/b.ts")
      as (_ & _ & _ & Hfirst & _).
    assert (Hbefore : Forall (fun q => getSourceFile q "/proj/pkgB/b.ts" = None)
                        [ SampleSolution.rootOfSolution;
                          SampleSolution.programOf SampleSolution.pkgA ]).
    { apply Forall_cons_2; [reflexivity|].
      apply Forall_cons_2; [reflexivity|apply Forall_nil_2]. }
    exact (Hfirst [ SampleSolution.rootOfSolution;
                    SampleSolution.programOf SampleSolution.pkgA ]
             (SampleSolution.programOf SampleSolution.pkgB) []
             (Sample.sourceFileOf "/proj/pkgB/b.ts") eq_refl Hbefore eq_refl).
  - destruct (entry_file_goes_to_first_searched_program SampleSolution.world
                SampleSolution.appSolution SampleSolution.entries "/proj/orphan.ts")
      as (_ & _ & _ & _ & Hnone).
    apply Hnone.
    apply Forall_cons_2; [reflexivity|].
    apply Forall_cons_2; [reflexivity|].
    apply Forall_cons_2; [reflexivity|apply Forall_nil_2].
  - destruct (entry_file_goes_to_first_searched_program SampleSolution.world
                SampleSolution.appSolution SampleSolution.entries EmptyString)
      as (Hall & _).
    rewrite Hall. reflexivity.
Defined.

(** *** A single run *)

Lemma packageFailure_unlocatable w packagePath failure :
  packageFailure w packagePath = Some failure →
  packageLocatable w packagePath = false.
Proof.
  unfold packageFailure, packageLocatable.
  destruct (fst (loadPackageManifest w (Path_resolve w [packagePath; "package.json"])))
    as [packageJson|]; [|reflexivity].
  destruct (fst (getTsEntryPointForPackage w
                   (Path_resolve w [packagePath; "package.json"]) packageJson))
    as [| |entry]; [reflexivity|discriminate|].
  destruct (ts_findConfigFile w entry None) as [tsconfigFile|]; [|reflexivity].
  destruct (ts_getParsedCommandLineOfConfigFile w tsconfigFile)
    as [[parsed|] [|d ds]]; try reflexivity.
  destruct (containsFile entry _); [discriminate|reflexivity].
Qed.

Lemma convert_file_warnings w app :
  fst (getEntrypointsForPackages w
         (map (normalizePath w) (options_getValue_packages app))) = Some [] →
  flatMap (map program (fst (getEntrypointsForPaths w app (entryPoints app))))
    preEmitDiagnostics = [] →
  warnings (snd (convert w app))
  = warnings (snd (convertPrefix w app))
    ++ warnings
         (snd (getEntrypointsForPackages w
                 (map (normalizePath w) (options_getValue_packages app))))
    ++ warnings (snd (getEntrypointsForPaths w app (entryPoints app))).
Proof.
  intros Hpackages Hclean.
  destruct (convert_split w app) as [_ Hsnd]. rewrite Hsnd. clear Hsnd.
  assert (Hcollect :
    collectEntrypoints w app
    = (Some (fst (getEntrypointsForPaths w app (entryPoints app))),
       snd (getEntrypointsForPackages w
              (map (normalizePath w) (options_getValue_packages app)))
       ++ snd (getEntrypointsForPaths w app (entryPoints app)))).
  { unfold collectEntrypoints.
    destruct (getEntrypointsForPackages w _) as [result trace].
    cbn [fst snd] in Hpackages |- *. subst result.
    destruct (getEntrypointsForPaths w app (entryPoints app)) as [more trace'].
    unfold bind, ret. cbn [fst snd length Nat.eqb List.app].
    now rewrite app_nil_r. }
  rewrite Hcollect. cbn [fst snd].
  rewrite convertFrom_spec, Hclean. cbn [length Nat.eqb snd].
  rewrite !warnings_app, warnings_map_emit. cbn. now rewrite !app_nil_r.
Qed.

(** C4, as stated, fails: with the single entry point [missing.ts], which
    does not exist, [convert] warns and returns a project. *)
Lemma unlocatable_entry_point_fatal_counterexample :
  ¬ (∀ (w : World) (app : Application) (file : string),
       In file (entryPoints app) →
       pathExists w file = false →
       fst (convert w app) = None).
Proof.
  intros Hclaim.
  specialize (Hclaim Sample.world Sample.appMissing "missing.ts").
  assert (Hsome : fst (convert Sample.world Sample.appMissing)
                  = Some ConverterModel.emptyProject) by (vm_compute; reflexivity).
  rewrite Hclaim in Hsome; [discriminate Hsome|now left|reflexivity].
Qed.

(** C4, amended.  In a single run, an entry point that cannot be located is
    fatal for a package and only for a package.  If one of the expanded
    packages fails (its manifest is not loaded, its TypeScript entry point
    is not determined, its tsconfig is not found, is not parsed or has an
    unrecoverable error, or its entry point is not built by the program of
    its tsconfig; a package that is to be ignored does not fail), [convert]
    returns [undefined] and converts nothing.  When the packages contribute
    no entry point, no file-oriented entry point is fatal: provided the
    programs of the located ones have no semantic errors, [convert] returns
    the project the converter builds from exactly the files, in order, that
    the existing entry-point paths expand to and that a searched program
    contains, and its warnings are those logged before the entry points are
    collected (unsupported TypeScript version, no compiler options) and
    those of the package helpers, followed by one per entry-point path that
    does not exist and one per expanded file that no searched program
    contains (an existing path that expands to no file is skipped without
    a warning). *)
Theorem unlocatable_package_entry_point_is_fatal (w : World) (app : Application) :
  let packages := map (normalizePath w) (options_getValue_packages app) in
  let programs := searchedPrograms w app in
  let entrypoints := fst (getEntrypointsForPaths w app (entryPoints app)) in
  let files :=
    map (normalizePath w)
      (flat_map (expansionOf w app)
         (List.filter (pathExists w) (entryPoints app))) in
  (∀ packagePath failure,
     In packagePath (fst (expandPackages w "." packages)) →
     packageFailure w packagePath = Some failure →
     fst (convert w app) = None ∧ conversions (snd (convert w app)) = [])
  ∧ (fst (getEntrypointsForPackages w packages) = Some [] →
     flatMap (map program entrypoints) preEmitDiagnostics = [] →
     fst (convert w app) = Some (converter_convert w entrypoints)
     ∧ conversions (snd (convert w app)) = [entrypoints]
     ∧ map path entrypoints = List.filter (locatedIn programs) files
     ∧ warnings (snd (convert w app))
       = warnings (snd (convertPrefix w app))
         ++ warnings (snd (getEntrypointsForPackages w packages))
         ++ map notExistWarning
              (List.filter (fun file => negb (pathExists w file)) (entryPoints app))
         ++ map unableToLocateWarning
              (List.filter (fun file => negb (locatedIn programs file)) files)).
Proof.
  intros packages programs entrypoints files. split.
  - intros packagePath failure Hin Hfailure. apply convert_packages_failed.
    unfold getEntrypointsForPackages. rewrite bind_fst. cbn [logged fst].
    apply getEntrypointsForPackages_loop_unlocatable with packagePath;
      [exact Hin|].
    now apply packageFailure_unlocatable with failure.
  - intros Hpackages Hclean.
    destruct (convert_file_entry_points w app Hpackages Hclean) as [Hfst Hconv].
    destruct (getEntrypointsForPaths_paths_and_warnings w app (entryPoints app))
      as [Hpaths Hwarnings].
    rewrite createPrograms_searched in Hpaths, Hwarnings.
    split; [exact Hfst|]. split; [exact Hconv|]. split; [exact Hpaths|].
    rewrite (convert_file_warnings w app Hpackages Hclean).
    fold packages. now rewrite Hwarnings.
Qed.

(** The package [pkg] names an entry point its program does not build: no
    result.  Under the solution-style tsconfig with the entry points
    [README.md], [shared.ts], [gone.ts], [locked.ts], [orphan.ts], [empty]
    and [pkgB/b.ts]: a project, converted from the two files that are
    located, after the warnings for [gone.ts] and [orphan.ts]. *)
Lemma unlocatable_package_entry_point_is_fatal_witness :
  fst (convert Sample.world Sample.appPackages) = None
  ∧ map path
      (concat (conversions
                 (snd (convert SampleSolution.world SampleSolution.appSolution))))
    = ["/proj/shared.ts"; "/proj/pkgB/b.ts"]
  ∧ warnings (snd (convert SampleSolution.world SampleSolution.appSolution))
    = [ "Provided entry point gone.ts does not exist and will not be included in the docs.";
        "Unable to locate entry point: /proj/orphan.ts" ].
Proof.
  split.
  - destruct (unlocatable_package_entry_point_is_fatal Sample.world
                Sample.appPackages) as [Hfatal _].
    apply (Hfatal "pkg" EntryPointNotBuilt); [now left|reflexivity].
  - destruct (unlocatable_package_entry_point_is_fatal SampleSolution.world
                SampleSolution.appSolution) as [_ Hfiles].
    destruct (Hfiles eq_refl eq_refl) as (_ & Hconv & _ & Hwarnings).
    split; [rewrite Hconv; reflexivity|].
    rewrite Hwarnings. reflexivity.
Defined.

(** ** Conversion *)

Import ConverterModel.

Lemma Declaration_members_ind (P : Declaration → Prop) :
  (∀ d, Forall P (d_members d) → P d) → ∀ d, P d.
Proof.
  intros Hstep. fix self 1. intros d. apply Hstep.
  destruct d as [? ? ? ? ? ? ? ? ? ? members]. cbn [d_members].
  induction members as [|m ms IHms].
  - apply List.Forall_nil.
  - apply List.Forall_cons; [apply self|exact IHms].
Qed.

Section Renaming.

Variable rho : Symbol → Symbol.
Hypothesis rho_inj : Inj (=) (=) rho.

Lemma related_lookup p1 p2 s :
  related rho p1 p2 → project_symbols p2 !! rho s = project_symbols p1 !! s.
Proof. intros (_ & _ & ->). apply (lookup_kmap rho). Qed.

Lemma related_allocate owner place make1 make2 p1 p2 :
  related rho p1 p2 →
  (∀ id, make2 id = make1 id) →
  fst (allocate owner place make2 p2) = fst (allocate owner place make1 p1)
  ∧ related rho (snd (allocate owner place make1 p1))
      (snd (allocate owner place make2 p2)).
Proof.
  intros (Hroot & Hnext & Hsymbols) Hmake. unfold allocate, related. cbn.
  now rewrite Hroot, Hnext, Hmake, Hsymbols.
Qed.

Lemma related_registerSymbol s id p1 p2 :
  related rho p1 p2 →
  related rho (registerSymbol s id p1) (registerSymbol (rho s) id p2).
Proof.
  intros (Hroot & Hnext & Hsymbols). unfold registerSymbol, related. cbn.
  repeat split; try assumption.
  rewrite Hsymbols. symmetry. apply (kmap_insert rho).
Qed.

Lemma related_addSignature owner d p1 p2 :
  related rho p1 p2 →
  related rho (addSignature owner d p1)
    (addSignature owner (renameDeclaration rho d) p2).
Proof.
  intros Hrel. unfold addSignature.
  destruct d as [? ? ? ? ? ? ? ? signature ? ?].
  cbn [renameDeclaration d_signature d_source].
  destruct signature as [text|]; [|exact Hrel].
  exact (proj2 (related_allocate owner appendSignature _ _ p1 p2 Hrel
                  (fun id => eq_refl))).
Qed.

Lemma related_grow existing d p1 p2 :
  related rho p1 p2 →
  related rho (grow existing d p1) (grow existing (renameDeclaration rho d) p2).
Proof.
  intros (Hroot & Hnext & Hsymbols). unfold grow.
  apply related_addSignature. unfold related. cbn [project_root project_nextId project_symbols].
  destruct d. cbn. now rewrite Hroot, Hnext, Hsymbols.
Qed.

Lemma related_fold (f1 f2 : ProjectReflection → Declaration → ProjectReflection)
    (members : list Declaration) :
  Forall (fun m => ∀ p1 p2, related rho p1 p2 →
                     related rho (f1 p1 m) (f2 p2 (renameDeclaration rho m)))
    members →
  ∀ p1 p2, related rho p1 p2 →
    related rho (fold_left f1 members p1)
      (fold_left f2 (map (renameDeclaration rho) members) p2).
Proof.
  induction 1 as [|m members Hm _ IH]; intros p1 p2 Hrel; [exact Hrel|].
  cbn [fold_left map]. apply IH, Hm, Hrel.
Qed.

Lemma related_convertDeclaration d :
  ∀ ctx p1 p2,
    related rho p1 p2 →
    related rho (convertDeclaration ctx d p1)
      (convertDeclaration ctx (renameDeclaration rho d) p2).
Proof.
  induction d as [d IH] using Declaration_members_ind.
  intros ctx p1 p2 Hrel.
  destruct d as [symbol name kind flags excluded ignoreTag comment source
                   signature reexportOf members].
  cbn [d_members] in IH.
  cbn [convertDeclaration renameDeclaration d_excluded d_ignoreTag d_reexportOf
       d_symbol d_members d_name d_kind d_flags d_comment d_source].
  destruct (excluded || ignoreTag); [exact Hrel|].
  destruct reexportOf as [original|]; cbn [fmap option_fmap option_map].
  - refine (proj2 (related_allocate _ _ _ _ p1 p2 Hrel _)). intros id.
    now rewrite (related_lookup _ _ original Hrel).
  - rewrite (related_lookup _ _ symbol Hrel).
    destruct (project_symbols p1 !! symbol) as [existing|].
    + apply related_fold.
      * eapply Forall_impl; [exact IH|]. cbn. intros m Hm q1 q2. apply Hm.
      * exact (related_grow existing
                 (mkDeclaration symbol name kind flags excluded ignoreTag comment
                    source signature None members) p1 p2 Hrel).
    + pose proof (related_allocate (ctx_scope ctx) appendChild
                    (fun id => newReflection id name kind flags comment [source] None)
                    (fun id => newReflection id name kind flags comment [source] None)
                    p1 p2 Hrel (fun id => eq_refl)) as [Hid Halloc].
      rewrite Hid. apply related_fold.
      * eapply Forall_impl; [exact IH|]. cbn. intros m Hm q1 q2. apply Hm.
      * exact (related_addSignature _
                 (mkDeclaration symbol name kind flags excluded ignoreTag comment
                    source signature None members) _ _
                 (related_registerSymbol symbol _ _ _ Halloc)).
Qed.

Lemma related_convertEntrypoint p1 p2 ep1 ep2 :
  related rho p1 p2 →
  sameInput rho ep1 ep2 →
  related rho (convertEntrypoint p1 ep1) (convertEntrypoint p2 ep2).
Proof.
  intros Hrel [Hname Hdecls]. unfold convertEntrypoint. rewrite Hname, Hdecls.
  pose proof Hrel as (Hroot & _).
  rewrite Hroot.
  pose proof (related_allocate (r_id (project_root p1)) appendChild
                (fun id => newReflection id (displayName ep1) KModule [] None [] None)
                (fun id => newReflection id (displayName ep1) KModule [] None [] None)
                p1 p2 Hrel (fun id => eq_refl)) as [Hid Halloc].
  rewrite Hid. apply related_fold; [|exact Halloc].
  apply Forall_forall. intros d _ q1 q2. apply related_convertDeclaration.
Qed.

Lemma related_convert run1 run2 :
  Forall2 (sameInput rho) run1 run2 →
  related rho (convert run1) (convert run2).
Proof.
  unfold convert.
  assert (Hstart : related rho emptyProject emptyProject).
  { split; [reflexivity|split; [reflexivity|]].
    symmetry. apply (kmap_empty rho). }
  revert Hstart. generalize emptyProject at 1 3. generalize emptyProject.
  intros p2 p1 Hrel Hruns. revert p1 p2 Hrel.
  induction Hruns as [|ep1 ep2 run1 run2 Hep _ IH]; intros p1 p2 Hrel; [exact Hrel|].
  cbn [fold_left]. apply IH. now apply related_convertEntrypoint.
Qed.

End Renaming.

(** C2.  Conversion is a deterministic function of the provider's input.
    Two runs whose entry points carry the same display names and the same
    declarations — identical inputs in particular, and more generally inputs
    that differ only in the run-local tokens used as symbol identities —
    yield the same reflection graph: the same nodes with the same ids in the
    same child order, and the same next free id. *)
Theorem conversion_is_deterministic
    (rho : Symbol → Symbol) (run1 run2 : list DocumentationEntrypoint) :
  Inj (=) (=) rho →
  Forall2 (sameInput rho) run1 run2 →
  project_root (ConverterModel.convert run2)
  = project_root (ConverterModel.convert run1)
  ∧ reflectionIds (project_root (ConverterModel.convert run2))
    = reflectionIds (project_root (ConverterModel.convert run1))
  ∧ project_nextId (ConverterModel.convert run2)
    = project_nextId (ConverterModel.convert run1).
Proof.
  intros Hinj Hruns.
  destruct (related_convert rho Hinj run1 run2 Hruns) as (Hroot & Hnext & _).
  rewrite Hroot. now repeat split.
Qed.

(** The example entry point converted in two runs that name its symbols
    differently: ids 0 to 8 in both. *)
Lemma conversion_is_deterministic_witness :
  project_root (ConverterModel.convert [Sample.entrypointOtherRun])
  = project_root (ConverterModel.convert [Sample.entrypoint])
  ∧ reflectionIds
      (project_root (ConverterModel.convert [Sample.entrypointOtherRun]))
    = [0; 1; 2; 3; 4; 5; 6; 7; 8].
Proof.
  assert (Hinj : Inj (=) (=) Sample.otherRun).
  { intros x y H. unfold Sample.otherRun in H. lia. }
  assert (Hruns : Forall2 (sameInput Sample.otherRun)
                    [Sample.entrypoint] [Sample.entrypointOtherRun]).
  { constructor; [split; reflexivity|constructor]. }
  destruct (conversion_is_deterministic Sample.otherRun
              [Sample.entrypoint] [Sample.entrypointOtherRun] Hinj Hruns)
    as (Hroot & Hids & _).
  split; [exact Hroot|]. rewrite Hids. reflexivity.
Defined.

(** ** Serialization *)

Lemma generateJson_trace w app project out :
  snd (generateJson w app project out)
  = [ EnsureDirectoriesExist (Path_dirname w (Path_resolve w [out]));
      WriteFile (Path_resolve w [out])
        (JSON_stringify w
           (SerializerModel.toObject (serializer app) (project_root project))
           (if opt_pretty (options app) then tab else EmptyString));
      Log LSuccess "JSON written to %s" [Path_resolve w [out]] ].
Proof. reflexivity. Qed.

(** C7.  Serialization is deterministic.  A call of [generateJson] ensures
    the directory of the resolved output path, writes one text to that path
    and reports it; the text is the [JSON.stringify] of the object the
    serializer emits for the graph, spaced by a tab exactly when [pretty] is
    set.  So two calls under the same hooks and the same [pretty] option
    write identical texts for the same graph, whatever else differs between
    them (the output path and the event data made from it, the other
    options, the symbol index of the project); and they write identical
    texts for the projects converted in two runs whose inputs differ only
    in the tokens used as symbol identities, the ids assigned being the
    same. *)
Theorem serialization_is_deterministic
    (w : World) (app1 app2 : Application) (project1 project2 : ProjectReflection)
    (out1 out2 : string) :
  serializer app1 = serializer app2 →
  opt_pretty (options app1) = opt_pretty (options app2) →
  let text (project : ProjectReflection) :=
    JSON_stringify w
      (SerializerModel.toObject (serializer app1) (project_root project))
      (if opt_pretty (options app1) then tab else EmptyString) in
  let written (project : ProjectReflection) (out : string) :=
    [ EnsureDirectoriesExist (Path_dirname w (Path_resolve w [out]));
      WriteFile (Path_resolve w [out]) (text project);
      Log LSuccess "JSON written to %s" [Path_resolve w [out]] ] in
  snd (generateJson w app1 project1 out1) = written project1 out1
  ∧ snd (generateJson w app2 project2 out2) = written project2 out2
  ∧ (project_root project1 = project_root project2 →
     writtenData (snd (generateJson w app1 project1 out1))
     = writtenData (snd (generateJson w app2 project2 out2)))
  ∧ (∀ (rho : Symbol → Symbol) (run1 run2 : list DocumentationEntrypoint),
       Inj (=) (=) rho →
       Forall2 (sameInput rho) run1 run2 →
       writtenData (snd (generateJson w app1 (ConverterModel.convert run1) out1))
       = writtenData (snd (generateJson w app2 (ConverterModel.convert run2) out2))).
Proof.
  intros Hserializer Hpretty text written.
  assert (Hsecond : ∀ project out,
            snd (generateJson w app2 project out) = written project out).
  { intros project out. rewrite generateJson_trace.
    unfold written, text. now rewrite Hserializer, Hpretty. }
  split; [apply generateJson_trace|]. split; [apply Hsecond|].
  assert (Hsame : ∀ p1 p2, project_root p1 = project_root p2 →
            writtenData (snd (generateJson w app1 p1 out1))
            = writtenData (snd (generateJson w app2 p2 out2))).
  { intros p1 p2 Hroot. rewrite Hsecond, generateJson_trace.
    unfold written, text, writtenData. cbn [flat_map List.app]. now rewrite Hroot. }
  split; [apply Hsame|].
  intros rho run1 run2 Hinj Hruns. apply Hsame.
  destruct (related_convert rho Hinj run1 run2 Hruns) as (Hroot & _).
  now symmetry.
Qed.

(** The project of one variable whose name holds double quotes, converted
    in two runs that name its symbol differently and written to two
    different files under the same two hooks: the same text, with the quotes
    escaped, the label of the first hook before the fields of the variable
    and the signature of the second after those of the project. *)
Lemma serialization_is_deterministic_witness :
  writtenData
    (snd (generateJson Sample.world (SampleJson.appWith ["src/a.ts"])
            (ConverterModel.convert [SampleJson.entrypoint]) "docs/out.json"))
  = [SampleJson.text]
  ∧ writtenData
      (snd (generateJson Sample.world (SampleJson.appWith ["src"])
              (ConverterModel.convert [SampleJson.entrypointOtherRun])
              "other/out.json"))
    = [SampleJson.text].
Proof.
  assert (Hinj : Inj (=) (=) Sample.otherRun).
  { intros x y H. unfold Sample.otherRun in H. lia. }
  assert (Hruns : Forall2 (sameInput Sample.otherRun)
                    [SampleJson.entrypoint] [SampleJson.entrypointOtherRun]).
  { constructor; [split; reflexivity|constructor]. }
  destruct (serialization_is_deterministic Sample.world
              (SampleJson.appWith ["src/a.ts"]) (SampleJson.appWith ["src"])
              (ConverterModel.convert [SampleJson.entrypoint])
              (ConverterModel.convert [SampleJson.entrypoint])
              "docs/out.json" "other/out.json" eq_refl eq_refl)
    as (Hfirst & _ & _ & Hruns').
  rewrite <- (Hruns' Sample.otherRun _ _ Hinj Hruns), Hfirst.
  split; vm_compute; reflexivity.
Defined.
